(** * LangDefLib: a shallow embedding of the language detector

    The development follows [src/LangDefLib/LangDefLib.py] (the
    profile-driven [LangDetector]) and [src/LangLib.py] (the hard-coded
    Russian/Ukrainian classifier).

    Modelling choices, all taken from the Python source:
    - a Python [str] is a list of Unicode code points ([N]); the literals of
      the source are written as UTF-8 string literals and decoded by [u];
    - a Python [dict] is an association list in insertion order with the
      update-in-place behaviour of [d[k] = v]; iteration order matters for
      [max], for the fast path and for [sorted];
    - [d[k] += n] on a missing key raises [KeyError]: fallible code lives in
      the error monad [exc];
    - counts are natural numbers; scores, weights and confidences are
      embedded twice: as exact rationals ([Q]), which is the arithmetic of
      the code as long as nothing overflows and up to rounding, and as
      Python floats with their infinities and nan ([PyFloat]), where a result
      beyond the range of doubles overflows; the rounding of a float within
      the range is outside the model;
    - the list [languages] of a detector is a list object that other
      detectors and the class attribute [DEFAULT_LANGUAGES] may share:
      [Shared] holds the heap of these objects, the functions on one
      detector give the state of the receiver;
    - [str.lower], [str.isspace] and the regular-expression class [\w] are
      driven by the Unicode database, which is not part of the repository:
      they are the parameters of the class [Unicode]. *)

From Stdlib Require Import String Ascii Bool Arith NArith ZArith QArith List.
From Stdlib Require Import Lia Lqa Permutation Sorted.
Import ListNotations.

Local Close Scope Q_scope.
Local Open Scope string_scope.
Local Open Scope list_scope.
Local Open Scope nat_scope.

(** ** Python strings *)

Definition char := N.
Definition str := list char.

Definition char_eqb (a b : char) : bool := N.eqb a b.

Fixpoint str_eqb (a b : str) : bool :=
  match a, b with
  | [], [] => true
  | x :: a', y :: b' => char_eqb x y && str_eqb a' b'
  | _, _ => false
  end.

Definition bytes_of (s : string) : list N :=
  map N_of_ascii (list_ascii_of_string s).

(** UTF-8 decoding of a source literal: [need] continuation bytes are still
    expected and [acc] holds the bits read so far. *)
Fixpoint utf8_go (bs : list N) (need : nat) (acc : N) : str :=
  match bs with
  | [] => []
  | b :: bs' =>
      match need with
      | O =>
          if (b <? 128)%N then b :: utf8_go bs' 0 0%N
          else if (b <? 224)%N then utf8_go bs' 1 (b - 192)%N
          else if (b <? 240)%N then utf8_go bs' 2 (b - 224)%N
          else utf8_go bs' 3 (b - 240)%N
      | S k =>
          let acc' := (acc * 64 + (b - 128))%N in
          match k with
          | O => acc' :: utf8_go bs' 0 0%N
          | S _ => utf8_go bs' k acc'
          end
      end
  end.

Definition u (s : string) : str := utf8_go (bytes_of s) 0 0%N.

(** [s.startswith(p)] and [s.endswith(p)]. *)
Fixpoint startswith (s p : str) : bool :=
  match p with
  | [] => true
  | c :: p' =>
      match s with
      | [] => false
      | d :: s' => char_eqb d c && startswith s' p'
      end
  end.

Definition endswith (s p : str) : bool := startswith (rev s) (rev p).

(** [x in collection] for a collection of strings. *)
Definition str_in (x : str) (l : list str) : bool := existsb (str_eqb x) l.

(** [set(l)]: only membership is ever observed. *)
Fixpoint set_of (l : list str) : list str :=
  match l with
  | [] => []
  | x :: l' => if str_in x l' then set_of l' else x :: set_of l'
  end.

(** Iterating a string yields its one-character strings. *)
Definition chars_of (s : str) : list str := map (fun c => [c]) s.

(** [s.count(sub)]: the number of non-overlapping occurrences found by a
    left-to-right scan; after a match the scan resumes behind it ([skip]
    counts the characters of the match still to be passed).  The empty
    pattern is found [len(s) + 1] times. *)
Fixpoint count_scan (sub s : str) (skip : nat) : nat :=
  match s with
  | [] => 0
  | c :: s' =>
      match skip with
      | S k => count_scan sub s' k
      | O =>
          if startswith s sub
          then S (count_scan sub s' (length sub - 1))
          else count_scan sub s' 0
      end
  end.

Definition str_count (s sub : str) : nat :=
  match sub with
  | [] => S (length s)
  | _ :: _ => count_scan sub s 0
  end.

(** ** Python dictionaries *)

Definition dict (V : Type) := list (string * V).

Fixpoint dict_get {V} (d : dict V) (k : string) : option V :=
  match d with
  | [] => None
  | (k', v) :: d' => if String.eqb k' k then Some v else dict_get d' k
  end.

(** [d.get(k, default)]. *)
Definition dict_get_default {V} (d : dict V) (k : string) (default : V) : V :=
  match dict_get d k with
  | Some v => v
  | None => default
  end.

(** [d[k] = v]: an existing key keeps its place, a new key goes last. *)
Fixpoint dict_set {V} (d : dict V) (k : string) (v : V) : dict V :=
  match d with
  | [] => [(k, v)]
  | (k', v') :: d' =>
      if String.eqb k' k then (k', v) :: d' else (k', v') :: dict_set d' k v
  end.

(** [del d[k]] for a key that is present. *)
Fixpoint dict_del {V} (d : dict V) (k : string) : dict V :=
  match d with
  | [] => []
  | (k', v') :: d' =>
      if String.eqb k' k then d' else (k', v') :: dict_del d' k
  end.

Definition dict_mem {V} (d : dict V) (k : string) : bool :=
  match dict_get d k with
  | Some _ => true
  | None => false
  end.

Definition dict_keys {V} (d : dict V) : list string := map fst d.
Definition dict_values {V} (d : dict V) : list V := map snd d.

(** [{k: v for k in ks}]. *)
Definition dict_from_keys {V} (ks : list string) (v : V) : dict V :=
  fold_left (fun d k => dict_set d k v) ks [].

(** ** Exceptions *)

Inductive exn : Type :=
| KeyError (k : string)
| ValueError (msg : string)
| ZeroDivisionError.

Inductive exc (A : Type) : Type :=
| Ok (a : A)
| Raise (e : exn).

Arguments Ok {A} a.
Arguments Raise {A} e.

Definition bind {A B} (c : exc A) (k : A -> exc B) : exc B :=
  match c with
  | Ok a => k a
  | Raise e => Raise e
  end.

Notation "x <- c ;; k" := (bind c (fun x => k))
  (at level 61, c at next level, right associativity).

(** A [for] loop whose body may raise. *)
Fixpoint for_each {S X} (l : list X) (body : S -> X -> exc S) (s : S) : exc S :=
  match l with
  | [] => Ok s
  | x :: l' => s' <- body s x ;; for_each l' body s'
  end.

(** [d[k] += n]. *)
Definition dict_incr (d : dict nat) (k : string) (n : nat) : exc (dict nat) :=
  match dict_get d k with
  | Some v => Ok (dict_set d k (v + n))
  | None => Raise (KeyError k)
  end.

(** ** Unicode tables

    [str_lower] is [str.lower], [isspace] is [str.isspace] (also the class
    [\s] of [re] and the separator of [str.split()]), [isalnum] is
    [str.isalnum] (the class [\w] of [re] is [isalnum] or an underscore).
    The empty string has no character to convert. *)

Class Unicode : Type := {
  str_lower : str -> str;
  isspace : char -> bool;
  isalnum : char -> bool;
  str_lower_nil : str_lower [] = []
}.

(** Arbitrary Python values as far as [detect] and [analyze] look at them:
    a string, or another object with its truth value. *)
Inductive pyobj : Type :=
| PyStr (s : str)
| PyOther (truth : bool).

Definition truthy (x : pyobj) : bool :=
  match x with
  | PyStr [] => false
  | PyStr (_ :: _) => true
  | PyOther b => b
  end.

Definition isinstance_str (x : pyobj) : bool :=
  match x with
  | PyStr _ => true
  | PyOther _ => false
  end.

Definition as_str (x : pyobj) : str :=
  match x with
  | PyStr s => s
  | PyOther _ => []
  end.

Definition is_empty {X} (l : list X) : bool :=
  match l with
  | [] => true
  | _ :: _ => false
  end.

(** ** Numbers *)

Definition Qltb (a b : Q) : bool := negb (Qle_bool b a).

Definition Qnat (n : nat) : Q := inject_Z (Z.of_nat n).

(** [sum(l)]. *)
Definition Qsum (l : list Q) : Q := fold_left Qplus l (0%Q).

(** ** Language profiles *)

(** The raw dictionary handed to [LanguageData]: every key may be absent. *)
Record ProfileData : Type := {
  pd_unique_letters : option (list str);
  pd_frequent_letters : option (list str);
  pd_word_endings : option (list str);
  pd_marker_words : option (list str);
  pd_digrams : option (list str);
  pd_trigrams : option (list str);
  pd_alphabet : option (list str);
  pd_weights : option (dict Q)
}.

Record LanguageData : Type := {
  name : string;
  unique_letters : list str;
  frequent_letters : list str;
  word_endings : list str;
  marker_words : list str;
  digrams : list str;
  trigrams : list str;
  alphabet : list str;
  weights : dict Q
}.

Definition get_or {X} (o : option X) (default : X) : X :=
  match o with
  | Some x => x
  | None => default
  end.

Definition default_weights : dict Q :=
  [("unique_letters", 2%Q); ("frequent_letters", 1%Q);
   ("word_endings", (3 # 2)%Q); ("marker_words", 3%Q);
   ("digrams", 1%Q); ("trigrams", (6 # 5)%Q)].

(** [LanguageData.__init__]. *)
Definition LanguageData_init (name : string) (data : ProfileData) : LanguageData :=
  {| name := name;
     unique_letters := set_of (get_or (pd_unique_letters data) []);
     frequent_letters := set_of (get_or (pd_frequent_letters data) []);
     word_endings := get_or (pd_word_endings data) [];
     marker_words := set_of (get_or (pd_marker_words data) []);
     digrams := get_or (pd_digrams data) [];
     trigrams := get_or (pd_trigrams data) [];
     alphabet := set_of (get_or (pd_alphabet data) []);
     weights := get_or (pd_weights data) default_weights |}.

(** *** The built-in profiles ([BUILTIN_LANGUAGE_DATA]) *)

Definition russian_data : ProfileData :=
  {| pd_unique_letters := Some (map u
       ["ы"; "ъ"; "э"]);
     pd_frequent_letters := Some (map u
       ["ы"; "ъ"; "э"; "ё"]);
     pd_word_endings := Some (map u
       ["ого"; "его"; "ому"; "ему"; "ой"; "ый"; "ий"; "ться"; "тся"; "ешь";
        "ет"; "ем"; "ете"; "ут"; "ют"; "ят"; "ать"; "ить"; "оть"; "уть";
        "еть"; "ых"; "их"]);
     pd_marker_words := Some (map u
       ["это"; "или"; "как"; "который"; "где"; "когда"; "словно"; "потому";
        "кто"; "также"; "от"; "из"; "до"; "в"; "при"; "для"; "и"; "но";
        "однако"; "хотя"; "чтобы"; "если"; "из-за"; "поэтому"; "ещё"; "да";
        "нет"; "был"; "была"; "было"; "были"]);
     pd_digrams := Some (map u
       ["ть"; "тс"; "ск"; "ый"; "ий"; "тьс"; "ться"; "тс"; "нн"; "жи"; "ши";
        "чн"; "чк"; "ни"; "не"; "на"; "по"; "вы"; "за"; "что"; "ли"; "ой";
        "ом"]);
     pd_trigrams := Some (map u
       ["тся"; "ться"; "ани"; "ени"; "ост"; "ств"; "ние"]);
     pd_alphabet := Some (chars_of (u "абвгдеёжзийклмнопрстуфхцчшщъыьэюя"));
     pd_weights := None |}.

Definition ukrainian_data : ProfileData :=
  {| pd_unique_letters := Some (map u
       ["є"; "і"; "ї"; "ґ"]);
     pd_frequent_letters := Some (map u
       ["і"; "є"; "ї"; "ґ"; "ь"]);
     pd_word_endings := Some (map u
       ["ою"; "ою"; "ого"; "ої"; "ий"; "ій"; "ися"; "ись"; "ться"; "ться";
        "еться"; "иться"; "ються"; "уються"; "іти"; "ати"; "ити"; "ути";
        "яти"; "емо"; "єте"; "ємо"]);
     pd_marker_words := Some (map u
       ["це"; "або"; "чи"; "що"; "як"; "який"; "котрий"; "де"; "коли";
        "наче"; "бо"; "тому"; "хто"; "також"; "від"; "з"; "із"; "зі"; "до";
        "у"; "при"; "для"; "та"; "і"; "й"; "але"; "проте"; "однак"; "хоча";
        "щоб"; "якщо"; "коли"; "через"; "тому"; "ще"; "так"; "ні"; "не"; "є";
        "був"; "була"; "було"; "були"]);
     pd_digrams := Some (map u
       ["ть"; "нн"; "ськ"; "ий"; "ій"; "тьс"; "ьс"; "ьк"; "нн"; "дз"; "дж";
        "ґу"; "ці"; "не"; "на"; "по"; "ви"; "за"; "що"; "чи"; "ої"; "ою"]);
     pd_trigrams := Some (map u
       ["ння"; "ськ"; "ість"; "ува"; "іст"; "ють"]);
     pd_alphabet := Some (chars_of (u "абвгґдеєжзиіїйклмнопрстуфхцчшщьюя"));
     pd_weights := None |}.

Definition belarusian_data : ProfileData :=
  {| pd_unique_letters := Some (map u
       ["ў"; "і"; "ь"]);
     pd_frequent_letters := Some (map u
       ["ў"; "і"; "ь"]);
     pd_word_endings := Some (map u
       ["аць"; "яць"; "ець"; "іць"; "ыць"; "ога"; "ага"; "яго"; "ай"; "ую";
        "юю"; "ам"; "ям"; "аў"; "яў"; "ы"; "і"; "а"; "я"]);
     pd_marker_words := Some (map u
       ["гэта"; "ці"; "як"; "які"; "дзе"; "калі"; "хто"; "таксама"; "ад";
        "з"; "да"; "у"; "пры"; "для"; "і"; "але"; "аднак"; "хоць"; "каб";
        "калі"; "яшчэ"; "так"; "не"; "быў"; "была"; "было"; "былі"]);
     pd_digrams := Some (map u
       ["дз"; "ць"; "нн"; "ў"; "ы"; "і"; "ь"; "ск"; "аў"; "яў"]);
     pd_trigrams := Some (map u
       ["дзь"; "цца"; "чны"; "нне"; "ван"; "льн"]);
     pd_alphabet := Some (chars_of (u "абвгдеёжзійклмнопрстуўфхцчшыьэюя"));
     pd_weights := None |}.

Definition english_data : ProfileData :=
  {| pd_unique_letters := Some (map u
       []);
     pd_frequent_letters := Some (map u
       ["w"; "q"; "x"; "y"; "k"]);
     pd_word_endings := Some (map u
       ["ing"; "ed"; "ly"; "tion"; "sion"; "ment"; "ness"; "ity"; "ance";
        "ence"; "er"; "or"; "ist"; "s"; "es"]);
     pd_marker_words := Some (map u
       ["the"; "and"; "is"; "are"; "was"; "were"; "be"; "been"; "to"; "of";
        "in"; "for"; "with"; "on"; "at"; "from"; "by"; "about"; "as"; "into";
        "like"; "through"; "after"; "over"; "between"; "out"; "but"; "or";
        "so"; "if"; "while"]);
     pd_digrams := Some (map u
       ["th"; "he"; "an"; "in"; "er"; "on"; "at"; "re"; "ed"; "nd"; "to";
        "or"; "ea"; "ti"; "ar"; "te"; "al"; "st"; "en"; "it"]);
     pd_trigrams := Some (map u
       ["the"; "and"; "ing"; "ion"; "ent"; "ati"; "for"; "her"; "ter"; "hat"]);
     pd_alphabet := Some (chars_of (u "abcdefghijklmnopqrstuvwxyz"));
     pd_weights := None |}.

Definition polish_data : ProfileData :=
  {| pd_unique_letters := Some (map u
       ["ą"; "ę"; "ł"; "ń"; "ó"; "ś"; "ź"; "ż"]);
     pd_frequent_letters := Some (map u
       ["ą"; "ę"; "ł"; "ń"; "ó"; "ś"; "ź"; "ż"; "cz"; "sz"; "rz"]);
     pd_word_endings := Some (map u
       ["ać"; "ąć"; "eć"; "yć"; "ść"; "ości"; "owa"; "nego"; "emu"; "ymi";
        "ych"; "ego"; "em"; "cie"; "ują"; "ają"]);
     pd_marker_words := Some (map u
       ["to"; "jest"; "nie"; "tak"; "jak"; "który"; "gdzie"; "kiedy"; "od";
        "z"; "ze"; "do"; "w"; "przy"; "dla"; "i"; "ale"; "jednak"; "chociaż";
        "żeby"; "jeśli"; "przez"; "więc"; "jeszcze"]);
     pd_digrams := Some (map u
       ["cz"; "sz"; "rz"; "dz"; "ch"; "ni"; "ci"; "ąc"; "ść"; "że"]);
     pd_trigrams := Some (map u
       ["nie"; "prz"; "owa"; "ści"; "czn"; "dzi"; "anie"]);
     pd_alphabet := Some (chars_of (u "aąbcćdeęfghijklłmnńoópqrsśtuvwxyzźż"));
     pd_weights := None |}.

Definition BUILTIN_LANGUAGE_DATA : dict ProfileData :=
  [("russian", russian_data); ("ukrainian", ukrainian_data);
   ("belarusian", belarusian_data); ("english", english_data);
   ("polish", polish_data)].

Definition DEFAULT_LANGUAGES : list string := ["russian"; "ukrainian"].

Definition DEFAULT_DATA_DIR : string := "data".

(** ** The detector state *)

(** The attributes of a [LangDetector] object, the list [languages] by its
    content: the state of one detector as its own methods read and leave
    it.  The heap of list objects, through which a list is shared with the
    caller or with the class attribute [DEFAULT_LANGUAGES], follows below
    ([Shared]).  The warnings that [_load_language_data] prints are not
    modelled. *)
Record LangDetector : Type := {
  languages : list string;
  data_dir : string;
  min_confidence : Q;
  language_data : dict LanguageData
}.

(** What [_load_language_data] finds at a path: no file, a file holding a
    profile, or a file whose reading or decoding raises. *)
Inductive FileContent : Type :=
| NoFile
| JsonFile (data : ProfileData)
| BrokenFile.

Definition FileSystem := string -> FileContent.

Definition lang_file (dir lang : string) : string := dir ++ "/" ++ lang ++ ".json".

Definition load_builtin (lang : string) (ld : dict LanguageData) : dict LanguageData :=
  match dict_get BUILTIN_LANGUAGE_DATA lang with
  | Some data => dict_set ld lang (LanguageData_init lang data)
  | None => ld
  end.

Definition _load_language_data (fs : FileSystem) (languages : list string)
    (data_dir : string) (language_data : dict LanguageData) : dict LanguageData :=
  fold_left
    (fun ld lang =>
       match fs (lang_file data_dir lang) with
       | JsonFile data => dict_set ld lang (LanguageData_init lang data)
       | NoFile => load_builtin lang ld
       | BrokenFile => load_builtin lang ld
       end)
    languages language_data.

(** [LangDetector.__init__]; [x or default] takes the default for [None]
    and for an empty value. *)
Definition LangDetector_init (fs : FileSystem) (languages : option (list string))
    (data_dir : option string) (min_confidence : Q) : LangDetector :=
  let languages :=
    match languages with
    | Some (l :: ls) => l :: ls
    | _ => DEFAULT_LANGUAGES
    end in
  let data_dir :=
    match data_dir with
    | Some EmptyString | None => DEFAULT_DATA_DIR
    | Some d => d
    end in
  {| languages := languages;
     data_dir := data_dir;
     min_confidence := min_confidence;
     language_data := _load_language_data fs languages data_dir [] |}.

Definition lang_in (lang : string) (l : list string) : bool :=
  existsb (String.eqb lang) l.

(** [list.remove(x)]: the first occurrence goes. *)
Fixpoint list_remove (l : list string) (x : string) : list string :=
  match l with
  | [] => []
  | y :: l' => if String.eqb y x then l' else y :: list_remove l' x
  end.

Definition add_language (self : LangDetector) (lang_code : string)
    (data : ProfileData) : LangDetector :=
  {| languages :=
       if lang_in lang_code (languages self) then languages self
       else languages self ++ [lang_code];
     data_dir := data_dir self;
     min_confidence := min_confidence self;
     language_data :=
       dict_set (language_data self) lang_code (LanguageData_init lang_code data) |}.

Definition remove_language (self : LangDetector) (lang_code : string)
    : LangDetector * bool :=
  if lang_in lang_code (languages self) then
    ({| languages := list_remove (languages self) lang_code;
        data_dir := data_dir self;
        min_confidence := min_confidence self;
        language_data :=
          if dict_mem (language_data self) lang_code
          then dict_del (language_data self) lang_code
          else language_data self |}, true)
  else (self, false).

(** ** List objects shared between detectors

    [__init__] keeps the list object it is handed, or the class attribute
    [DEFAULT_LANGUAGES] itself when it is handed none or an empty one, and
    [add_language] and [remove_language] change that object in place with
    [append] and [remove].  The list objects of a program live in a heap; a
    detector object holds the address of its list.  [LangDetector_init],
    [add_language] and [remove_language] above give the state of the
    receiver alone; the functions of [Shared] act on the heap.  Each detector has
    its own dictionary [language_data], created by [__init__]. *)

Definition ref := nat.

Definition Heap := ref -> list string.

Definition heap_set (heap : Heap) (r : ref) (l : list string) : Heap :=
  fun r' => if Nat.eqb r' r then l else heap r'.

Module Shared.

Record LangDetector : Type := {
  languages : ref;
  data_dir : string;
  min_confidence : Q;
  language_data : dict LanguageData
}.

(** The address of the list that the class attribute [DEFAULT_LANGUAGES]
    names. *)
Definition DEFAULT_LANGUAGES : ref := 0.

Definition LangDetector_init (fs : FileSystem) (heap : Heap)
    (languages : option ref) (data_dir : option string) (min_confidence : Q)
    : LangDetector :=
  let languages :=
    match languages with
    | Some r => if is_empty (heap r) then DEFAULT_LANGUAGES else r
    | None => DEFAULT_LANGUAGES
    end in
  let data_dir :=
    match data_dir with
    | Some EmptyString | None => DEFAULT_DATA_DIR
    | Some d => d
    end in
  {| languages := languages;
     data_dir := data_dir;
     min_confidence := min_confidence;
     language_data := _load_language_data fs (heap languages) data_dir [] |}.

Definition add_language (heap : Heap) (self : LangDetector) (lang_code : string)
    (data : ProfileData) : Heap * LangDetector :=
  let heap :=
    if lang_in lang_code (heap (languages self)) then heap
    else heap_set heap (languages self) (heap (languages self) ++ [lang_code]) in
  (heap,
   {| languages := languages self;
      data_dir := data_dir self;
      min_confidence := min_confidence self;
      language_data :=
        dict_set (language_data self) lang_code
          (LanguageData_init lang_code data) |}).

Definition remove_language (heap : Heap) (self : LangDetector)
    (lang_code : string) : Heap * LangDetector * bool :=
  if lang_in lang_code (heap (languages self)) then
    (heap_set heap (languages self)
       (list_remove (heap (languages self)) lang_code),
     {| languages := languages self;
        data_dir := data_dir self;
        min_confidence := min_confidence self;
        language_data :=
          if dict_mem (language_data self) lang_code
          then dict_del (language_data self) lang_code
          else language_data self |},
     true)
  else (heap, self, false).

End Shared.

(** The attributes of a detector object as the pages above hold them: the
    list is read from the heap. *)
Definition state_of (heap : Heap) (self : Shared.LangDetector) : LangDetector :=
  {| languages := heap (Shared.languages self);
     data_dir := Shared.data_dir self;
     min_confidence := Shared.min_confidence self;
     language_data := Shared.language_data self |}.

(** The heap when the module has been imported: the class attribute and no
    other list. *)
Definition initial_heap : Heap :=
  fun r => if Nat.eqb r Shared.DEFAULT_LANGUAGES then DEFAULT_LANGUAGES else [].

Section Detector.

Context {U : Unicode}.

(** ** Text normalisation *)

Definition space : char := 32%N.
Definition underscore : char := 95%N.

(** The class [\w]. *)
Definition is_word (c : char) : bool := isalnum c || char_eqb c underscore.

(** [re.sub(r'[^\w\s]', ' ', text)]. *)
Definition sub_punctuation (text : str) : str :=
  map (fun c => if is_word c || isspace c then c else space) text.

(** [re.sub(r'\s+', ' ', text)]; [in_run] tells that the previous character
    was white space, whose run has already been replaced. *)
Fixpoint sub_whitespace (text : str) (in_run : bool) : str :=
  match text with
  | [] => []
  | c :: text' =>
      if isspace c
      then (if in_run then sub_whitespace text' true
            else space :: sub_whitespace text' true)
      else c :: sub_whitespace text' false
  end.

Fixpoint lstrip (s : str) : str :=
  match s with
  | [] => []
  | c :: s' => if isspace c then lstrip s' else s
  end.

Definition strip (s : str) : str := rev (lstrip (rev (lstrip s))).

Definition _clean_text (text : str) : str :=
  let text := str_lower text in
  let text := sub_punctuation text in
  let text := sub_whitespace text false in
  strip text.

(** [s.split()]: the maximal runs of characters that are not white space;
    [cur] is the run being read, last character first. *)
Fixpoint split_go (s : str) (cur : str) : list str :=
  match s with
  | [] => if is_empty cur then [] else [rev cur]
  | c :: s' =>
      if isspace c
      then (if is_empty cur then split_go s' [] else rev cur :: split_go s' [])
      else split_go s' (c :: cur)
  end.

Definition split (s : str) : list str := split_go s [].

(** ** The six feature extractors *)

(** [sum(1 for char in text if char in letters)]. *)
Definition count_letters (letters : list str) (text : str) : nat :=
  length (filter (fun c => str_in [c] letters) text).

Definition _count_unique_letters (self : LangDetector) (text : str) : dict nat :=
  fold_left
    (fun scores '(lang_code, lang_data) =>
       dict_set scores lang_code (count_letters (unique_letters lang_data) text))
    (language_data self) [].

Definition _count_frequent_letters (self : LangDetector) (text : str) : dict nat :=
  fold_left
    (fun scores '(lang_code, lang_data) =>
       dict_set scores lang_code (count_letters (frequent_letters lang_data) text))
    (language_data self) [].

(** The inner loop over the endings stops at the first match. *)
Definition _check_word_endings (self : LangDetector) (words : list str)
    : exc (dict nat) :=
  for_each words
    (fun scores word =>
       if length word <? 3 then Ok scores
       else
         for_each (language_data self)
           (fun scores '(lang_code, lang_data) =>
              if existsb (endswith word) (word_endings lang_data)
              then dict_incr scores lang_code 1
              else Ok scores)
           scores)
    (dict_from_keys (languages self) 0).

Definition _check_marker_words (self : LangDetector) (words : list str)
    : exc (dict nat) :=
  let words_lower := map str_lower words in
  for_each words_lower
    (fun scores word =>
       for_each (language_data self)
         (fun scores '(lang_code, lang_data) =>
            if str_in word (marker_words lang_data)
            then dict_incr scores lang_code 1
            else Ok scores)
         scores)
    (dict_from_keys (languages self) 0).

Definition _check_ngrams (self : LangDetector) (text : str) (n : nat)
    : exc (dict nat) :=
  let text_lower := str_lower text in
  for_each (language_data self)
    (fun scores '(lang_code, lang_data) =>
       if n =? 2 then
         for_each (digrams lang_data)
           (fun scores digram => dict_incr scores lang_code (str_count text_lower digram))
           scores
       else if n =? 3 then
         for_each (trigrams lang_data)
           (fun scores trigram => dict_incr scores lang_code (str_count text_lower trigram))
           scores
       else Ok scores)
    (dict_from_keys (languages self) 0).

(** ** Weighted aggregation *)

Definition weighted (counts : dict nat) (lang_code : string)
    (lang_data : LanguageData) (feature : string) (default : Q) : Q :=
  (Qnat (dict_get_default counts lang_code 0%nat)
   * dict_get_default (weights lang_data) feature default)%Q.

Definition _calculate_weighted_scores (self : LangDetector)
    (unique_letters frequent_letters word_endings marker_words digrams trigrams
       : dict nat) : dict Q :=
  fold_left
    (fun scores '(lang_code, lang_data) =>
       dict_set scores lang_code
         (weighted unique_letters lang_code lang_data "unique_letters" 2
          + weighted frequent_letters lang_code lang_data "frequent_letters" 1
          + weighted word_endings lang_code lang_data "word_endings" (3 # 2)
          + weighted marker_words lang_code lang_data "marker_words" 3
          + weighted digrams lang_code lang_data "digrams" 1
          + weighted trigrams lang_code lang_data "trigrams" (6 # 5))%Q)
    (language_data self)
    (dict_from_keys (languages self) (0%Q)).

(** [max(items, key=lambda x: x[1])]: the first item with the largest
    score. *)
Fixpoint max_from (best : string * Q) (items : list (string * Q)) : string * Q :=
  match items with
  | [] => best
  | x :: items' =>
      if Qltb (snd best) (snd x) then max_from x items' else max_from best items'
  end.

Definition py_max (items : list (string * Q)) : exc (string * Q) :=
  match items with
  | [] => Raise (ValueError "max() arg is an empty sequence")
  | x :: items' => Ok (max_from x items')
  end.

(** ** [detect] *)

Record Detection : Type := {
  language : string;
  confidence : Q
}.

Definition unknown_result : Detection :=
  {| language := "unknown"; confidence := 0%Q |}.

(** The condition of the fast path for one item of the unique-letter map. *)
Definition only_language (unique_scores : dict nat) (item : string * nat) : bool :=
  let '(lang, score) := item in
  (0 <? score)
  && forallb (fun '(l, s) => if String.eqb l lang then true else s =? 0)
       unique_scores.

Definition fast_path (unique_scores : dict nat) : option string :=
  option_map fst (find (only_language unique_scores) unique_scores).

Definition detect (self : LangDetector) (text : pyobj) : exc Detection :=
  if negb (truthy text) || negb (isinstance_str text) then Ok unknown_result
  else
    let cleaned_text := _clean_text (as_str text) in
    if is_empty cleaned_text then Ok unknown_result
    else
      let words := split cleaned_text in
      if is_empty words then Ok unknown_result
      else
        let unique_scores := _count_unique_letters self cleaned_text in
        match fast_path unique_scores with
        | Some lang => Ok {| language := lang; confidence := (95 # 100)%Q |}
        | None =>
            let frequent_letters := _count_frequent_letters self cleaned_text in
            word_endings <- _check_word_endings self words ;;
            marker_words <- _check_marker_words self words ;;
            digrams <- _check_ngrams self cleaned_text 2 ;;
            trigrams <- _check_ngrams self cleaned_text 3 ;;
            let scores :=
              _calculate_weighted_scores self unique_scores frequent_letters
                word_endings marker_words digrams trigrams in
            let total_score := Qsum (dict_values scores) in
            if Qeq_bool total_score 0 then Ok unknown_result
            else
              best_lang <- py_max scores ;;
              let language := fst best_lang in
              let confidence := (snd best_lang / total_score)%Q in
              if Qltb confidence (min_confidence self)
              then Ok {| language := "unknown"; confidence := confidence |}
              else Ok {| language := language; confidence := confidence |}
        end.

(** ** [analyze] *)

Record Stats : Type := {
  text_length : nat;
  cleaned_length : nat;
  word_count : nat;
  average_word_length : Q
}.

Record Metrics : Type := {
  metric_unique_letters : dict nat;
  metric_frequent_letters : dict nat;
  metric_word_endings : dict nat;
  metric_marker_words : dict nat;
  metric_digrams : dict nat;
  metric_trigrams : dict nat
}.

Record TopLanguage : Type := {
  top_language : string;
  top_score : Q;
  top_confidence : Q
}.

(** The report of [analyze]: the keys ['language'] and ['confidence'] of the
    dictionary are the fields of [result]. *)
Record Analysis : Type := {
  result : Detection;
  stats : Stats;
  metrics : Metrics;
  scores : dict Q;
  top_languages : list TopLanguage
}.

(** [analyze] returns either a dictionary with the single key ['error'] or
    the full report. *)
Inductive AnalyzeResult : Type :=
| AnalyzeError (error : string)
| AnalyzeReport (report : Analysis).

(** [sorted(items, key=lambda x: x[1], reverse=True)]: a stable sort, items
    of equal score keep their order. *)
Fixpoint insert_desc (x : string * Q) (sorted : list (string * Q))
    : list (string * Q) :=
  match sorted with
  | [] => [x]
  | y :: sorted' =>
      if Qltb (snd x) (snd y) then y :: insert_desc x sorted' else x :: sorted
  end.

Definition sorted_desc (items : list (string * Q)) : list (string * Q) :=
  fold_right insert_desc [] items.

Definition analyze (self : LangDetector) (text : pyobj) : exc AnalyzeResult :=
  if negb (truthy text) || negb (isinstance_str text)
  then Ok (AnalyzeError "Empty or invalid text")
  else
    let cleaned_text := _clean_text (as_str text) in
    if is_empty cleaned_text
    then Ok (AnalyzeError "Text contains no analyzable content")
    else
      let words := split cleaned_text in
      let unique_letters := _count_unique_letters self cleaned_text in
      let frequent_letters := _count_frequent_letters self cleaned_text in
      word_endings <- _check_word_endings self words ;;
      marker_words <- _check_marker_words self words ;;
      digrams <- _check_ngrams self cleaned_text 2 ;;
      trigrams <- _check_ngrams self cleaned_text 3 ;;
      let scores :=
        _calculate_weighted_scores self unique_letters frequent_letters
          word_endings marker_words digrams trigrams in
      let total_score := Qsum (dict_values scores) in
      result <-
        (if Qeq_bool total_score 0 then Ok unknown_result
         else
           best_lang <- py_max scores ;;
           let language := fst best_lang in
           let confidence := (snd best_lang / total_score)%Q in
           if Qltb confidence (min_confidence self)
           then Ok {| language := "unknown"; confidence := confidence |}
           else Ok {| language := language; confidence := confidence |}) ;;
      let stats :=
        {| text_length := length (as_str text);
           cleaned_length := length cleaned_text;
           word_count := length words;
           average_word_length :=
             if is_empty words then 0%Q
             else (Qnat (list_sum (map (@length char) words))
                   / Qnat (length words))%Q |} in
      let metrics :=
        {| metric_unique_letters := unique_letters;
           metric_frequent_letters := frequent_letters;
           metric_word_endings := word_endings;
           metric_marker_words := marker_words;
           metric_digrams := digrams;
           metric_trigrams := trigrams |} in
      let sorted_scores := sorted_desc scores in
      Ok (AnalyzeReport
            {| result := result;
               stats := stats;
               metrics := metrics;
               scores := scores;
               top_languages :=
                 map (fun '(lang, score) =>
                        {| top_language := lang;
                           top_score := score;
                           top_confidence :=
                             if Qltb 0 total_score
                             then (score / total_score)%Q else 0%Q |})
                   (filter (fun '(lang, score) => Qltb 0 score)
                      (firstn 3 sorted_scores)) |}).

Definition get_language (self : LangDetector) (text : pyobj) : exc string :=
  result <- detect self text ;;
  Ok (language result).

End Detector.

(** The module-level helper [detect_language(text, languages)]. *)
Definition detect_language {U : Unicode} (fs : FileSystem) (text : pyobj)
    (languages : option (list string)) : exc Detection :=
  let detector := LangDetector_init fs languages None (6 # 10)%Q in
  detect detector text.

(** What [detect_from_file] finds when it opens and reads a path: the text
    of the file, or an exception of [open] or [read]. *)
Inductive ReadResult : Type :=
| ReadText (text : str)
| ReadFailure (message : string).

Definition TextFiles := string -> ReadResult.

(** The exception whose message [detect_from_file] reports in the key
    ['error']: one of reading the file or one of [detect]. *)
Inductive FileError : Type :=
| ReadError (message : string)
| DetectError (e : exn).

(** ** Python floats

    The weighted scores, their sum and the confidences are Python floats,
    that is IEEE 754 doubles.  A float is a finite value, an infinity or
    nan.  A finite value is kept as the rational it stands for, and
    arithmetic on finite values is exact as long as the result stays within
    the range of doubles: a result whose magnitude reaches [float_overflow]
    (the largest double plus half a unit in its last place) becomes an
    infinity, and infinities and nan combine as IEEE 754 prescribes.  The
    rounding of a result within the range, subnormal numbers and the sign of
    zero are not modelled. *)

Inductive float : Type :=
| Finite (q : Q)
| Infinity (negative : bool)
| NaN.

Definition float_overflow : Q := inject_Z (2 ^ 1024 - 2 ^ 970).

(** The float nearest to a number: [float(x)], and the value [json.load]
    gives a number literal. *)
Definition float_of_Q (q : Q) : float :=
  if Qle_bool float_overflow q then Infinity false
  else if Qle_bool q (- float_overflow) then Infinity true
  else Finite q.

(** The conversion of an [int] operand.  The integers converted here are
    counts of characters, words and patterns of a [str], far below the
    [2 ** 1024] from which Python raises [OverflowError]. *)
Definition float_of_nat (n : nat) : float := Finite (Qnat n).

(** [x * y]. *)
Definition fmul (x y : float) : float :=
  match x, y with
  | NaN, _ | _, NaN => NaN
  | Finite a, Finite b => float_of_Q (a * b)
  | Finite a, Infinity negative | Infinity negative, Finite a =>
      if Qeq_bool a 0 then NaN else Infinity (xorb negative (Qltb a 0))
  | Infinity a, Infinity b => Infinity (xorb a b)
  end.

(** [x + y]. *)
Definition fadd (x y : float) : float :=
  match x, y with
  | NaN, _ | _, NaN => NaN
  | Finite a, Finite b => float_of_Q (a + b)
  | Finite _, Infinity negative | Infinity negative, Finite _ => Infinity negative
  | Infinity a, Infinity b => if Bool.eqb a b then Infinity a else NaN
  end.

(** [x / y]: Python raises [ZeroDivisionError] on a zero divisor. *)
Definition fdiv (x y : float) : exc float :=
  match x, y with
  | _, Finite b =>
      if Qeq_bool b 0 then Raise ZeroDivisionError
      else match x with
           | Finite a => Ok (float_of_Q (a / b))
           | Infinity negative => Ok (Infinity (xorb negative (Qltb b 0)))
           | NaN => Ok NaN
           end
  | NaN, _ | _, NaN => Ok NaN
  | Finite _, Infinity _ => Ok (Finite 0)
  | Infinity _, Infinity _ => Ok NaN
  end.

(** [x < y] and [x == y]: every comparison with nan is false. *)
Definition flt (x y : float) : bool :=
  match x, y with
  | Finite a, Finite b => Qltb a b
  | Finite _, Infinity negative => negb negative
  | Infinity negative, Finite _ => negative
  | Infinity a, Infinity b => a && negb b
  | _, _ => false
  end.

Definition feq (x y : float) : bool :=
  match x, y with
  | Finite a, Finite b => Qeq_bool a b
  | Infinity a, Infinity b => Bool.eqb a b
  | _, _ => false
  end.

(** [sum(l)]: the additions start from the integer 0. *)
Definition fsum (l : list float) : float := fold_left fadd l (Finite 0).

(** ** The scores as Python floats

    [_calculate_weighted_scores], [detect], [analyze] and [detect_from_file]
    once more, with the arithmetic of Python floats in the place of exact
    rationals.  The six extractors work on integers and are the ones above.
    A weight and the threshold [min_confidence] are held in the detector as
    the numbers they denote and enter the arithmetic through [float_of_Q]: a
    value beyond the range of doubles stands for an infinity. *)

Module PyFloat.

Record Detection : Type := {
  language : string;
  confidence : float
}.

Definition unknown_result : Detection :=
  {| language := "unknown"; confidence := Finite 0 |}.

Record TopLanguage : Type := {
  top_language : string;
  top_score : float;
  top_confidence : float
}.

Record Analysis : Type := {
  result : Detection;
  stats : Stats;
  metrics : Metrics;
  scores : dict float;
  top_languages : list TopLanguage
}.

Inductive AnalyzeResult : Type :=
| AnalyzeError (error : string)
| AnalyzeReport (report : Analysis).

(** The dictionary of [detect_from_file]: language and confidence, and the
    key ['error'] when an exception was caught. *)
Record FileDetection : Type := {
  file_answer : Detection;
  file_error : option FileError
}.

(** [max(items, key=lambda x: x[1])]: an item replaces the best one so far
    when its score is greater. *)
Fixpoint max_from (best : string * float) (items : list (string * float))
    : string * float :=
  match items with
  | [] => best
  | x :: items' =>
      if flt (snd best) (snd x) then max_from x items' else max_from best items'
  end.

Definition py_max (items : list (string * float)) : exc (string * float) :=
  match items with
  | [] => Raise (ValueError "max() arg is an empty sequence")
  | x :: items' => Ok (max_from x items')
  end.

(** [sorted(items, key=lambda x: x[1], reverse=True)] on scores that [<]
    orders totally: a stable sort, items of equal score keep their order.
    With a nan among the scores the result of [sorted] depends on the runs
    its algorithm finds, which this insertion does not follow. *)
Fixpoint insert_desc (x : string * float) (sorted : list (string * float))
    : list (string * float) :=
  match sorted with
  | [] => [x]
  | y :: sorted' =>
      if flt (snd x) (snd y) then y :: insert_desc x sorted' else x :: sorted
  end.

Definition sorted_desc (items : list (string * float)) : list (string * float) :=
  fold_right insert_desc [] items.

(** A list comprehension whose element expression may raise. *)
Fixpoint map_exc {A B} (f : A -> exc B) (l : list A) : exc (list B) :=
  match l with
  | [] => Ok []
  | x :: l' =>
      y <- f x ;;
      ys <- map_exc f l' ;;
      Ok (y :: ys)
  end.

Section Detector.

Context {U : Unicode}.

Definition weighted (counts : dict nat) (lang_code : string)
    (lang_data : LanguageData) (feature : string) (default : Q) : float :=
  fmul (float_of_nat (dict_get_default counts lang_code 0%nat))
    (float_of_Q (dict_get_default (weights lang_data) feature default)).

Definition _calculate_weighted_scores (self : LangDetector)
    (unique_letters frequent_letters word_endings marker_words digrams trigrams
       : dict nat) : dict float :=
  fold_left
    (fun scores '(lang_code, lang_data) =>
       dict_set scores lang_code
         (fadd
            (fadd
               (fadd
                  (fadd
                     (fadd
                        (weighted unique_letters lang_code lang_data
                           "unique_letters" 2)
                        (weighted frequent_letters lang_code lang_data
                           "frequent_letters" 1))
                     (weighted word_endings lang_code lang_data
                        "word_endings" (3 # 2)))
                  (weighted marker_words lang_code lang_data "marker_words" 3))
               (weighted digrams lang_code lang_data "digrams" 1))
            (weighted trigrams lang_code lang_data "trigrams" (6 # 5))))
    (language_data self)
    (dict_from_keys (languages self) (Finite 0)).

Definition detect (self : LangDetector) (text : pyobj) : exc Detection :=
  if negb (truthy text) || negb (isinstance_str text) then Ok unknown_result
  else
    let cleaned_text := _clean_text (as_str text) in
    if is_empty cleaned_text then Ok unknown_result
    else
      let words := split cleaned_text in
      if is_empty words then Ok unknown_result
      else
        let unique_scores := _count_unique_letters self cleaned_text in
        match fast_path unique_scores with
        | Some lang => Ok {| language := lang; confidence := Finite (95 # 100) |}
        | None =>
            let frequent_letters := _count_frequent_letters self cleaned_text in
            word_endings <- _check_word_endings self words ;;
            marker_words <- _check_marker_words self words ;;
            digrams <- _check_ngrams self cleaned_text 2 ;;
            trigrams <- _check_ngrams self cleaned_text 3 ;;
            let scores :=
              _calculate_weighted_scores self unique_scores frequent_letters
                word_endings marker_words digrams trigrams in
            let total_score := fsum (dict_values scores) in
            if feq total_score (Finite 0) then Ok unknown_result
            else
              best_lang <- py_max scores ;;
              let language := fst best_lang in
              confidence <- fdiv (snd best_lang) total_score ;;
              if flt confidence (float_of_Q (min_confidence self))
              then Ok {| language := "unknown"; confidence := confidence |}
              else Ok {| language := language; confidence := confidence |}
        end.

Definition analyze (self : LangDetector) (text : pyobj) : exc AnalyzeResult :=
  if negb (truthy text) || negb (isinstance_str text)
  then Ok (AnalyzeError "Empty or invalid text")
  else
    let cleaned_text := _clean_text (as_str text) in
    if is_empty cleaned_text
    then Ok (AnalyzeError "Text contains no analyzable content")
    else
      let words := split cleaned_text in
      let unique_letters := _count_unique_letters self cleaned_text in
      let frequent_letters := _count_frequent_letters self cleaned_text in
      word_endings <- _check_word_endings self words ;;
      marker_words <- _check_marker_words self words ;;
      digrams <- _check_ngrams self cleaned_text 2 ;;
      trigrams <- _check_ngrams self cleaned_text 3 ;;
      let scores :=
        _calculate_weighted_scores self unique_letters frequent_letters
          word_endings marker_words digrams trigrams in
      let total_score := fsum (dict_values scores) in
      result <-
        (if feq total_score (Finite 0) then Ok unknown_result
         else
           best_lang <- py_max scores ;;
           let language := fst best_lang in
           confidence <- fdiv (snd best_lang) total_score ;;
           if flt confidence (float_of_Q (min_confidence self))
           then Ok {| language := "unknown"; confidence := confidence |}
           else Ok {| language := language; confidence := confidence |}) ;;
      let stats :=
        {| text_length := length (as_str text);
           cleaned_length := length cleaned_text;
           word_count := length words;
           average_word_length :=
             if is_empty words then 0%Q
             else (Qnat (list_sum (map (@length char) words))
                   / Qnat (length words))%Q |} in
      let metrics :=
        {| metric_unique_letters := unique_letters;
           metric_frequent_letters := frequent_letters;
           metric_word_endings := word_endings;
           metric_marker_words := marker_words;
           metric_digrams := digrams;
           metric_trigrams := trigrams |} in
      let sorted_scores := sorted_desc scores in
      top_languages <-
        map_exc
          (fun '(lang, score) =>
             confidence <-
               (if flt (Finite 0) total_score then fdiv score total_score
                else Ok (Finite 0)) ;;
             Ok {| top_language := lang;
                   top_score := score;
                   top_confidence := confidence |})
          (filter (fun '(lang, score) => flt (Finite 0) score)
             (firstn 3 sorted_scores)) ;;
      Ok (AnalyzeReport
            {| result := result;
               stats := stats;
               metrics := metrics;
               scores := scores;
               top_languages := top_languages |}).

Definition detect_from_file (files : TextFiles) (self : LangDetector)
    (file_path : string) : FileDetection :=
  match files file_path with
  | ReadText text =>
      match detect self (PyStr text) with
      | Ok result => {| file_answer := result; file_error := None |}
      | Raise e =>
          {| file_answer := unknown_result; file_error := Some (DetectError e) |}
      end
  | ReadFailure message =>
      {| file_answer := unknown_result; file_error := Some (ReadError message) |}
  end.

End Detector.

End PyFloat.

(** ** The two-language classifier of [LangLib.py] *)

Module LangLib.

(** The tables of [LangDetector.__init__]. *)

Definition russian_unique : list str :=
  set_of (map u
    ["ы"; "ъ"; "э"]).

Definition ukrainian_unique : list str :=
  set_of (map u
    ["є"; "і"; "ї"; "ґ"]).

Definition uk_frequent : list str :=
  set_of (map u
    ["і"; "є"; "ї"; "ґ"; "ь"]).

Definition ru_frequent : list str :=
  set_of (map u
    ["ы"; "ъ"; "э"]).

Definition ukrainian_endings : list str :=
  map u
    ["ою"; "ою"; "ого"; "ої"; "ий"; "ій"; "ися"; "ись"; "ться"; "ться";
     "еться"; "иться"; "ються"; "уються"; "іти"; "ати"; "ити"; "ути";
     "яти"; "емо"; "єте"; "ємо"].

Definition russian_endings : list str :=
  map u
    ["ого"; "его"; "ому"; "ему"; "ой"; "ый"; "ий"; "ться"; "тся"; "ешь";
     "ет"; "ем"; "ете"; "ут"; "ют"; "ят"; "ать"; "ить"; "оть"; "уть";
     "еть"; "ых"; "их"].

Definition ukrainian_words : list str :=
  map u
    ["це"; "або"; "чи"; "що"; "як"; "який"; "котрий"; "де"; "коли";
     "наче"; "бо"; "тому"; "хто"; "також"; "від"; "з"; "із"; "зі"; "до";
     "у"; "при"; "для"; "та"; "і"; "й"; "але"; "проте"; "однак"; "хоча";
     "щоб"; "якщо"; "коли"; "через"; "тому"; "ще"; "так"; "ні"; "не"; "є";
     "був"; "була"; "було"; "були"].

Definition russian_words : list str :=
  map u
    ["это"; "или"; "как"; "который"; "где"; "когда"; "словно"; "потому";
     "кто"; "также"; "от"; "из"; "до"; "в"; "при"; "для"; "и"; "но";
     "однако"; "хотя"; "чтобы"; "если"; "из-за"; "поэтому"; "ещё"; "да";
     "нет"; "был"; "была"; "было"; "были"].

Definition ukrainian_digrams : list str :=
  map u
    ["ть"; "нн"; "ськ"; "ий"; "ій"; "тьс"; "ьс"; "ьк"; "нн"; "дз"; "дж";
     "ґу"; "ці"; "не"; "на"; "по"; "ви"; "за"; "що"; "чи"; "ої"; "ою"].

Definition russian_digrams : list str :=
  map u
    ["ть"; "тс"; "ск"; "ый"; "ий"; "тьс"; "ться"; "тс"; "нн"; "жи"; "ши";
     "чн"; "чк"; "ни"; "не"; "на"; "по"; "вы"; "за"; "что"; "ли"; "ой";
     "ом"].

Section Classifier.

Context {U : Unicode}.

Definition _count_unique_letters (text : str) : nat * nat :=
  let ru_unique_count := count_letters russian_unique text in
  let uk_unique_count := count_letters ukrainian_unique text in
  (ru_unique_count, uk_unique_count).

Definition _count_frequent_letters (text : str) : nat * nat :=
  let ru_char_frequency := count_letters ru_frequent text in
  let uk_char_frequency := count_letters uk_frequent text in
  (ru_char_frequency, uk_char_frequency).

Definition _check_word_endings (words : list str) : nat * nat :=
  fold_left
    (fun '(ru_score, uk_score) word =>
       if length word <? 3 then (ru_score, uk_score)
       else
         let uk_score :=
           if existsb (endswith word) ukrainian_endings then uk_score + 1
           else uk_score in
         let ru_score :=
           if existsb (endswith word) russian_endings then ru_score + 1
           else ru_score in
         (ru_score, uk_score))
    words (0, 0).

Definition _check_marker_words (words : list str) : nat * nat :=
  let words_lower := map str_lower words in
  fold_left
    (fun '(ru_score, uk_score) word =>
       let uk_score := if str_in word ukrainian_words then uk_score + 1 else uk_score in
       let ru_score := if str_in word russian_words then ru_score + 1 else ru_score in
       (ru_score, uk_score))
    words_lower (0, 0).

Definition _check_digrams (text : str) : nat * nat :=
  let text_lower := str_lower text in
  let uk_score :=
    fold_left (fun uk_score digram => uk_score + str_count text_lower digram)
      ukrainian_digrams 0 in
  let ru_score :=
    fold_left (fun ru_score digram => ru_score + str_count text_lower digram)
      russian_digrams 0 in
  (ru_score, uk_score).

Definition _clean_text (text : str) : str :=
  let text := str_lower text in
  let text := sub_punctuation text in
  let text := sub_whitespace text false in
  strip text.

(** The weighted score of one language. *)
Definition score (unique freq endings markers digrams : nat) : Q :=
  (Qnat unique * 2 + Qnat freq + Qnat endings * (3 # 2) + Qnat markers * 3
   + Qnat digrams)%Q.

Definition detect_language (text : pyobj) : string :=
  if negb (truthy text) || negb (isinstance_str text) then "unknown"
  else
    let cleaned_text := _clean_text (as_str text) in
    if is_empty cleaned_text then "unknown"
    else
      let words := split cleaned_text in
      if is_empty words then "unknown"
      else
        let '(ru_unique, uk_unique) := _count_unique_letters cleaned_text in
        if (0 <? ru_unique) && (uk_unique =? 0) then "russian"
        else if (0 <? uk_unique) && (ru_unique =? 0) then "ukrainian"
        else
          let '(ru_freq, uk_freq) := _count_frequent_letters cleaned_text in
          let '(ru_endings, uk_endings) := _check_word_endings words in
          let '(ru_markers, uk_markers) := _check_marker_words words in
          let '(ru_digrams, uk_digrams) := _check_digrams cleaned_text in
          let russian := score ru_unique ru_freq ru_endings ru_markers ru_digrams in
          let ukrainian := score uk_unique uk_freq uk_endings uk_markers uk_digrams in
          if Qltb ukrainian russian then "russian"
          else if Qltb russian ukrainian then "ukrainian"
          else "unknown".

(** The ['details'] of [get_confidence]: the five metrics as pairs (Russian,
    Ukrainian) and the two scores. *)
Record Details : Type := {
  detail_unique_letters : nat * nat;
  detail_frequent_letters : nat * nat;
  detail_word_endings : nat * nat;
  detail_marker_words : nat * nat;
  detail_digrams : nat * nat;
  detail_scores : Q * Q
}.

Record Confidence : Type := {
  answer : Detection;
  details : option Details
}.

Definition unknown_confidence : Confidence :=
  {| answer := unknown_result; details := None |}.

Definition get_confidence (text : pyobj) : Confidence :=
  if negb (truthy text) || negb (isinstance_str text) then unknown_confidence
  else
    let cleaned_text := _clean_text (as_str text) in
    if is_empty cleaned_text then unknown_confidence
    else
      let words := split cleaned_text in
      if is_empty words then unknown_confidence
      else
        let '(ru_unique, uk_unique) := _count_unique_letters cleaned_text in
        let '(ru_freq, uk_freq) := _count_frequent_letters cleaned_text in
        let '(ru_endings, uk_endings) := _check_word_endings words in
        let '(ru_markers, uk_markers) := _check_marker_words words in
        let '(ru_digrams, uk_digrams) := _check_digrams cleaned_text in
        let russian := score ru_unique ru_freq ru_endings ru_markers ru_digrams in
        let ukrainian := score uk_unique uk_freq uk_endings uk_markers uk_digrams in
        let total_score := (russian + ukrainian)%Q in
        if Qeq_bool total_score 0 then unknown_confidence
        else
          let '(language, confidence) :=
            if Qltb ukrainian russian
            then ("russian", (russian / total_score)%Q)
            else ("ukrainian", (ukrainian / total_score)%Q) in
          {| answer := {| language := language; confidence := confidence |};
             details :=
               Some {| detail_unique_letters := (ru_unique, uk_unique);
                       detail_frequent_letters := (ru_freq, uk_freq);
                       detail_word_endings := (ru_endings, uk_endings);
                       detail_marker_words := (ru_markers, uk_markers);
                       detail_digrams := (ru_digrams, uk_digrams);
                       detail_scores := (russian, ukrainian) |} |}.

(** [analyze_text] returns a dictionary with the single key ['error'], or
    the dictionary of [get_confidence] with the key ['stats'] added. *)
Inductive TextAnalysis : Type :=
| TextError (error : string)
| TextReport (result : Confidence) (stats : Stats).

Definition analyze_text (text : pyobj) : TextAnalysis :=
  if negb (truthy text) || negb (isinstance_str text)
  then TextError "Empty or invalid text"
  else
    let result := get_confidence text in
    let cleaned_text := _clean_text (as_str text) in
    let words := if is_empty cleaned_text then [] else split cleaned_text in
    TextReport result
      {| text_length := length (as_str text);
         cleaned_length := length cleaned_text;
         word_count := length words;
         average_word_length :=
           if is_empty words then 0%Q
           else (Qnat (list_sum (map (@length char) words))
                 / Qnat (length words))%Q |}.

End Classifier.

End LangLib.

(** ** Vocabulary of the statements *)

(** [lang] is the only language of the map with unique letters in the
    text. *)
Definition sole_language (unique_scores : dict nat) (lang : string) : Prop :=
  (exists score, In (lang, score) unique_scores /\ 0 < score) /\
  (forall l s, In (l, s) unique_scores -> l <> lang -> s = 0).

(** [scores[k] += n] on a key that is present. *)
Definition bump (scores : dict nat) (k : string) (n : nat) : dict nat :=
  dict_set scores k (dict_get_default scores k 0 + n).

(** One pass over the profiles, adding [g lang_data] for every language. *)
Definition tally (items : dict LanguageData) (g : LanguageData -> nat)
    (scores : dict nat) : dict nat :=
  fold_left (fun scores '(lang_code, lang_data) => bump scores lang_code (g lang_data))
    items scores.

(** The number of occurrences of [sub] in [s] when overlapping occurrences
    all count: the positions [i] with [s[i:i+len(sub)] == sub]. *)
Fixpoint occurrences (sub s : str) : nat :=
  (if startswith s sub then 1 else 0)
  + match s with
    | [] => 0
    | _ :: s' => occurrences sub s'
    end.

(** [sub] occurs in [s] at position [i]. *)
Definition occurs_at (sub s : str) (i : nat) : Prop :=
  startswith (skipn i s) sub = true.

(** Positions in increasing order, from [lo] on, each at least [m] behind
    the one before: occurrences of length [m] there do not overlap. *)
Fixpoint spaced (m lo : nat) (ps : list nat) : Prop :=
  match ps with
  | [] => True
  | p :: ps' => lo <= p /\ spaced m (p + m) ps'
  end.

Definition disjoint_occurrences (sub s : str) (lo : nat) (ps : list nat) : Prop :=
  spaced (length sub) lo ps /\ Forall (occurs_at sub s) ps.

(** [n] is the largest number of pairwise non-overlapping occurrences of
    [sub] in [s]. *)
Definition nonoverlapping_count (sub s : str) (n : nat) : Prop :=
  (exists ps, disjoint_occurrences sub s 0 ps /\ length ps = n)
  /\ (forall ps, disjoint_occurrences sub s 0 ps -> length ps <= n).

(** [sep.join(words)]. *)
Fixpoint join (sep : str) (words : list str) : str :=
  match words with
  | [] => []
  | w :: ws =>
      match ws with
      | [] => w
      | _ :: _ => w ++ sep ++ join sep ws
      end
  end.

Section Vocabulary.

Context {U : Unicode}.

(** The state invariant of a detector: [language_data] is a dictionary (its
    keys are distinct) and every profile belongs to an active language. *)
Definition wf_detector (self : LangDetector) : Prop :=
  NoDup (dict_keys (language_data self))
  /\ incl (dict_keys (language_data self)) (languages self).

(** The patterns [_check_ngrams] scans for a given [n]. *)
Definition ngram_patterns (n : nat) (lang_data : LanguageData) : list str :=
  if n =? 2 then digrams lang_data
  else if n =? 3 then trigrams lang_data
  else [].

Definition ngram_hits (text : str) (n : nat) (lang_data : LanguageData) : nat :=
  list_sum (map (str_count (str_lower text)) (ngram_patterns n lang_data)).

Definition ending_hit (word : str) (lang_data : LanguageData) : nat :=
  if existsb (endswith word) (word_endings lang_data) then 1 else 0.

Definition marker_hit (word : str) (lang_data : LanguageData) : nat :=
  if str_in word (marker_words lang_data) then 1 else 0.

Definition initial_scores (self : LangDetector) : dict nat :=
  dict_from_keys (languages self) 0.

Definition word_endings_step (self : LangDetector) (scores : dict nat)
    (word : str) : dict nat :=
  if length word <? 3 then scores
  else tally (language_data self) (ending_hit word) scores.

(** The six extractors, as both entry points call them. *)
Definition all_metrics (self : LangDetector) (cleaned_text : str)
    (words : list str) : exc Metrics :=
  let unique_letters := _count_unique_letters self cleaned_text in
  let frequent_letters := _count_frequent_letters self cleaned_text in
  word_endings <- _check_word_endings self words ;;
  marker_words <- _check_marker_words self words ;;
  digrams <- _check_ngrams self cleaned_text 2 ;;
  trigrams <- _check_ngrams self cleaned_text 3 ;;
  Ok {| metric_unique_letters := unique_letters;
        metric_frequent_letters := frequent_letters;
        metric_word_endings := word_endings;
        metric_marker_words := marker_words;
        metric_digrams := digrams;
        metric_trigrams := trigrams |}.

Definition metric_scores (self : LangDetector) (m : Metrics) : dict Q :=
  _calculate_weighted_scores self (metric_unique_letters m)
    (metric_frequent_letters m) (metric_word_endings m) (metric_marker_words m)
    (metric_digrams m) (metric_trigrams m).

(** From the scores to the answer: zero total, best language, threshold. *)
Definition outcome (min_confidence : Q) (scores : dict Q) : exc Detection :=
  let total_score := Qsum (dict_values scores) in
  if Qeq_bool total_score 0 then Ok unknown_result
  else
    best_lang <- py_max scores ;;
    let language := fst best_lang in
    let confidence := (snd best_lang / total_score)%Q in
    if Qltb confidence min_confidence
    then Ok {| language := "unknown"; confidence := confidence |}
    else Ok {| language := language; confidence := confidence |}.

Definition stats_of (text cleaned_text : str) (words : list str) : Stats :=
  {| text_length := length text;
     cleaned_length := length cleaned_text;
     word_count := length words;
     average_word_length :=
       if is_empty words then 0%Q
       else (Qnat (list_sum (map (@length char) words)) / Qnat (length words))%Q |}.

Definition top_of (scores : dict Q) : list TopLanguage :=
  let total_score := Qsum (dict_values scores) in
  map (fun '(lang, score) =>
         {| top_language := lang;
            top_score := score;
            top_confidence :=
              if Qltb 0 total_score then (score / total_score)%Q else 0%Q |})
    (filter (fun '(lang, score) => Qltb 0 score) (firstn 3 (sorted_desc scores))).

(** The input is empty, is not a string, or leaves nothing (no character,
    no token) after normalisation. *)
Definition empty_input (text : pyobj) : Prop :=
  truthy text = false
  \/ isinstance_str text = false
  \/ _clean_text (as_str text) = []
  \/ split (_clean_text (as_str text)) = [].

(** What the claim asks of [analyze]: a report whose language is unknown
    with confidence 0.0. *)
Definition analyze_unknown (self : LangDetector) (text : pyobj) : Prop :=
  exists report,
    analyze self text = Ok (AnalyzeReport report)
    /\ result report = unknown_result.

(** Every weight of every loaded profile is non-negative. *)
Definition weights_nonneg (self : LangDetector) : Prop :=
  forall lang_code lang_data,
    In (lang_code, lang_data) (language_data self) ->
    Forall (fun w => (0 <= w)%Q) (dict_values (weights lang_data)).

(** Orders on the entries of [top_languages]: by score, largest first. *)
Definition score_ge (a b : TopLanguage) : Prop := (top_score b <= top_score a)%Q.
Definition score_gt (a b : TopLanguage) : Prop := (top_score b < top_score a)%Q.

Definition item_ge (a b : string * Q) : Prop := (snd b <= snd a)%Q.

(** The n-gram score as the claim words it: every occurrence of every
    pattern counts, overlapping ones included. *)
Definition overlapping_ngram_hits (text : str) (n : nat) (lang_data : LanguageData)
    : nat :=
  list_sum (map (fun pattern => occurrences pattern (str_lower text))
              (ngram_patterns n lang_data)).

Definition ngrams_count_overlapping (self : LangDetector) (text : str) (n : nat)
    : Prop :=
  forall lang_code lang_data,
    In (lang_code, lang_data) (language_data self) ->
    exists scores,
      _check_ngrams self text n = Ok scores
      /\ dict_get scores lang_code = Some (overlapping_ngram_hits text n lang_data).

(** Two answers agree: the same language and equal confidences. *)
Definition same_answer (a b : Detection) : Prop :=
  language a = language b /\ (confidence a == confidence b)%Q.

(** The hit of a word in [_check_word_endings]: short words are skipped. *)
Definition long_ending_hit (lang_data : LanguageData) (word : str) : nat :=
  if length word <? 3 then 0 else ending_hit word lang_data.

(** The answer of [LangLib.get_confidence] from the two scores. *)
Definition two_language_answer (russian ukrainian : Q) : Detection :=
  if Qeq_bool (russian + ukrainian) 0 then unknown_result
  else if Qltb ukrainian russian
       then {| language := "russian";
               confidence := (russian / (russian + ukrainian))%Q |}
       else {| language := "ukrainian";
               confidence := (ukrainian / (russian + ukrainian))%Q |}.

(** The score [LangLib] gives a language with profile [p], frequent letters
    apart. *)
Definition langlib_score (p : LanguageData) (freq : nat) (cleaned_text : str)
    (words : list str) : Q :=
  LangLib.score
    (count_letters (unique_letters p) cleaned_text)
    freq
    (list_sum (map (long_ending_hit p) words))
    (list_sum (map (fun word => marker_hit word p) (map str_lower words)))
    (ngram_hits cleaned_text 2 p).

(** The score the default detector gives a language with profile [p] and
    the default weights. *)
Definition default_score (p : LanguageData) (cleaned_text : str)
    (words : list str) : Q :=
  (Qnat (count_letters (unique_letters p) cleaned_text) * 2
   + Qnat (count_letters (frequent_letters p) cleaned_text) * 1
   + Qnat (list_sum (map (long_ending_hit p) words)) * (3 # 2)
   + Qnat (list_sum (map (fun word => marker_hit word p) (map str_lower words))) * 3
   + Qnat (ngram_hits cleaned_text 2 p) * 1
   + Qnat (ngram_hits cleaned_text 3 p) * (6 # 5))%Q.

(** *** Statements about floats *)

(** [x <= y]. *)
Definition fle (x y : float) : bool := flt x y || feq x y.

Definition is_nan (x : float) : bool :=
  match x with
  | NaN => true
  | _ => false
  end.

(** A float that is not negative: a finite value from 0 on, or the positive
    infinity; nan is not. *)
Definition float_nonneg (x : float) : Prop := fle (Finite 0) x = true.

(** A number within the range of doubles: its float is finite. *)
Definition in_float_range (q : Q) : Prop :=
  (- float_overflow < q < float_overflow)%Q.

Definition in_unit_interval (c : float) : Prop :=
  fle (Finite 0) c = true /\ fle c (Finite 1) = true.

(** Every weight of every loaded profile is a finite float. *)
Definition weights_finite (self : LangDetector) : Prop :=
  forall lang_code lang_data,
    In (lang_code, lang_data) (language_data self) ->
    Forall in_float_range (dict_values (weights lang_data)).

(** The float score of one language from the six metrics. *)
Definition float_score (m : Metrics) (lang_code : string) (lang_data : LanguageData)
    : float :=
  fadd
    (fadd
       (fadd
          (fadd
             (fadd
                (PyFloat.weighted (metric_unique_letters m) lang_code lang_data
                   "unique_letters" 2)
                (PyFloat.weighted (metric_frequent_letters m) lang_code lang_data
                   "frequent_letters" 1))
             (PyFloat.weighted (metric_word_endings m) lang_code lang_data
                "word_endings" (3 # 2)))
          (PyFloat.weighted (metric_marker_words m) lang_code lang_data
             "marker_words" 3))
       (PyFloat.weighted (metric_digrams m) lang_code lang_data "digrams" 1))
    (PyFloat.weighted (metric_trigrams m) lang_code lang_data "trigrams" (6 # 5)).

Definition float_scores (self : LangDetector) (m : Metrics) : dict float :=
  PyFloat._calculate_weighted_scores self (metric_unique_letters m)
    (metric_frequent_letters m) (metric_word_endings m) (metric_marker_words m)
    (metric_digrams m) (metric_trigrams m).

(** From the float scores to the answer: zero total, best language,
    threshold. *)
Definition float_outcome (min_confidence : Q) (scores : dict float)
    : exc PyFloat.Detection :=
  let total_score := fsum (dict_values scores) in
  if feq total_score (Finite 0) then Ok PyFloat.unknown_result
  else
    best_lang <- PyFloat.py_max scores ;;
    confidence <- fdiv (snd best_lang) total_score ;;
    if flt confidence (float_of_Q min_confidence)
    then Ok {| PyFloat.language := "unknown"; PyFloat.confidence := confidence |}
    else Ok {| PyFloat.language := fst best_lang;
               PyFloat.confidence := confidence |}.

Definition float_top_of (scores : dict float) : exc (list PyFloat.TopLanguage) :=
  let total_score := fsum (dict_values scores) in
  PyFloat.map_exc
    (fun '(lang, score) =>
       confidence <-
         (if flt (Finite 0) total_score then fdiv score total_score
          else Ok (Finite 0)) ;;
       Ok {| PyFloat.top_language := lang;
             PyFloat.top_score := score;
             PyFloat.top_confidence := confidence |})
    (filter (fun '(lang, score) => flt (Finite 0) score)
       (firstn 3 (PyFloat.sorted_desc scores))).

(** Orders on the entries of [top_languages] and on the items of the score
    map: by score, largest first. *)
Definition float_score_ge (a b : PyFloat.TopLanguage) : Prop :=
  fle (PyFloat.top_score b) (PyFloat.top_score a) = true.

Definition float_score_gt (a b : PyFloat.TopLanguage) : Prop :=
  flt (PyFloat.top_score b) (PyFloat.top_score a) = true.

Definition float_item_ge (a b : string * float) : Prop :=
  fle (snd b) (snd a) = true.

(** The exact score of one language from the six metrics. *)
Definition exact_score (m : Metrics) (lang_code : string) (lang_data : LanguageData)
    : Q :=
  (weighted (metric_unique_letters m) lang_code lang_data "unique_letters" 2
   + weighted (metric_frequent_letters m) lang_code lang_data "frequent_letters" 1
   + weighted (metric_word_endings m) lang_code lang_data "word_endings" (3 # 2)
   + weighted (metric_marker_words m) lang_code lang_data "marker_words" 3
   + weighted (metric_digrams m) lang_code lang_data "digrams" 1
   + weighted (metric_trigrams m) lang_code lang_data "trigrams" (6 # 5))%Q.

(** An exact score as a float score. *)
Definition float_item (item : string * Q) : string * float :=
  (fst item, Finite (snd item)).

(** An answer in exact arithmetic as an answer in floats. *)
Definition float_detection (r : Detection) : PyFloat.Detection :=
  {| PyFloat.language := language r; PyFloat.confidence := Finite (confidence r) |}.

(** The string does not begin, or does not end, with white space. *)
Definition first_nonspace (s : str) : Prop :=
  match s with
  | [] => True
  | c :: _ => isspace c = false
  end.

Definition last_nonspace (s : str) : Prop := first_nonspace (rev s).

(** No white space follows white space. *)
Fixpoint single_spaced (s : str) : Prop :=
  match s with
  | [] => True
  | c :: s' => (isspace c = true -> first_nonspace s') /\ single_spaced s'
  end.

End Vocabulary.

(** ** A Unicode table for the Latin and Cyrillic blocks

    The instance follows the Unicode database on Basic Latin, Latin-1 and
    Cyrillic (U+0400 to U+052F) and on the white space of every block; other
    code points are taken as caseless symbols.  It is used to run the
    detector on concrete texts of these blocks. *)

Definition in_range (lo hi c : N) : bool := ((lo <=? c) && (c <=? hi))%N.

Definition latin_cyrillic_isspace (c : char) : bool :=
  in_range 9 13 c || in_range 28 32 c || N.eqb c 133 || N.eqb c 160
  || N.eqb c 5760 || in_range 8192 8202 c || in_range 8232 8233 c
  || N.eqb c 8239 || N.eqb c 8287 || N.eqb c 12288.

Definition latin_cyrillic_isalnum (c : char) : bool :=
  in_range 48 57 c || in_range 65 90 c || in_range 97 122 c
  || N.eqb c 170 || in_range 178 179 c || N.eqb c 181 || in_range 185 186 c
  || in_range 188 190 c || in_range 192 214 c || in_range 216 246 c
  || in_range 248 255 c
  || in_range 1024 1153 c || in_range 1162 1327 c.

Definition latin_cyrillic_lower_char (c : char) : char :=
  if in_range 65 90 c then (c + 32)%N
  else if in_range 192 214 c || in_range 216 222 c then (c + 32)%N
  else if in_range 1024 1039 c then (c + 80)%N
  else if in_range 1040 1071 c then (c + 32)%N
  else if in_range 1120 1153 c || in_range 1162 1215 c || in_range 1232 1327 c
       then (if N.even c then (c + 1)%N else c)
  else if N.eqb c 1216 then 1231%N
  else if in_range 1217 1230 c then (if N.odd c then (c + 1)%N else c)
  else c.

#[export] Instance latin_cyrillic : Unicode := {
  str_lower := map latin_cyrillic_lower_char;
  isspace := latin_cyrillic_isspace;
  isalnum := latin_cyrillic_isalnum;
  str_lower_nil := eq_refl
}.

(** A file system without any profile file: every profile comes from the
    built-in table. *)
Definition no_files : FileSystem := fun _ => NoFile.

(** [LangDetector()]. *)
Definition default_detector : LangDetector :=
  LangDetector_init no_files None None (6 # 10)%Q.

(** [LangDetector(languages=['ukrainian', 'russian'])]: the default profiles
    in the other order. *)
Definition swapped_detector : LangDetector :=
  LangDetector_init no_files (Some ["ukrainian"; "russian"]) None (6 # 10)%Q.

(** [LangDetector(languages=['russian', 'german'])]: no profile file and no
    built-in profile exists for the second language. *)
Definition german_detector : LangDetector :=
  LangDetector_init no_files (Some ["russian"; "german"]) None (6 # 10)%Q.

(** The two built-in profiles as [LanguageData] objects. *)
Definition russian_profile : LanguageData := LanguageData_init "russian" russian_data.
Definition ukrainian_profile : LanguageData :=
  LanguageData_init "ukrainian" ukrainian_data.

(** The default detector after [detector.languages.remove('ukrainian')]: the
    public list edited by hand, the profile left in [language_data]. *)
Definition orphan_detector : LangDetector :=
  {| languages := ["russian"];
     data_dir := data_dir default_detector;
     min_confidence := min_confidence default_detector;
     language_data := language_data default_detector |}.

(** A directory with one readable text file, [note.txt], holding "это". *)
Definition one_file : TextFiles :=
  fun path =>
    if String.eqb path "note.txt" then ReadText (u "это")
    else ReadFailure "No such file or directory".

(** [LangDetector(languages=['x'])] after
    [add_language('x', {'digrams': ['ab'], 'weights': {'digrams': 1e308}})]:
    one language whose digram weight is close to the largest double. *)
Definition overflow_detector : LangDetector :=
  add_language (LangDetector_init no_files (Some ["x"]) None (6 # 10)%Q) "x"
    {| pd_unique_letters := None;
       pd_frequent_letters := None;
       pd_word_endings := None;
       pd_marker_words := None;
       pd_digrams := Some [u "ab"];
       pd_trigrams := None;
       pd_alphabet := None;
       pd_weights := Some [("digrams", inject_Z (10 ^ 308))] |}.

(** Two detectors built by [LangDetector()], one after the other, on the
    initial heap. *)
Definition first_default : Shared.LangDetector :=
  Shared.LangDetector_init no_files initial_heap None None (6 # 10)%Q.

Definition second_default : Shared.LangDetector :=
  Shared.LangDetector_init no_files initial_heap None None (6 # 10)%Q.

(** * Properties *)

(** ** Dictionaries *)

Section DictFacts.

Context {V : Type}.
Implicit Types (d : dict V) (k : string) (v : V).

Lemma dict_get_set_same d k v : dict_get (dict_set d k v) k = Some v.
Proof.
  induction d as [|[k' v'] d IH]; simpl.
  - now rewrite String.eqb_refl.
  - destruct (String.eqb k' k) eqn:E; simpl; rewrite E; auto.
Qed.

Lemma dict_get_set_other d k k' v :
  k <> k' -> dict_get (dict_set d k v) k' = dict_get d k'.
Proof.
  intros Hne. induction d as [|[k0 v0] d IH]; simpl.
  - destruct (String.eqb k k') eqn:E; auto.
    apply String.eqb_eq in E. contradiction.
  - destruct (String.eqb k0 k) eqn:E; simpl.
    + apply String.eqb_eq in E. subst k0.
      destruct (String.eqb k k') eqn:E'; auto.
      apply String.eqb_eq in E'. contradiction.
    + now rewrite IH.
Qed.

Lemma dict_get_In d k v : dict_get d k = Some v -> In (k, v) d.
Proof.
  induction d as [|[k' v'] d IH]; simpl; [discriminate|].
  destruct (String.eqb k' k) eqn:E.
  - apply String.eqb_eq in E. intros [= ->]. left. now subst.
  - auto.
Qed.

Lemma dict_mem_keys d k : dict_get d k <> None <-> In k (dict_keys d).
Proof.
  induction d as [|[k' v'] d IH]; simpl.
  - split; [congruence | tauto].
  - destruct (String.eqb k' k) eqn:E.
    + apply String.eqb_eq in E. split; [auto | congruence].
    + apply String.eqb_neq in E. rewrite IH. split; [auto | intros [?|?]; congruence || auto].
Qed.

Lemma dict_get_none_keys d k : dict_get d k = None <-> ~ In k (dict_keys d).
Proof.
  rewrite <- dict_mem_keys. destruct (dict_get d k).
  - split; [discriminate | intros H; exfalso; apply H; discriminate].
  - split; [intros _ H; now apply H | reflexivity].
Qed.

Lemma In_dict_get d k v :
  NoDup (dict_keys d) -> In (k, v) d -> dict_get d k = Some v.
Proof.
  induction d as [|[k' v'] d IH]; simpl; [tauto|].
  intros Hnd [Heq|Hin]; inversion Hnd as [|? ? Hnotin Hnd']; subst.
  - injection Heq as -> ->. now rewrite String.eqb_refl.
  - destruct (String.eqb k' k) eqn:E; auto.
    apply String.eqb_eq in E. subst k'. exfalso. apply Hnotin.
    change k with (fst (k, v)). now apply in_map.
Qed.

(** A new key goes last. *)
Lemma dict_set_fresh d k v :
  ~ In k (dict_keys d) -> dict_set d k v = d ++ [(k, v)].
Proof.
  induction d as [|[k' v'] d IH]; simpl; auto.
  intros Hnotin. destruct (String.eqb k' k) eqn:E.
  - apply String.eqb_eq in E. tauto.
  - f_equal. apply IH. tauto.
Qed.

(** An existing key keeps its place. *)
Lemma dict_keys_set_present d k v :
  In k (dict_keys d) -> dict_keys (dict_set d k v) = dict_keys d.
Proof.
  induction d as [|[k' v'] d IH]; simpl; [tauto|].
  intros Hin. destruct (String.eqb k' k) eqn:E; simpl; auto.
  f_equal. apply IH. apply String.eqb_neq in E. tauto.
Qed.

Lemma dict_keys_set d k v :
  forall k', In k' (dict_keys (dict_set d k v)) <-> k' = k \/ In k' (dict_keys d).
Proof.
  intros k'. induction d as [|[k0 v0] d IH]; simpl.
  - intuition.
  - destruct (String.eqb k0 k) eqn:E; simpl.
    + apply String.eqb_eq in E. subst. intuition.
    + rewrite IH. intuition.
Qed.

Lemma dict_set_NoDup d k v :
  NoDup (dict_keys d) -> NoDup (dict_keys (dict_set d k v)).
Proof.
  intros Hnd. destruct (in_dec string_dec k (dict_keys d)) as [Hin|Hnotin].
  - now rewrite dict_keys_set_present.
  - rewrite dict_set_fresh by assumption. unfold dict_keys.
    rewrite map_app. simpl.
    apply NoDup_app; auto.
    + constructor; [simpl; tauto | constructor].
    + intros x Hx [<-|[]]. contradiction.
Qed.

Lemma dict_values_set_Forall (P : V -> Prop) d k v :
  P v -> Forall P (dict_values d) -> Forall P (dict_values (dict_set d k v)).
Proof.
  intros Hv. induction d as [|[k0 v0] d IH]; simpl; intros Hall.
  - constructor; auto.
  - inversion Hall; subst.
    destruct (String.eqb k0 k); simpl; constructor; auto.
Qed.

End DictFacts.

(** ** The fast path *)

Lemma only_language_spec (unique_scores : dict nat) lang score :
  only_language unique_scores (lang, score) = true <->
  0 < score /\ (forall l s, In (l, s) unique_scores -> l <> lang -> s = 0).
Proof.
  unfold only_language. rewrite andb_true_iff, Nat.ltb_lt, forallb_forall.
  split; intros [Hpos Hall]; split; auto.
  - intros l s Hin Hne. specialize (Hall (l, s) Hin). simpl in Hall.
    destruct (String.eqb l lang) eqn:E.
    + apply String.eqb_eq in E. contradiction.
    + now apply Nat.eqb_eq.
  - intros [l s] Hin. destruct (String.eqb l lang) eqn:E; auto.
    apply String.eqb_neq in E. apply Nat.eqb_eq. eauto.
Qed.

Lemma sole_language_unique (unique_scores : dict nat) l1 l2 :
  sole_language unique_scores l1 -> sole_language unique_scores l2 -> l1 = l2.
Proof.
  intros [[s1 [Hin1 Hpos1]] _] [_ Hzero2].
  destruct (string_dec l1 l2) as [|Hne]; auto.
  specialize (Hzero2 l1 s1 Hin1 Hne). lia.
Qed.

Lemma fast_path_sole (unique_scores : dict nat) lang :
  fast_path unique_scores = Some lang <-> sole_language unique_scores lang.
Proof.
  unfold fast_path. split.
  - destruct (find _ _) as [[l s]|] eqn:Hfind; simpl; [|discriminate].
    intros [= <-]. apply find_some in Hfind. destruct Hfind as [Hin Honly].
    apply only_language_spec in Honly. destruct Honly. split; eauto.
  - intros Hsole. destruct (find _ _) as [[l s]|] eqn:Hfind; simpl.
    + f_equal. apply find_some in Hfind. destruct Hfind as [Hin Honly].
      apply only_language_spec in Honly. destruct Honly.
      apply (sole_language_unique unique_scores); auto. split; eauto.
    + destruct Hsole as [[s [Hin Hpos]] Hzero].
      pose proof (find_none _ _ Hfind _ Hin) as Hnone.
      assert (only_language unique_scores (lang, s) = true) as Hyes
        by (apply only_language_spec; auto).
      congruence.
Qed.

Lemma sole_language_perm (m m' : dict nat) lang :
  Permutation m m' -> sole_language m lang -> sole_language m' lang.
Proof.
  intros Hperm [[s [Hin Hpos]] Hzero]. split.
  - exists s. split; auto. now apply (Permutation_in _ Hperm).
  - intros l s' Hin'. apply Hzero.
    now apply (Permutation_in _ (Permutation_sym Hperm)).
Qed.

Lemma fast_path_perm (m m' : dict nat) :
  Permutation m m' -> fast_path m = fast_path m'.
Proof.
  intros Hperm.
  destruct (fast_path m) as [l|] eqn:E; destruct (fast_path m') as [l'|] eqn:E'; auto.
  - apply fast_path_sole in E, E'. f_equal.
    apply (sole_language_unique m'); auto. now apply (sole_language_perm m).
  - apply fast_path_sole in E. apply (sole_language_perm _ _ _ Hperm) in E.
    apply fast_path_sole in E. congruence.
  - apply fast_path_sole in E'.
    apply (sole_language_perm _ _ _ (Permutation_sym Hperm)) in E'.
    apply fast_path_sole in E'. congruence.
Qed.

(** ** The letter counters *)

(** A loop of assignments [scores[k] = g k a] over a dictionary writes one
    item per key, in the order of the dictionary. *)
Lemma fold_dict_set_map {A V} (g : string -> A -> V) (l : dict A) (acc : dict V) :
  NoDup (dict_keys acc ++ dict_keys l) ->
  fold_left (fun scores '(k, a) => dict_set scores k (g k a)) l acc
  = acc ++ map (fun '(k, a) => (k, g k a)) l.
Proof.
  revert acc. induction l as [|[k a] l IH]; intros acc Hnd; simpl.
  - now rewrite app_nil_r.
  - simpl in Hnd. rewrite dict_set_fresh.
    + rewrite IH.
      * now rewrite <- app_assoc.
      * unfold dict_keys in *. rewrite map_app, <- app_assoc. exact Hnd.
    + apply NoDup_remove_2 in Hnd. intros Hin. apply Hnd.
      apply in_or_app. now left.
Qed.

Section LetterCounters.

Context {U : Unicode}.

Lemma count_unique_letters_items self text :
  NoDup (dict_keys (language_data self)) ->
  _count_unique_letters self text
  = map (fun '(lang_code, lang_data) =>
           (lang_code, count_letters (unique_letters lang_data) text))
      (language_data self).
Proof.
  intros Hnd. unfold _count_unique_letters.
  now rewrite (fold_dict_set_map
                 (fun _ lang_data => count_letters (unique_letters lang_data) text)).
Qed.

Lemma count_frequent_letters_items self text :
  NoDup (dict_keys (language_data self)) ->
  _count_frequent_letters self text
  = map (fun '(lang_code, lang_data) =>
           (lang_code, count_letters (frequent_letters lang_data) text))
      (language_data self).
Proof.
  intros Hnd. unfold _count_frequent_letters.
  now rewrite (fold_dict_set_map
                 (fun _ lang_data => count_letters (frequent_letters lang_data) text)).
Qed.

Lemma clean_text_nil : _clean_text [] = [].
Proof. unfold _clean_text. now rewrite str_lower_nil. Qed.

End LetterCounters.

(** ** Counting loops

    The extractors that start from [{lang: 0 for lang in self.languages}]
    only ever execute [scores[lang_code] += n]; as long as every profile
    belongs to an active language no [KeyError] is raised and the loops are
    the pure tallies below. *)

Lemma dict_from_keys_acc_keys {V} (ks : list string) (v : V) (acc : dict V) k :
  In k (dict_keys (fold_left (fun d k => dict_set d k v) ks acc))
  <-> In k ks \/ In k (dict_keys acc).
Proof.
  revert acc. induction ks as [|k0 ks IH]; intros acc; simpl.
  - tauto.
  - rewrite IH, dict_keys_set. intuition.
Qed.

Lemma dict_from_keys_keys {V} (ks : list string) (v : V) k :
  In k (dict_keys (dict_from_keys ks v)) <-> In k ks.
Proof.
  unfold dict_from_keys. rewrite dict_from_keys_acc_keys. simpl. tauto.
Qed.

Lemma dict_from_keys_NoDup {V} (ks : list string) (v : V) :
  NoDup (dict_keys (dict_from_keys ks v)).
Proof.
  unfold dict_from_keys.
  assert (forall acc : dict V, NoDup (dict_keys acc) ->
            NoDup (dict_keys (fold_left (fun d k => dict_set d k v) ks acc))) as H.
  { induction ks as [|k0 ks IH]; intros acc Hnd; simpl; auto.
    apply IH. now apply dict_set_NoDup. }
  apply H. constructor.
Qed.

Lemma dict_from_keys_values {V} (P : V -> Prop) (ks : list string) (v : V) :
  P v -> Forall P (dict_values (dict_from_keys ks v)).
Proof.
  intros Hv. unfold dict_from_keys.
  assert (forall acc : dict V, Forall P (dict_values acc) ->
            Forall P (dict_values (fold_left (fun d k => dict_set d k v) ks acc))) as H.
  { induction ks as [|k0 ks IH]; intros acc Hacc; simpl; auto.
    apply IH. now apply dict_values_set_Forall. }
  apply H. constructor.
Qed.

Lemma dict_from_keys_get {V} (ks : list string) (v : V) k :
  In k ks -> dict_get (dict_from_keys ks v) k = Some v.
Proof.
  intros Hin.
  destruct (dict_get (dict_from_keys ks v) k) as [v'|] eqn:E.
  - apply dict_get_In in E.
    pose proof (dict_from_keys_values (fun x => x = v) ks v eq_refl) as Hall.
    rewrite Forall_forall in Hall. f_equal. apply Hall.
    change v' with (snd (k, v')). now apply in_map.
  - apply dict_get_none_keys in E. exfalso. apply E.
    now apply dict_from_keys_keys.
Qed.

Lemma dict_incr_bump scores k n :
  In k (dict_keys scores) -> dict_incr scores k n = Ok (bump scores k n).
Proof.
  intros Hin. unfold dict_incr, bump, dict_get_default.
  destruct (dict_get scores k) eqn:E; auto.
  apply dict_get_none_keys in E. contradiction.
Qed.

Lemma dict_set_same {V} (d : dict V) k v : dict_get d k = Some v -> dict_set d k v = d.
Proof.
  induction d as [|[k' v'] d IH]; simpl; [discriminate|].
  destruct (String.eqb k' k) eqn:E.
  - now intros [= ->].
  - intros H. now rewrite IH.
Qed.

Lemma bump_zero scores k : In k (dict_keys scores) -> bump scores k 0 = scores.
Proof.
  intros Hin. unfold bump, dict_get_default.
  destruct (dict_get scores k) eqn:E.
  - rewrite Nat.add_0_r. now apply dict_set_same.
  - apply dict_get_none_keys in E. contradiction.
Qed.

Lemma bump_keys scores k n :
  In k (dict_keys scores) -> dict_keys (bump scores k n) = dict_keys scores.
Proof. intros Hin. now apply dict_keys_set_present. Qed.

Lemma dict_set_set {V} (d : dict V) k v v' :
  dict_set (dict_set d k v) k v' = dict_set d k v'.
Proof.
  induction d as [|[k0 v0] d IH]; simpl.
  - now rewrite String.eqb_refl.
  - destruct (String.eqb k0 k) eqn:E; simpl; rewrite E; auto.
    now rewrite IH.
Qed.

Lemma bump_bump scores k n m :
  bump (bump scores k n) k m = bump scores k (n + m).
Proof.
  unfold bump, dict_get_default.
  rewrite dict_get_set_same, dict_set_set. f_equal. lia.
Qed.

Lemma bump_get_same scores k n :
  dict_get (bump scores k n) k = Some (dict_get_default scores k 0 + n).
Proof. apply dict_get_set_same. Qed.

Lemma bump_get_other scores k k' n :
  k <> k' -> dict_get (bump scores k n) k' = dict_get scores k'.
Proof. apply dict_get_set_other. Qed.

(** The inner loop over the patterns of one language. *)
Lemma for_each_incr {X} (f : X -> nat) (l : list X) scores k :
  In k (dict_keys scores) ->
  for_each l (fun scores x => dict_incr scores k (f x)) scores
  = Ok (bump scores k (list_sum (map f l))).
Proof.
  intros Hin. revert scores Hin. induction l as [|x l IH]; intros scores Hin; simpl.
  - now rewrite bump_zero.
  - rewrite dict_incr_bump by assumption. simpl.
    rewrite IH by (now rewrite bump_keys).
    now rewrite bump_bump.
Qed.

Lemma tally_keys items g scores :
  incl (dict_keys items) (dict_keys scores) ->
  dict_keys (tally items g scores) = dict_keys scores.
Proof.
  unfold tally. revert scores.
  induction items as [|[k ld] items IH]; intros scores Hincl; simpl; auto.
  assert (In k (dict_keys scores)) as Hk by (apply Hincl; now left).
  rewrite IH; rewrite bump_keys; auto.
  intros x Hx. apply Hincl. now right.
Qed.

(** A loop over the profiles whose body is a tally step. *)
Lemma for_each_tally (body : dict nat -> string * LanguageData -> exc (dict nat))
    (g : LanguageData -> nat) items scores :
  (forall scores k ld, In k (dict_keys scores) ->
     body scores (k, ld) = Ok (bump scores k (g ld))) ->
  incl (dict_keys items) (dict_keys scores) ->
  for_each items body scores = Ok (tally items g scores).
Proof.
  intros Hbody. unfold tally. revert scores.
  induction items as [|[k ld] items IH]; intros scores Hincl; simpl; auto.
  assert (In k (dict_keys scores)) as Hk by (apply Hincl; now left).
  rewrite Hbody by assumption. simpl. apply IH.
  rewrite bump_keys by assumption. intros x Hx. apply Hincl. now right.
Qed.

Lemma tally_get_absent items g scores k :
  ~ In k (dict_keys items) ->
  dict_get (tally items g scores) k = dict_get scores k.
Proof.
  unfold tally. revert scores.
  induction items as [|[k' ld] items IH]; intros scores Hnotin; simpl; auto.
  simpl in Hnotin. rewrite IH by tauto.
  apply bump_get_other. tauto.
Qed.

Lemma tally_get items g scores k ld :
  NoDup (dict_keys items) -> In (k, ld) items ->
  dict_get (tally items g scores) k = Some (dict_get_default scores k 0 + g ld).
Proof.
  unfold tally. revert scores.
  induction items as [|[k' ld'] items IH]; intros scores Hnd Hin; simpl; [destruct Hin|].
  inversion Hnd as [|? ? Hnotin Hnd']; subst.
  destruct Hin as [[= -> ->]|Hin].
  - fold (tally items g (bump scores k (g ld))).
    rewrite tally_get_absent by assumption. apply bump_get_same.
  - rewrite IH by assumption. f_equal. f_equal.
    unfold dict_get_default. rewrite bump_get_other; auto.
    intros ->. apply Hnotin. change k with (fst (k, ld)). now apply in_map.
Qed.

(** A loop whose body is a pure step as long as the key list is [keys]. *)
Lemma for_each_pure {X} (body : dict nat -> X -> exc (dict nat))
    (step : dict nat -> X -> dict nat) (keys : list string) l scores :
  (forall scores x, dict_keys scores = keys ->
     body scores x = Ok (step scores x) /\ dict_keys (step scores x) = keys) ->
  dict_keys scores = keys ->
  for_each l body scores = Ok (fold_left step l scores)
  /\ dict_keys (fold_left step l scores) = keys.
Proof.
  intros Hbody. revert scores.
  induction l as [|x l IH]; intros scores Hkeys; simpl; auto.
  destruct (Hbody scores x Hkeys) as [-> Hkeys']. simpl. now apply IH.
Qed.

Section Extractors.

Context {U : Unicode}.

Lemma initial_scores_incl self :
  incl (dict_keys (language_data self)) (languages self) ->
  incl (dict_keys (language_data self)) (dict_keys (initial_scores self)).
Proof.
  intros Hincl k Hk. apply dict_from_keys_keys. now apply Hincl.
Qed.

Lemma check_ngrams_tally self text n :
  incl (dict_keys (language_data self)) (languages self) ->
  _check_ngrams self text n
  = Ok (tally (language_data self) (ngram_hits text n) (initial_scores self)).
Proof.
  intros Hincl. unfold _check_ngrams.
  apply for_each_tally; [|now apply initial_scores_incl].
  intros scores k ld Hk. unfold ngram_hits, ngram_patterns.
  destruct (n =? 2).
  - now apply for_each_incr.
  - destruct (n =? 3).
    + now apply for_each_incr.
    + simpl. now rewrite bump_zero.
Qed.

Lemma check_word_endings_tally self words :
  incl (dict_keys (language_data self)) (languages self) ->
  _check_word_endings self words
  = Ok (fold_left (word_endings_step self) words (initial_scores self))
  /\ dict_keys (fold_left (word_endings_step self) words (initial_scores self))
     = dict_keys (initial_scores self).
Proof.
  intros Hincl. unfold _check_word_endings.
  apply for_each_pure; auto.
  intros scores word Hkeys. unfold word_endings_step.
  assert (incl (dict_keys (language_data self)) (dict_keys scores)) as Hin
    by (rewrite Hkeys; now apply initial_scores_incl).
  destruct (length word <? 3); auto.
  split.
  - apply for_each_tally; auto.
    intros sc k ld Hk. unfold ending_hit.
    destruct (existsb _ _).
    + now apply dict_incr_bump.
    + now rewrite bump_zero.
  - now rewrite tally_keys.
Qed.

Lemma check_marker_words_tally self words :
  incl (dict_keys (language_data self)) (languages self) ->
  _check_marker_words self words
  = Ok (fold_left (fun scores word => tally (language_data self) (marker_hit word) scores)
          (map str_lower words) (initial_scores self))
  /\ dict_keys
       (fold_left (fun scores word => tally (language_data self) (marker_hit word) scores)
          (map str_lower words) (initial_scores self))
     = dict_keys (initial_scores self).
Proof.
  intros Hincl. unfold _check_marker_words.
  apply for_each_pure; auto.
  intros scores word Hkeys.
  assert (incl (dict_keys (language_data self)) (dict_keys scores)) as Hin
    by (rewrite Hkeys; now apply initial_scores_incl).
  split.
  - apply for_each_tally; auto.
    intros sc k ld Hk. unfold marker_hit.
    destruct (str_in _ _).
    + now apply dict_incr_bump.
    + now rewrite bump_zero.
  - now rewrite tally_keys.
Qed.

End Extractors.

(** ** Normalisation *)

Section Normalisation.

Context {U : Unicode}.

Lemma lstrip_head s c r : lstrip s = c :: r -> isspace c = false.
Proof.
  induction s as [|d s IH]; simpl; [discriminate|].
  destruct (isspace d) eqn:E; auto.
  now intros [= <- <-].
Qed.

Lemma split_go_nonempty s cur :
  cur <> [] \/ (exists c, In c s /\ isspace c = false) -> split_go s cur <> [].
Proof.
  revert cur. induction s as [|d s IH]; intros cur H; simpl.
  - destruct H as [H|[c [[] _]]]. destruct cur; [congruence | simpl; discriminate].
  - destruct (isspace d) eqn:E.
    + destruct cur as [|x cur]; simpl; [|discriminate].
      apply IH. right. destruct H as [H|[c [[->|Hin] Hc]]]; [congruence|congruence|eauto].
    + apply IH. left. discriminate.
Qed.

(** A stripped string that is not empty holds a word. *)
Lemma strip_split_nonempty s : strip s <> [] -> split (strip s) <> [].
Proof.
  unfold strip, split. intros Hne.
  destruct (lstrip (rev (lstrip s))) as [|c r] eqn:E; [now contradiction Hne|].
  apply split_go_nonempty. right. exists c. split.
  - simpl. apply in_or_app. right. now left.
  - eapply lstrip_head. exact E.
Qed.

Lemma clean_text_split_nonempty text :
  _clean_text text <> [] -> split (_clean_text text) <> [].
Proof. unfold _clean_text. apply strip_split_nonempty. Qed.

End Normalisation.

(** ** Rational arithmetic *)

Lemma Qltb_lt a b : Qltb a b = true <-> (a < b)%Q.
Proof.
  unfold Qltb. rewrite negb_true_iff. split.
  - intros H. apply Qnot_le_lt. intros Hle.
    apply Qle_bool_iff in Hle. congruence.
  - intros H. destruct (Qle_bool b a) eqn:E; auto.
    apply Qle_bool_iff in E. exfalso. now apply (Qlt_not_le a b).
Qed.

Lemma Qltb_ge a b : Qltb a b = false <-> (b <= a)%Q.
Proof.
  unfold Qltb. rewrite negb_false_iff. apply Qle_bool_iff.
Qed.

Lemma fold_Qplus_acc l acc :
  (fold_left Qplus l acc == acc + fold_right Qplus 0 l)%Q.
Proof.
  revert acc. induction l as [|x l IH]; intros acc; simpl.
  - ring.
  - rewrite IH. ring.
Qed.

Lemma Qsum_cons x l : (Qsum (x :: l) == x + Qsum l)%Q.
Proof.
  unfold Qsum. simpl. rewrite (fold_Qplus_acc l (0 + x)), (fold_Qplus_acc l 0). ring.
Qed.

Lemma Qsum_nonneg l : Forall (fun x => (0 <= x)%Q) l -> (0 <= Qsum l)%Q.
Proof.
  induction 1 as [|x l Hx Hl IH].
  - unfold Qsum. simpl. apply Qle_refl.
  - rewrite Qsum_cons. lra.
Qed.

Lemma Qsum_ge_member l x :
  Forall (fun y => (0 <= y)%Q) l -> In x l -> (x <= Qsum l)%Q.
Proof.
  induction 1 as [|y l Hy Hl IH]; intros Hin; [destruct Hin|].
  rewrite Qsum_cons. pose proof (Qsum_nonneg l Hl).
  destruct Hin as [->|Hin]; [lra|]. specialize (IH Hin). lra.
Qed.


Lemma Qplus_nonneg_compat a b : (0 <= a)%Q -> (0 <= b)%Q -> (0 <= a + b)%Q.
Proof. intros. lra. Qed.

Lemma Qnat_nonneg n : (0 <= Qnat n)%Q.
Proof.
  unfold Qnat. change 0%Q with (inject_Z 0). rewrite <- Zle_Qle. lia.
Qed.

(** ** The largest score *)

Lemma max_from_In best items : In (max_from best items) (best :: items).
Proof.
  revert best. induction items as [|x items IH]; intros best; simpl.
  - now left.
  - destruct (Qltb (snd best) (snd x)).
    + right. apply IH.
    + destruct (IH best) as [H|H]; [left | right; right]; auto.
Qed.


(** ** The scoring pipeline

    [detect] (after its fast path) and [analyze] spell out the same steps;
    the definitions below name them so that the two can be compared. *)

Section Scoring.

Context {U : Unicode}.

Lemma detect_tokens self text :
  split (_clean_text text) <> [] ->
  detect self (PyStr text)
  = match fast_path (_count_unique_letters self (_clean_text text)) with
    | Some lang => Ok {| language := lang; confidence := (95 # 100)%Q |}
    | None =>
        m <- all_metrics self (_clean_text text) (split (_clean_text text)) ;;
        outcome (min_confidence self) (metric_scores self m)
    end.
Proof.
  intros Hwords. unfold detect.
  destruct text as [|c text].
  { rewrite clean_text_nil in Hwords. now contradiction Hwords. }
  simpl truthy. simpl isinstance_str. simpl as_str. simpl negb. simpl orb. cbv iota.
  destruct (_clean_text (c :: text)) as [|c' cleaned] eqn:Hclean.
  { now contradiction Hwords. }
  simpl is_empty. cbv iota.
  destruct (split (c' :: cleaned)) as [|w ws] eqn:Hsplit; [congruence|].
  simpl is_empty. cbv iota.
  destruct (fast_path _); auto.
  unfold all_metrics.
  destruct (_check_word_endings self (w :: ws)); simpl; auto.
  destruct (_check_marker_words self (w :: ws)); simpl; auto.
  destruct (_check_ngrams self (c' :: cleaned) 2); simpl; auto.
  destruct (_check_ngrams self (c' :: cleaned) 3); simpl; auto.
Qed.

Lemma analyze_cleaned self text :
  _clean_text text <> [] ->
  analyze self (PyStr text)
  = (m <- all_metrics self (_clean_text text) (split (_clean_text text)) ;;
     result <- outcome (min_confidence self) (metric_scores self m) ;;
     Ok (AnalyzeReport
           {| result := result;
              stats := stats_of text (_clean_text text) (split (_clean_text text));
              metrics := m;
              scores := metric_scores self m;
              top_languages := top_of (metric_scores self m) |})).
Proof.
  intros Hclean. unfold analyze.
  destruct text as [|c text].
  { rewrite clean_text_nil in Hclean. now contradiction Hclean. }
  simpl truthy. simpl isinstance_str. simpl as_str. simpl negb. simpl orb. cbv iota.
  destruct (_clean_text (c :: text)) as [|c' cleaned] eqn:Hc.
  { now contradiction Hclean. }
  simpl is_empty. cbv iota.
  unfold all_metrics.
  destruct (_check_word_endings self _); simpl; auto.
  destruct (_check_marker_words self _); simpl; auto.
  destruct (_check_ngrams self (c' :: cleaned) 2); simpl; auto.
  destruct (_check_ngrams self (c' :: cleaned) 3); simpl; auto.
Qed.

(** No profile outside the active languages: no extractor raises. *)
Lemma all_metrics_ok self cleaned_text words :
  incl (dict_keys (language_data self)) (languages self) ->
  exists m, all_metrics self cleaned_text words = Ok m.
Proof.
  intros Hincl. unfold all_metrics.
  destruct (check_word_endings_tally self words Hincl) as [-> _].
  destruct (check_marker_words_tally self words Hincl) as [-> _].
  rewrite !check_ngrams_tally by assumption. simpl. eauto.
Qed.

(** The scores always lead to an answer: [max] is only called when the
    total is not zero, so on a non-empty dictionary. *)
Lemma outcome_ok min_confidence scores :
  exists r, outcome min_confidence scores = Ok r.
Proof.
  unfold outcome. destruct scores as [|x scores].
  - simpl. eauto.
  - destruct (Qeq_bool _ _); [eauto|]. simpl.
    destruct (Qltb _ _); eauto.
Qed.

End Scoring.

(** ** The fast path of [detect] *)

Section FastPathOfDetect.

Context {U : Unicode}.

(** C1. When the text yields at least one token and exactly one language of
    the unique-letter map has a positive count over the cleaned text, every
    other language counting zero, [detect] returns that language with
    confidence 0.95 without running the other extractors. *)
Theorem detect_fast_path self text lang :
  split (_clean_text text) <> [] ->
  sole_language (_count_unique_letters self (_clean_text text)) lang ->
  detect self (PyStr text) = Ok {| language := lang; confidence := (95 # 100)%Q |}.
Proof.
  intros Hwords Hsole. rewrite detect_tokens by assumption.
  apply fast_path_sole in Hsole. now rewrite Hsole.
Qed.

(** C10. At most one language of a unique-letter map satisfies the condition
    of the fast path (a positive count while every other language counts
    zero); so the language found by the fast path, and with it the answer
    of [detect] on its fast path, is the same in whatever order the profile
    mapping is iterated. *)
Theorem fast_path_order_independent self self' :
  NoDup (dict_keys (language_data self)) ->
  Permutation (language_data self) (language_data self') ->
  (forall (unique_scores : dict nat) l1 l2,
      sole_language unique_scores l1 -> sole_language unique_scores l2 ->
      l1 = l2)
  /\ (forall cleaned_text,
         fast_path (_count_unique_letters self cleaned_text)
         = fast_path (_count_unique_letters self' cleaned_text))
  /\ (forall text lang,
         split (_clean_text text) <> [] ->
         fast_path (_count_unique_letters self (_clean_text text)) = Some lang ->
         detect self (PyStr text)
         = Ok {| language := lang; confidence := (95 # 100)%Q |}
         /\ detect self' (PyStr text)
            = Ok {| language := lang; confidence := (95 # 100)%Q |}).
Proof.
  intros Hnd Hperm.
  assert (forall cleaned_text,
             fast_path (_count_unique_letters self cleaned_text)
             = fast_path (_count_unique_letters self' cleaned_text)) as Hsame.
  { intros cleaned_text.
    assert (NoDup (dict_keys (language_data self'))) as Hnd'.
    { eapply Permutation_NoDup; [|exact Hnd]. now apply Permutation_map. }
    rewrite !count_unique_letters_items by assumption.
    apply fast_path_perm. now apply Permutation_map. }
  split; [exact sole_language_unique|]. split; [exact Hsame|].
  intros text lang Hwords Hfast.
  rewrite !detect_tokens by assumption.
  rewrite <- Hsame, Hfast. auto.
Qed.

End FastPathOfDetect.

(** ** Empty and invalid input *)

Section EmptyInput.

Context {U : Unicode}.

Lemma detect_empty self text : empty_input text -> detect self text = Ok unknown_result.
Proof.
  intros Hempty. unfold detect.
  destruct (negb (truthy text) || negb (isinstance_str text)) eqn:Hguard; auto.
  apply orb_false_iff in Hguard. destruct Hguard as [Ht Hs].
  apply negb_false_iff in Ht, Hs.
  destruct Hempty as [H|[H|[H|H]]]; try congruence.
  - now rewrite H.
  - destruct (is_empty (_clean_text (as_str text))); auto. now rewrite H.
Qed.

Lemma analyze_empty self text :
  empty_input text -> exists error, analyze self text = Ok (AnalyzeError error).
Proof.
  intros Hempty. unfold analyze.
  destruct (negb (truthy text) || negb (isinstance_str text)) eqn:Hguard; eauto.
  apply orb_false_iff in Hguard. destruct Hguard as [Ht Hs].
  apply negb_false_iff in Ht, Hs.
  assert (_clean_text (as_str text) = []) as Hclean.
  { destruct Hempty as [H|[H|[H|H]]]; try congruence.
    destruct (_clean_text (as_str text)) eqn:E; auto.
    exfalso. apply (clean_text_split_nonempty (as_str text)); rewrite E; [discriminate|].
    exact H. }
  rewrite Hclean. simpl. eauto.
Qed.

(** C2, as amended. On an input that is empty, is not a string, or
    normalises to the empty string or to no token, [detect], [get_language]
    and [detect_language] return the unknown language with confidence 0.0,
    and [analyze] returns a dictionary holding only an error message;
    none of them raises. *)
Theorem empty_input_no_exception (fs : FileSystem) self text languages :
  empty_input text ->
  detect self text = Ok unknown_result
  /\ get_language self text = Ok "unknown"
  /\ detect_language fs text languages = Ok unknown_result
  /\ exists error, analyze self text = Ok (AnalyzeError error).
Proof.
  intros Hempty. repeat split.
  - now apply detect_empty.
  - unfold get_language. now rewrite detect_empty.
  - unfold detect_language. now apply detect_empty.
  - now apply analyze_empty.
Qed.

End EmptyInput.

(** C2 fails for [analyze]: on the empty string it returns the error
    dictionary, which has neither a language nor a confidence. *)
Lemma analyze_empty_is_error :
  empty_input (PyStr [])
  /\ analyze default_detector (PyStr []) = Ok (AnalyzeError "Empty or invalid text")
  /\ ~ analyze_unknown default_detector (PyStr []).
Proof.
  split; [now left|]. split; [reflexivity|].
  intros [report [H _]]. discriminate H.
Qed.

Lemma empty_input_no_exception_witness :
  empty_input (PyStr (u "?! ..."))
  /\ detect default_detector (PyStr (u "?! ...")) = Ok unknown_result
  /\ exists error, analyze default_detector (PyStr (u "?! ...")) = Ok (AnalyzeError error).
Proof.
  assert (empty_input (PyStr (u "?! ..."))) as H by (right; right; left; reflexivity).
  destruct (empty_input_no_exception no_files default_detector _ None H)
    as [Hd [_ [_ Ha]]].
  repeat split; assumption.
Defined.

(** ** The threshold of the confidence *)


Lemma dict_get_default_Forall {V} (P : V -> Prop) (d : dict V) k default :
  P default -> Forall P (dict_values d) -> P (dict_get_default d k default).
Proof.
  intros Hdef Hall. unfold dict_get_default.
  destruct (dict_get d k) as [v|] eqn:E; auto.
  apply dict_get_In in E. rewrite Forall_forall in Hall. apply Hall.
  change v with (snd (k, v)). now apply in_map.
Qed.

Lemma fold_dict_set_values {A V} (P : V -> Prop) (f : string -> A -> V)
    (l : dict A) (acc : dict V) :
  (forall k a, In (k, a) l -> P (f k a)) ->
  Forall P (dict_values acc) ->
  Forall P (dict_values (fold_left (fun scores '(k, a) => dict_set scores k (f k a)) l acc)).
Proof.
  revert acc. induction l as [|[k a] l IH]; intros acc Hf Hacc; simpl; auto.
  apply IH.
  - intros k' a' Hin. apply Hf. now right.
  - apply dict_values_set_Forall; auto. apply Hf. now left.
Qed.

Section Confidence.

Context {U : Unicode}.

Lemma weighted_nonneg counts lang_code lang_data feature default :
  (0 <= default)%Q ->
  Forall (fun w => (0 <= w)%Q) (dict_values (weights lang_data)) ->
  (0 <= weighted counts lang_code lang_data feature default)%Q.
Proof.
  intros Hdef Hall. unfold weighted.
  apply Qmult_le_0_compat.
  - apply Qnat_nonneg.
  - now apply dict_get_default_Forall.
Qed.

Lemma weighted_scores_nonneg self ul fl we mw di tri :
  weights_nonneg self ->
  Forall (fun x => (0 <= x)%Q)
    (dict_values (_calculate_weighted_scores self ul fl we mw di tri)).
Proof.
  intros Hw. unfold _calculate_weighted_scores.
  apply (fold_dict_set_values (fun x => (0 <= x)%Q)
           (fun lang_code lang_data =>
              (weighted ul lang_code lang_data "unique_letters" 2
               + weighted fl lang_code lang_data "frequent_letters" 1
               + weighted we lang_code lang_data "word_endings" (3 # 2)
               + weighted mw lang_code lang_data "marker_words" 3
               + weighted di lang_code lang_data "digrams" 1
               + weighted tri lang_code lang_data "trigrams" (6 # 5))%Q)).
  - intros k ld Hin. specialize (Hw k ld Hin).
    repeat apply Qplus_nonneg_compat; apply weighted_nonneg; auto; unfold Qle; simpl; lia.
  - apply dict_from_keys_values. apply Qle_refl.
Qed.




(** C8. On a text with at least one token, every report of [analyze] holds
    the six metrics, their weighted scores and, as language and confidence,
    the outcome of these scores, whether or not the condition of the fast
    path holds; when it does not hold, [detect] returns the same language
    and confidence.  [analyze] does return a report when every profile
    belongs to an active language. *)
Theorem analyze_agrees_with_detect self text :
  split (_clean_text text) <> [] ->
  (forall report,
      analyze self (PyStr text) = Ok (AnalyzeReport report) ->
      all_metrics self (_clean_text text) (split (_clean_text text))
      = Ok (metrics report)
      /\ scores report = metric_scores self (metrics report)
      /\ outcome (min_confidence self) (scores report) = Ok (result report)
      /\ (fast_path (_count_unique_letters self (_clean_text text)) = None ->
          detect self (PyStr text) = Ok (result report)))
  /\ (wf_detector self ->
      exists report, analyze self (PyStr text) = Ok (AnalyzeReport report)).
Proof.
  intros Hwords.
  assert (_clean_text text <> []) as Hclean.
  { intros E. rewrite E in Hwords. now apply Hwords. }
  rewrite analyze_cleaned by assumption. split.
  - intros report.
    destruct (all_metrics self (_clean_text text) (split (_clean_text text)))
      as [m|e] eqn:Hm; simpl; [|discriminate].
    destruct (outcome (min_confidence self) (metric_scores self m))
      as [r|e] eqn:Hr; simpl; [|discriminate].
    intros [= <-]. simpl. repeat split; auto.
    intros Hfast. rewrite detect_tokens by assumption. rewrite Hfast, Hm. simpl.
    exact Hr.
  - intros [_ Hincl].
    destruct (all_metrics_ok self (_clean_text text) (split (_clean_text text)) Hincl)
      as [m ->].
    destruct (outcome_ok (min_confidence self) (metric_scores self m)) as [r Hr].
    simpl. rewrite Hr. simpl. eauto.
Qed.

End Confidence.

(** ** Sorted lists and the reports of [analyze] *)

Lemma In_firstn {A} n (l : list A) x : In x (firstn n l) -> In x l.
Proof.
  revert n. induction l as [|y l IH]; intros [|n]; simpl; try tauto.
  intros [->|H]; eauto.
Qed.

Lemma firstn_sorted {A} (R : A -> A -> Prop) n l :
  StronglySorted R l -> StronglySorted R (firstn n l).
Proof.
  intros H. revert n. induction H as [|x l Hsorted IH Hall]; intros [|n]; simpl;
    try constructor; auto.
  rewrite Forall_forall in *. intros y Hy. apply Hall.
  eapply In_firstn; eauto.
Qed.

Lemma filter_sorted {A} (R : A -> A -> Prop) f l :
  StronglySorted R l -> StronglySorted R (filter f l).
Proof.
  induction 1 as [|x l Hsorted IH Hall]; simpl; [constructor|].
  destruct (f x); auto. constructor; auto.
  rewrite Forall_forall in *. intros y Hy. apply Hall.
  apply filter_In in Hy. tauto.
Qed.

Section Ranking.

Context {U : Unicode}.

Lemma analyze_report_inv self text report :
  analyze self text = Ok (AnalyzeReport report) ->
  exists s, text = PyStr s /\ _clean_text s <> [].
Proof.
  unfold analyze.
  destruct (negb (truthy text) || negb (isinstance_str text)) eqn:Hguard;
    [discriminate|].
  destruct text as [s|b]; [|simpl in Hguard; rewrite orb_true_r in Hguard; discriminate].
  simpl as_str.
  destruct (_clean_text s) eqn:Hclean; [discriminate|].
  intros _. exists s. split; auto. rewrite Hclean. discriminate.
Qed.

End Ranking.

(** ** The state invariant of one detector

    Construction, [add_language] and [remove_language], as functions on the
    state of one detector, keep every profile under an active language.
    What a list shared between detectors changes comes with the heap, further
    below. *)

Lemma lang_in_In lang l : lang_in lang l = true <-> In lang l.
Proof.
  unfold lang_in. rewrite existsb_exists. split.
  - intros [x [Hin Heq]]. apply String.eqb_eq in Heq. now subst.
  - intros Hin. exists lang. split; auto. apply String.eqb_refl.
Qed.

Lemma load_language_data_wf fs langs dir (acc : dict LanguageData) all :
  NoDup (dict_keys acc) -> incl (dict_keys acc) all -> incl langs all ->
  NoDup (dict_keys (_load_language_data fs langs dir acc))
  /\ incl (dict_keys (_load_language_data fs langs dir acc)) all.
Proof.
  unfold _load_language_data. revert acc.
  induction langs as [|lang langs IH]; intros acc Hnd Hacc Hlangs; simpl; auto.
  assert (In lang all) as Hlang by (apply Hlangs; now left).
  assert (incl langs all) as Hrest by (intros x Hx; apply Hlangs; now right).
  assert (forall v, incl (dict_keys (dict_set acc lang v)) all) as Hset.
  { intros v x Hx. apply dict_keys_set in Hx. destruct Hx as [->|Hx]; auto. }
  assert (NoDup (dict_keys (load_builtin lang acc))
          /\ incl (dict_keys (load_builtin lang acc)) all) as [Hb1 Hb2].
  { unfold load_builtin. destruct (dict_get BUILTIN_LANGUAGE_DATA lang); auto.
    split; auto. now apply dict_set_NoDup. }
  destruct (fs (lang_file dir lang)); apply IH; auto.
  now apply dict_set_NoDup.
Qed.

Lemma LangDetector_init_wf fs langs dir min_conf :
  wf_detector (LangDetector_init fs langs dir min_conf).
Proof.
  unfold wf_detector, LangDetector_init. simpl.
  apply load_language_data_wf.
  - constructor.
  - intros x [].
  - apply incl_refl.
Qed.

Lemma add_language_wf self lang_code data :
  wf_detector self -> wf_detector (add_language self lang_code data).
Proof.
  intros [Hnd Hincl]. unfold wf_detector, add_language. simpl. split.
  - now apply dict_set_NoDup.
  - intros x Hx. apply dict_keys_set in Hx.
    destruct (lang_in lang_code (languages self)) eqn:E.
    + destruct Hx as [->|Hx]; auto. now apply lang_in_In.
    + apply in_or_app. destruct Hx as [->|Hx]; [right; now left | left; auto].
Qed.

Lemma dict_del_keys {V} (d : dict V) k x :
  NoDup (dict_keys d) ->
  In x (dict_keys (dict_del d k)) -> In x (dict_keys d) /\ x <> k.
Proof.
  induction d as [|[k' v'] d IH]; simpl; [tauto|].
  intros Hnd Hin. inversion Hnd as [|? ? Hnotin Hnd']; subst.
  destruct (String.eqb k' k) eqn:E.
  - apply String.eqb_eq in E. subst k'. split; auto.
    intros ->. contradiction.
  - apply String.eqb_neq in E. simpl in Hin. destruct Hin as [<-|Hin]; auto.
    destruct (IH Hnd' Hin). auto.
Qed.

Lemma dict_del_NoDup {V} (d : dict V) k :
  NoDup (dict_keys d) -> NoDup (dict_keys (dict_del d k)).
Proof.
  induction d as [|[k' v'] d IH]; simpl; auto.
  intros Hnd. inversion Hnd as [|? ? Hnotin Hnd']; subst.
  destruct (String.eqb k' k); auto. simpl. constructor; auto.
  intros Hin. apply Hnotin. now apply (dict_del_keys d k k' Hnd').
Qed.

Lemma list_remove_In l k x : In x l -> x <> k -> In x (list_remove l k).
Proof.
  induction l as [|y l IH]; simpl; auto.
  intros [->|Hin] Hne.
  - destruct (String.eqb x k) eqn:E; [|now left].
    apply String.eqb_eq in E. contradiction.
  - destruct (String.eqb y k); [auto | right; auto].
Qed.

Lemma remove_language_wf self lang_code :
  wf_detector self -> wf_detector (fst (remove_language self lang_code)).
Proof.
  intros [Hnd Hincl]. unfold remove_language.
  destruct (lang_in lang_code (languages self)); [|split; auto].
  unfold wf_detector. simpl. unfold dict_mem.
  destruct (dict_get (language_data self) lang_code) eqn:E; split.
  - now apply dict_del_NoDup.
  - intros x Hx. apply dict_del_keys in Hx; auto. destruct Hx as [Hx Hne].
    apply list_remove_In; auto.
  - assumption.
  - intros x Hx. apply list_remove_In; auto.
    intros ->. apply dict_get_none_keys in E. contradiction.
Qed.

Lemma default_detector_wf : wf_detector default_detector.
Proof. apply LangDetector_init_wf. Qed.

Lemma default_weights_nonneg :
  Forall (fun w => (0 <= w)%Q) (dict_values default_weights).
Proof. repeat constructor; unfold Qle; simpl; lia. Qed.

Lemma default_detector_weights : weights_nonneg default_detector.
Proof.
  intros lang_code lang_data [[= <- <-]|[[= <- <-]|[]]]; apply default_weights_nonneg.
Qed.

(** ** Runs on concrete texts *)

Lemma detect_fast_path_witness :
  split (_clean_text (u "это")) <> []
  /\ sole_language (_count_unique_letters default_detector (_clean_text (u "это")))
       "russian"
  /\ detect default_detector (PyStr (u "это"))
     = Ok {| language := "russian"; confidence := (95 # 100)%Q |}.
Proof.
  assert (split (_clean_text (u "это")) <> []) as H1
    by (vm_compute; discriminate).
  assert (sole_language
            (_count_unique_letters default_detector (_clean_text (u "это")))
            "russian") as H2
    by (apply fast_path_sole; vm_compute; reflexivity).
  split; [exact H1|]. split; [exact H2|].
  exact (detect_fast_path default_detector (u "это") "russian" H1 H2).
Defined.

Lemma fast_path_order_independent_witness :
  detect default_detector (PyStr (u "это"))
  = Ok {| language := "russian"; confidence := (95 # 100)%Q |}
  /\ detect swapped_detector (PyStr (u "это"))
     = Ok {| language := "russian"; confidence := (95 # 100)%Q |}.
Proof.
  refine (proj2 (proj2 (fast_path_order_independent default_detector
                          swapped_detector _ _)) (u "это") "russian" _ _).
  - exact (proj1 default_detector_wf).
  - vm_compute. apply perm_swap.
  - vm_compute. discriminate.
  - vm_compute. reflexivity.
Defined.


Lemma analyze_agrees_with_detect_witness :
  exists report,
    analyze default_detector (PyStr (u "на")) = Ok (AnalyzeReport report)
    /\ detect default_detector (PyStr (u "на")) = Ok (result report).
Proof.
  assert (split (_clean_text (u "на")) <> []) as H by (vm_compute; discriminate).
  destruct (analyze_agrees_with_detect default_detector (u "на") H)
    as [Hsame Hreturns].
  destruct (Hreturns default_detector_wf) as [report Ha].
  exists report. split; [exact Ha|].
  destruct (Hsame report Ha) as [_ [_ [_ Hd]]].
  apply Hd. vm_compute. reflexivity.
Defined.

(** ** Counting n-grams *)

Section StrCount.

Variable sub : str.
Hypothesis sub_nonempty : sub <> [].

Lemma startswith_nil_l : startswith [] sub = false.
Proof. destruct sub; [contradiction | reflexivity]. Qed.

Lemma occurs_at_nil i : ~ occurs_at sub [] i.
Proof.
  unfold occurs_at. rewrite skipn_nil, startswith_nil_l. discriminate.
Qed.

Lemma spaced_weaken lo lo' ps : lo' <= lo -> spaced (length sub) lo ps -> spaced (length sub) lo' ps.
Proof. destruct ps; simpl; auto. intros ? [? ?]. split; auto. lia. Qed.

(** Positions behind the first character, seen from the rest of the
    string. *)
Lemma spaced_pred lo ps :
  spaced (length sub) (S lo) ps -> spaced (length sub) lo (map pred ps).
Proof.
  revert lo. induction ps as [|p ps IH]; intros lo; simpl; auto.
  intros [Hlo Hrest]. split; [lia|].
  destruct p; [lia|]. simpl in *. apply IH. exact Hrest.
Qed.

Lemma occurs_at_pred c s lo ps :
  spaced (length sub) (S lo) ps ->
  Forall (occurs_at sub (c :: s)) ps -> Forall (occurs_at sub s) (map pred ps).
Proof.
  revert lo. induction ps as [|p ps IH]; intros lo; simpl; [constructor|].
  intros [Hlo Hrest] Hall. inversion Hall as [|? ? Hp Hps]; subst.
  destruct p; [lia|]. constructor; [exact Hp|].
  apply (IH (S p + length sub - 1)); auto.
  apply spaced_weaken with (S p + length sub); [lia | exact Hrest].
Qed.

Lemma disjoint_tail c s lo ps :
  disjoint_occurrences sub (c :: s) (S lo) ps ->
  disjoint_occurrences sub s lo (map pred ps).
Proof.
  intros [Hsp Hocc]. split; [now apply spaced_pred | now apply (occurs_at_pred c s lo)].
Qed.

Lemma spaced_succ lo ps :
  spaced (length sub) lo ps -> spaced (length sub) (S lo) (map S ps).
Proof.
  revert lo. induction ps as [|p ps IH]; intros lo; simpl; auto.
  intros [Hlo Hrest]. split; [lia|]. apply (IH (p + length sub)). exact Hrest.
Qed.

Lemma disjoint_cons c s lo ps :
  disjoint_occurrences sub s lo ps ->
  disjoint_occurrences sub (c :: s) (S lo) (map S ps).
Proof.
  intros [Hsp Hocc]. split; [now apply spaced_succ|].
  apply Forall_forall. intros p Hp. apply in_map_iff in Hp.
  destruct Hp as [q [<- Hq]]. rewrite Forall_forall in Hocc. now apply Hocc.
Qed.

Lemma length_sub_pos : 1 <= length sub.
Proof. destruct sub; [contradiction | simpl; lia]. Qed.

Lemma count_scan_cons c s skip :
  count_scan sub (c :: s) skip
  = match skip with
    | S k => count_scan sub s k
    | O =>
        if startswith (c :: s) sub
        then S (count_scan sub s (length sub - 1))
        else count_scan sub s 0
    end.
Proof. reflexivity. Qed.

(** No family of non-overlapping occurrences behind [skip] is larger than
    what the scan counts. *)
Lemma count_scan_upper s skip ps :
  disjoint_occurrences sub s skip ps -> length ps <= count_scan sub s skip.
Proof.
  revert skip ps. induction s as [|c s IH]; intros skip ps Hd.
  - destruct ps as [|p ps]; simpl; auto.
    destruct Hd as [_ Hocc]. inversion Hocc; subst.
    exfalso. eapply occurs_at_nil; eauto.
  - rewrite count_scan_cons. destruct skip as [|k].
    + destruct (startswith (c :: s) sub) eqn:Hstart.
      * destruct ps as [|p ps]; simpl; [lia|].
        apply le_n_S. destruct Hd as [[_ Hsp] Hocc].
        inversion Hocc as [|? ? _ Hps]; subst.
        rewrite <- (length_map pred).
        apply IH. apply (disjoint_tail c).
        split; auto.
        apply spaced_weaken with (p + length sub); auto.
        pose proof length_sub_pos. lia.
      * rewrite <- (length_map pred). apply IH. apply (disjoint_tail c).
        destruct Hd as [Hsp Hocc]. split; auto.
        destruct ps as [|p ps]; simpl; auto.
        destruct Hsp as [_ Hsp]. split; auto.
        destruct p; [|lia].
        inversion Hocc as [|? ? Hp _]; subst.
        unfold occurs_at in Hp. change (skipn 0 (c :: s)) with (c :: s) in Hp.
        congruence.
    + rewrite <- (length_map pred). apply IH. now apply (disjoint_tail c).
Qed.

(** The scan finds a family of non-overlapping occurrences. *)
Lemma count_scan_reached s skip :
  exists ps, disjoint_occurrences sub s skip ps /\ length ps = count_scan sub s skip.
Proof.
  revert skip. induction s as [|c s IH]; intros skip.
  - exists []. repeat split; constructor.
  - rewrite count_scan_cons. destruct skip as [|k].
    + destruct (startswith (c :: s) sub) eqn:Hstart.
      * destruct (IH (length sub - 1)) as [ps [Hd Hlen]].
        exists (0 :: map S ps). split; [|simpl; now rewrite length_map, Hlen].
        apply (disjoint_cons c) in Hd. destruct Hd as [Hsp Hocc].
        split.
        -- simpl. split; auto.
           pose proof length_sub_pos.
           replace (length sub) with (S (length sub - 1)) at 2 by lia. exact Hsp.
        -- constructor; auto.
      * destruct (IH 0) as [ps [Hd Hlen]].
        exists (map S ps). split; [|now rewrite length_map].
        apply (disjoint_cons c) in Hd. destruct Hd as [Hsp Hocc].
        split; auto. apply spaced_weaken with 1; auto.
    + destruct (IH k) as [ps [Hd Hlen]].
      exists (map S ps). split; [|now rewrite length_map].
      now apply (disjoint_cons c).
Qed.

Lemma str_count_scan s : str_count s sub = count_scan sub s 0.
Proof.
  pose proof sub_nonempty as H. unfold str_count.
  destruct sub; [contradiction | reflexivity].
Qed.

Lemma str_count_nonoverlapping s : nonoverlapping_count sub s (str_count s sub).
Proof.
  rewrite str_count_scan. split.
  - apply count_scan_reached.
  - apply count_scan_upper.
Qed.

End StrCount.

Section NGrams.

Context {U : Unicode}.

Lemma check_ngrams_get self text n lang_code lang_data :
  wf_detector self ->
  In (lang_code, lang_data) (language_data self) ->
  exists scores,
    _check_ngrams self text n = Ok scores
    /\ dict_get scores lang_code = Some (ngram_hits text n lang_data).
Proof.
  intros [Hnd Hincl] Hin.
  rewrite check_ngrams_tally by assumption.
  eexists. split; [reflexivity|].
  rewrite (tally_get _ _ _ lang_code lang_data) by assumption.
  unfold dict_get_default, initial_scores.
  rewrite dict_from_keys_get; auto.
  apply Hincl. change lang_code with (fst (lang_code, lang_data)). now apply in_map.
Qed.

(** C5, as amended. For every language with a profile, the digram (and the
    trigram) extractor adds, for each pattern of the language's list, what
    [str.count] returns on the lowercased cleaned text: the largest number
    of pairwise non-overlapping occurrences of the pattern. *)
Theorem ngrams_count_without_overlap self text lang_code lang_data :
  wf_detector self ->
  In (lang_code, lang_data) (language_data self) ->
  (exists scores,
      _check_ngrams self text 2 = Ok scores
      /\ dict_get scores lang_code
         = Some (list_sum (map (str_count (str_lower text)) (digrams lang_data))))
  /\ (exists scores,
         _check_ngrams self text 3 = Ok scores
         /\ dict_get scores lang_code
            = Some (list_sum (map (str_count (str_lower text)) (trigrams lang_data))))
  /\ (forall pattern, pattern <> [] ->
        nonoverlapping_count pattern (str_lower text)
          (str_count (str_lower text) pattern)).
Proof.
  intros Hwf Hin. split; [|split].
  - exact (check_ngrams_get self text 2 lang_code lang_data Hwf Hin).
  - exact (check_ngrams_get self text 3 lang_code lang_data Hwf Hin).
  - intros pattern Hne. now apply str_count_nonoverlapping.
Qed.

End NGrams.

(** C5 fails as stated: in "ннн" the digram "нн" occurs at two overlapping
    positions, and [_check_ngrams] adds one for it. *)
Lemma ngrams_overlap_not_counted :
  occurrences (u "нн") (u "ннн") = 2
  /\ str_count (u "ннн") (u "нн") = 1
  /\ _check_ngrams default_detector (u "ннн") 2
     = Ok [("russian", 1); ("ukrainian", 2)]
  /\ overlapping_ngram_hits (u "ннн") 2 (LanguageData_init "russian" russian_data) = 2
  /\ ~ ngrams_count_overlapping default_detector (u "ннн") 2.
Proof.
  repeat split; try reflexivity.
  intros H.
  destruct (H "russian" (LanguageData_init "russian" russian_data)) as [scores [H1 H2]].
  - left. reflexivity.
  - vm_compute in H1. injection H1 as <-. vm_compute in H2. discriminate.
Qed.

Lemma ngrams_count_without_overlap_witness :
  exists scores,
    _check_ngrams default_detector (u "ннн") 2 = Ok scores
    /\ dict_get scores "russian" = Some 1.
Proof.
  destruct (ngrams_count_without_overlap default_detector (u "ннн") "russian"
              (LanguageData_init "russian" russian_data) default_detector_wf)
    as [[scores [H1 H2]] _].
  - left. reflexivity.
  - exists scores. split; [exact H1|]. rewrite H2. vm_compute. reflexivity.
Defined.

(** ** The key sets of the feature maps *)

Section KeySets.

Context {U : Unicode}.

(** The four extractors that start from the list of active languages return
    a count for each of them. *)
Lemma counting_extractors_keys self text words n :
  wf_detector self ->
  exists word_endings marker_words ngrams,
    _check_word_endings self words = Ok word_endings
    /\ _check_marker_words self words = Ok marker_words
    /\ _check_ngrams self text n = Ok ngrams
    /\ forall lang,
         In lang (languages self) <->
         In lang (dict_keys word_endings) /\ In lang (dict_keys marker_words)
         /\ In lang (dict_keys ngrams).
Proof.
  intros [_ Hincl].
  destruct (check_word_endings_tally self words Hincl) as [-> Hk1].
  destruct (check_marker_words_tally self words Hincl) as [-> Hk2].
  rewrite check_ngrams_tally by assumption.
  do 3 eexists. repeat split; try reflexivity.
  - rewrite Hk1. now apply dict_from_keys_keys.
  - rewrite Hk2. now apply dict_from_keys_keys.
  - rewrite tally_keys by (now apply initial_scores_incl).
    now apply dict_from_keys_keys.
  - intros [H _]. rewrite Hk1 in H. now apply dict_from_keys_keys in H.
Qed.

(** The two letter counters return a count for the loaded profiles only. *)
Lemma letter_counters_keys self text :
  wf_detector self ->
  dict_keys (_count_unique_letters self text) = dict_keys (language_data self)
  /\ dict_keys (_count_frequent_letters self text) = dict_keys (language_data self).
Proof.
  intros [Hnd _].
  rewrite count_unique_letters_items, count_frequent_letters_items by assumption.
  unfold dict_keys. rewrite !map_map.
  split; apply map_ext; now intros [k ld].
Qed.

End KeySets.

(** C6 at a failing input. With the active languages russian and german,
    the second without any profile, the word-ending, marker-word and n-gram
    extractors return a zero for german, but the unique-letter and the
    frequent-letter extractors return maps without the key german. *)
Lemma letter_counters_omit_unloaded :
  languages german_detector = ["russian"; "german"]
  /\ _check_word_endings german_detector (split (u "text"))
     = Ok [("russian", 0); ("german", 0)]
  /\ _check_marker_words german_detector (split (u "text"))
     = Ok [("russian", 0); ("german", 0)]
  /\ _check_ngrams german_detector (u "text") 2 = Ok [("russian", 0); ("german", 0)]
  /\ _check_ngrams german_detector (u "text") 3 = Ok [("russian", 0); ("german", 0)]
  /\ _count_unique_letters german_detector (u "text") = [("russian", 0)]
  /\ _count_frequent_letters german_detector (u "text") = [("russian", 0)].
Proof. repeat split; reflexivity. Qed.

(** ** The two-language classifier against the default detector *)

Lemma fold_add_list_sum {X} (f : X -> nat) (l : list X) (a : nat) :
  fold_left (fun acc x => acc + f x) l a = a + list_sum (map f l).
Proof.
  revert a. induction l as [|x l IH]; intros a; simpl.
  - lia.
  - rewrite IH. lia.
Qed.

Lemma str_in_set_of x l : str_in x (set_of l) = str_in x l.
Proof.
  induction l as [|y l IH]; simpl; auto.
  destruct (str_in y l) eqn:E; simpl; rewrite IH; auto.
  destruct (str_eqb x y) eqn:Exy; auto. simpl.
  (* [x] equals [y], which is in [l] *)
  assert (x = y) as ->; auto.
  clear -Exy. revert y Exy. induction x as [|c x IHx]; intros [|d y]; simpl;
    try discriminate; auto.
  intros H. apply andb_true_iff in H. destruct H as [H1 H2].
  apply N.eqb_eq in H1. subst. f_equal. auto.
Qed.

Section TwoLanguages.

Context {U : Unicode}.

Variables (self : LangDetector) (ru uk : LanguageData).
Hypothesis self_languages : languages self = ["russian"; "ukrainian"].
Hypothesis self_data : language_data self = [("russian", ru); ("ukrainian", uk)].

Lemma two_incl : incl (dict_keys (language_data self)) (languages self).
Proof. rewrite self_languages, self_data. apply incl_refl. Qed.

Lemma two_initial : initial_scores self = [("russian", 0); ("ukrainian", 0)].
Proof. unfold initial_scores. now rewrite self_languages. Qed.

Lemma two_tally g a b :
  tally (language_data self) g [("russian", a); ("ukrainian", b)]
  = [("russian", a + g ru); ("ukrainian", b + g uk)].
Proof. rewrite self_data. reflexivity. Qed.

Lemma two_unique_letters text :
  _count_unique_letters self text
  = [("russian", count_letters (unique_letters ru) text);
     ("ukrainian", count_letters (unique_letters uk) text)].
Proof. unfold _count_unique_letters. rewrite self_data. reflexivity. Qed.

Lemma two_frequent_letters text :
  _count_frequent_letters self text
  = [("russian", count_letters (frequent_letters ru) text);
     ("ukrainian", count_letters (frequent_letters uk) text)].
Proof. unfold _count_frequent_letters. rewrite self_data. reflexivity. Qed.

Lemma two_word_endings_step a b word :
  word_endings_step self [("russian", a); ("ukrainian", b)] word
  = [("russian", a + long_ending_hit ru word);
     ("ukrainian", b + long_ending_hit uk word)].
Proof.
  unfold word_endings_step, long_ending_hit. destruct (length word <? 3).
  - now rewrite !Nat.add_0_r.
  - apply two_tally.
Qed.

Lemma two_fold (step : dict nat -> str -> dict nat) (hit : LanguageData -> str -> nat)
    words a b :
  (forall a b word,
      step [("russian", a); ("ukrainian", b)] word
      = [("russian", a + hit ru word); ("ukrainian", b + hit uk word)]) ->
  fold_left step words [("russian", a); ("ukrainian", b)]
  = [("russian", a + list_sum (map (hit ru) words));
     ("ukrainian", b + list_sum (map (hit uk) words))].
Proof.
  intros Hstep. revert a b.
  induction words as [|w words IH]; intros a b; cbn [fold_left map list_sum fold_right].
  - now rewrite !Nat.add_0_r.
  - rewrite Hstep, IH. now rewrite !Nat.add_assoc.
Qed.

Lemma two_word_endings words :
  _check_word_endings self words
  = Ok [("russian", list_sum (map (long_ending_hit ru) words));
        ("ukrainian", list_sum (map (long_ending_hit uk) words))].
Proof.
  destruct (check_word_endings_tally self words two_incl) as [-> _].
  rewrite two_initial. f_equal.
  apply (two_fold (word_endings_step self) long_ending_hit).
  apply two_word_endings_step.
Qed.

Lemma two_marker_words words :
  _check_marker_words self words
  = Ok [("russian",
         list_sum (map (fun word => marker_hit word ru) (map str_lower words)));
        ("ukrainian",
         list_sum (map (fun word => marker_hit word uk) (map str_lower words)))].
Proof.
  destruct (check_marker_words_tally self words two_incl) as [-> _].
  rewrite two_initial. f_equal.
  apply (two_fold
           (fun scores word => tally (language_data self) (marker_hit word) scores)
           (fun lang_data word => marker_hit word lang_data)).
  intros a b word. apply two_tally.
Qed.

Lemma two_ngrams text n :
  _check_ngrams self text n
  = Ok [("russian", ngram_hits text n ru); ("ukrainian", ngram_hits text n uk)].
Proof.
  rewrite check_ngrams_tally by apply two_incl.
  rewrite two_initial. f_equal. apply two_tally.
Qed.

End TwoLanguages.

Lemma count_letters_split (A B C : list str) text :
  (forall c, str_in [c] A = str_in [c] B || str_in [c] C) ->
  (forall c, str_in [c] B = true -> str_in [c] C = false) ->
  count_letters A text = count_letters B text + count_letters C text.
Proof.
  intros Hsplit Hdisj. unfold count_letters.
  induction text as [|c text IH]; simpl; auto.
  rewrite Hsplit. destruct (str_in [c] B) eqn:EB; simpl.
  - rewrite (Hdisj c EB). simpl. now rewrite IH.
  - destruct (str_in [c] C); simpl; rewrite IH; lia.
Qed.

Section LangLibFacts.

Context {U : Unicode}.

Lemma default_languages : languages default_detector = ["russian"; "ukrainian"].
Proof. reflexivity. Qed.

Lemma default_language_data :
  language_data default_detector
  = [("russian", russian_profile); ("ukrainian", ukrainian_profile)].
Proof. reflexivity. Qed.

Lemma langlib_unique_letters text :
  LangLib._count_unique_letters text
  = (count_letters (unique_letters russian_profile) text,
     count_letters (unique_letters ukrainian_profile) text).
Proof. reflexivity. Qed.

(** The Russian frequent letters of the default profile are those of
    [LangLib] and the letter ё. *)
Lemma russian_frequent_letters text :
  count_letters (frequent_letters russian_profile) text
  = count_letters LangLib.ru_frequent text + count_letters [u "ё"] text.
Proof.
  assert (frequent_letters russian_profile
          = [[1099%N]; [1098%N]; [1101%N]; [1105%N]]) as -> by reflexivity.
  assert (LangLib.ru_frequent = [[1099%N]; [1098%N]; [1101%N]]) as -> by reflexivity.
  assert (u "ё" = [1105%N]) as -> by reflexivity.
  apply count_letters_split; intros c; unfold str_in, existsb, str_eqb, char_eqb.
  - destruct (N.eqb c 1099); destruct (N.eqb c 1098); destruct (N.eqb c 1101);
      destruct (N.eqb c 1105); reflexivity.
  - destruct (N.eqb c 1099) eqn:E1; [apply N.eqb_eq in E1; now subst|].
    destruct (N.eqb c 1098) eqn:E2; [apply N.eqb_eq in E2; now subst|].
    destruct (N.eqb c 1101) eqn:E3; [apply N.eqb_eq in E3; now subst|].
    discriminate.
Qed.

Lemma langlib_frequent_letters text :
  LangLib._count_frequent_letters text
  = (count_letters LangLib.ru_frequent text,
     count_letters (frequent_letters ukrainian_profile) text).
Proof. reflexivity. Qed.

Lemma langlib_word_endings words :
  LangLib._check_word_endings words
  = (list_sum (map (long_ending_hit russian_profile) words),
     list_sum (map (long_ending_hit ukrainian_profile) words)).
Proof.
  unfold LangLib._check_word_endings.
  assert (forall a b,
    fold_left
      (fun '(ru_score, uk_score) word =>
         if length word <? 3 then (ru_score, uk_score)
         else
           let uk_score :=
             if existsb (endswith word) LangLib.ukrainian_endings then uk_score + 1
             else uk_score in
           let ru_score :=
             if existsb (endswith word) LangLib.russian_endings then ru_score + 1
             else ru_score in
           (ru_score, uk_score)) words (a, b)
    = (a + list_sum (map (long_ending_hit russian_profile) words),
       b + list_sum (map (long_ending_hit ukrainian_profile) words))) as H.
  { clear. unfold list_sum. induction words as [|w words IH]; intros a b;
      cbn [fold_left map fold_right].
    - now rewrite !Nat.add_0_r.
    - unfold long_ending_hit at 1 3. unfold ending_hit.
      change (word_endings russian_profile) with LangLib.russian_endings.
      change (word_endings ukrainian_profile) with LangLib.ukrainian_endings.
      destruct (length w <? 3).
      + rewrite IH. reflexivity.
      + cbv zeta.
        destruct (existsb (endswith w) LangLib.ukrainian_endings);
          destruct (existsb (endswith w) LangLib.russian_endings);
          rewrite IH; cbv iota; f_equal; lia. }
  exact (H 0 0).
Qed.

Lemma langlib_marker_words words :
  LangLib._check_marker_words words
  = (list_sum (map (fun word => marker_hit word russian_profile) (map str_lower words)),
     list_sum (map (fun word => marker_hit word ukrainian_profile) (map str_lower words))).
Proof.
  unfold LangLib._check_marker_words.
  assert (forall ws a b,
    fold_left
      (fun '(ru_score, uk_score) word =>
         let uk_score :=
           if str_in word LangLib.ukrainian_words then uk_score + 1 else uk_score in
         let ru_score :=
           if str_in word LangLib.russian_words then ru_score + 1 else ru_score in
         (ru_score, uk_score)) ws (a, b)
    = (a + list_sum (map (fun word => marker_hit word russian_profile) ws),
       b + list_sum (map (fun word => marker_hit word ukrainian_profile) ws))) as H.
  { clear. unfold list_sum. induction ws as [|w ws IH]; intros a b;
      cbn [fold_left map fold_right].
    - now rewrite !Nat.add_0_r.
    - unfold marker_hit at 1 3.
      change (marker_words russian_profile) with (set_of LangLib.russian_words).
      change (marker_words ukrainian_profile) with (set_of LangLib.ukrainian_words).
      rewrite !str_in_set_of. cbv zeta.
      destruct (str_in w LangLib.ukrainian_words);
        destruct (str_in w LangLib.russian_words);
        rewrite IH; cbv iota; f_equal; lia. }
  exact (H (map str_lower words) 0 0).
Qed.

Lemma langlib_digrams text :
  LangLib._check_digrams text
  = (ngram_hits text 2 russian_profile, ngram_hits text 2 ukrainian_profile).
Proof.
  unfold LangLib._check_digrams. cbv zeta. rewrite !fold_add_list_sum.
  reflexivity.
Qed.

Lemma langlib_get_confidence_tokens text :
  split (_clean_text text) <> [] ->
  LangLib.answer (LangLib.get_confidence (PyStr text))
  = two_language_answer
      (langlib_score russian_profile
         (count_letters LangLib.ru_frequent (_clean_text text))
         (_clean_text text) (split (_clean_text text)))
      (langlib_score ukrainian_profile
         (count_letters (frequent_letters ukrainian_profile) (_clean_text text))
         (_clean_text text) (split (_clean_text text))).
Proof.
  intros Hwords. unfold LangLib.get_confidence.
  destruct text as [|c text].
  { rewrite clean_text_nil in Hwords. now contradiction Hwords. }
  simpl truthy. simpl isinstance_str. simpl as_str. simpl negb. simpl orb. cbv iota.
  change (LangLib._clean_text (c :: text)) with (_clean_text (c :: text)).
  destruct (_clean_text (c :: text)) as [|c' cleaned] eqn:Hclean.
  { now contradiction Hwords. }
  simpl is_empty. cbv iota.
  destruct (split (c' :: cleaned)) as [|w ws] eqn:Hsplit; [congruence|].
  simpl is_empty. cbv iota.
  rewrite langlib_unique_letters, langlib_frequent_letters, langlib_word_endings,
    langlib_marker_words, langlib_digrams.
  unfold two_language_answer, langlib_score.
  destruct (Qeq_bool _ _); [reflexivity|].
  destruct (Qltb _ _); reflexivity.
Qed.

Lemma langlib_get_confidence_empty text :
  empty_input text -> LangLib.get_confidence text = LangLib.unknown_confidence.
Proof.
  intros Hempty. unfold LangLib.get_confidence.
  destruct (negb (truthy text) || negb (isinstance_str text)) eqn:Hguard; auto.
  apply orb_false_iff in Hguard. destruct Hguard as [Ht Hs].
  apply negb_false_iff in Ht, Hs.
  change (LangLib._clean_text (as_str text)) with (_clean_text (as_str text)).
  destruct Hempty as [H|[H|[H|H]]]; try congruence.
  - now rewrite H.
  - destruct (is_empty (_clean_text (as_str text))); auto. now rewrite H.
Qed.

End LangLibFacts.

Lemma Qdiv_le_inv x t c : (0 < t)%Q -> (c <= x / t)%Q -> (c * t <= x)%Q.
Proof.
  intros Ht Hc.
  assert (x / t * t == x)%Q as E.
  { unfold Qdiv. rewrite <- Qmult_assoc, (Qmult_comm (/ t)), Qmult_inv_r.
    - apply Qmult_1_r.
    - intros H. rewrite H in Ht. now apply Qlt_irrefl in Ht. }
  rewrite <- E. apply Qmult_le_compat_r; auto. now apply Qlt_le_weak.
Qed.

Lemma Qdiv_eq0_inv x t : (0 < t)%Q -> (x / t == 0)%Q -> (x == 0)%Q.
Proof.
  intros Ht H.
  assert (x / t * t == x)%Q as E.
  { unfold Qdiv. rewrite <- Qmult_assoc, (Qmult_comm (/ t)), Qmult_inv_r.
    - apply Qmult_1_r.
    - intros H'. rewrite H' in Ht. now apply Qlt_irrefl in Ht. }
  rewrite <- E, H. apply Qmult_0_l.
Qed.

Lemma Qeq_bool_false_neq x : Qeq_bool x 0 = false -> ~ (x == 0)%Q.
Proof. intros H E. apply Qeq_bool_iff in E. congruence. Qed.

Section Agreement.

Context {U : Unicode}.

(** The answers from two scores: the default detector (first the Russian
    score, threshold 0.6) against [LangLib]. *)
Lemma two_language_agree (R K ru uk : Q) d :
  (R == ru)%Q -> (K == uk)%Q -> (0 <= R)%Q -> (0 <= K)%Q ->
  outcome (6 # 10) [("russian", R); ("ukrainian", K)] = Ok d ->
  language d <> "unknown" \/ (confidence d == 0)%Q ->
  same_answer (two_language_answer ru uk) d.
Proof.
  intros HR HK HR0 HK0. unfold outcome, two_language_answer.
  assert (Qsum (dict_values [("russian", R); ("ukrainian", K)]) == R + K)%Q as Htotal
    by (unfold Qsum; simpl; ring).
  set (total := Qsum (dict_values [("russian", R); ("ukrainian", K)])) in *.
  destruct (Qeq_bool total 0) eqn:Hzero.
  - intros [= <-] _.
    apply Qeq_bool_iff in Hzero.
    assert (Qeq_bool (ru + uk) 0 = true) as ->
      by (apply Qeq_bool_iff; rewrite <- HR, <- HK, <- Htotal; exact Hzero).
    split; reflexivity.
  - apply Qeq_bool_false_neq in Hzero.
    assert (0 < total)%Q as Hpos.
    { apply Qnot_le_lt. intros Hle. apply Hzero. rewrite Htotal in *. lra. }
    assert (Qeq_bool (ru + uk) 0 = false) as ->.
    { destruct (Qeq_bool (ru + uk) 0) eqn:E; auto.
      apply Qeq_bool_iff in E. exfalso. apply Hzero.
      rewrite Htotal, HR, HK. exact E. }
    assert (total == ru + uk)%Q as Htotal' by (rewrite Htotal, HR, HK; reflexivity).
    simpl py_max. unfold bind.
    destruct (Qltb R K) eqn:Hlt; cbn [fst snd].
    + apply Qltb_lt in Hlt.
      destruct (Qltb (K / total) (6 # 10)) eqn:Hlow; intros [= <-] Hkeep.
      * exfalso. destruct Hkeep as [Hkeep|Hkeep]; [now apply Hkeep|].
        simpl in Hkeep. apply Qdiv_eq0_inv in Hkeep; auto. lra.
      * assert (Qltb uk ru = false) as -> by (apply Qltb_ge; lra).
        split; [reflexivity|]. simpl. now rewrite HK, Htotal'.
    + apply Qltb_ge in Hlt.
      destruct (Qltb (R / total) (6 # 10)) eqn:Hlow; intros [= <-] Hkeep.
      * exfalso. destruct Hkeep as [Hkeep|Hkeep]; [now apply Hkeep|].
        simpl in Hkeep. apply Qdiv_eq0_inv in Hkeep; auto.
        rewrite Htotal in Hpos. lra.
      * apply Qltb_ge in Hlow. apply Qdiv_le_inv in Hlow; auto.
        assert (Qltb uk ru = true) as ->.
        { apply Qltb_lt. rewrite Htotal in Hlow, Hpos. lra. }
        split; [reflexivity|]. simpl. now rewrite HR, Htotal'.
Qed.

Lemma default_detect_tokens text :
  split (_clean_text text) <> [] ->
  fast_path (_count_unique_letters default_detector (_clean_text text)) = None ->
  detect default_detector (PyStr text)
  = outcome (6 # 10)
      [("russian",
        default_score russian_profile (_clean_text text) (split (_clean_text text)));
       ("ukrainian",
        default_score ukrainian_profile (_clean_text text) (split (_clean_text text)))].
Proof.
  intros Hwords Hfast. rewrite detect_tokens by assumption. rewrite Hfast.
  unfold all_metrics.
  rewrite (two_word_endings default_detector russian_profile ukrainian_profile
             default_languages default_language_data).
  rewrite (two_marker_words default_detector russian_profile ukrainian_profile
             default_languages default_language_data).
  rewrite !(two_ngrams default_detector russian_profile ukrainian_profile
              default_languages default_language_data).
  rewrite (two_unique_letters default_detector russian_profile ukrainian_profile
             default_language_data).
  rewrite (two_frequent_letters default_detector russian_profile ukrainian_profile
             default_language_data).
  reflexivity.
Qed.

Lemma default_score_nonneg p cleaned_text words :
  (0 <= default_score p cleaned_text words)%Q.
Proof.
  unfold default_score.
  repeat apply Qplus_nonneg_compat; apply Qmult_le_0_compat;
    try apply Qnat_nonneg; unfold Qle; simpl; lia.
Qed.

(** C9, as amended. [LangLib.get_confidence] and [detect] on the default
    two-language detector return the same language and equal confidences
    on every input for which [detect] neither takes its fast path nor
    answers unknown for a confidence below the threshold, and whose cleaned
    text holds no letter ё and no trigram of the two profiles. *)
Theorem langlib_agrees_with_default text d :
  fast_path (_count_unique_letters default_detector (_clean_text (as_str text)))
  = None ->
  count_letters [u "ё"] (_clean_text (as_str text)) = 0 ->
  _check_ngrams default_detector (_clean_text (as_str text)) 3
  = Ok [("russian", 0); ("ukrainian", 0)] ->
  detect default_detector text = Ok d ->
  language d <> "unknown" \/ (confidence d == 0)%Q ->
  same_answer (LangLib.answer (LangLib.get_confidence text)) d.
Proof.
  intros Hfast Hyo Htri Hdetect Hkeep.
  assert (forall x, empty_input x -> detect default_detector x = Ok d ->
            same_answer (LangLib.answer (LangLib.get_confidence x)) d) as Hempty.
  { intros x Hx Hd. rewrite detect_empty in Hd by assumption.
    injection Hd as <-. rewrite langlib_get_confidence_empty by assumption.
    split; reflexivity. }
  destruct text as [text|b]; [|apply Hempty; auto; right; left; reflexivity].
  simpl as_str in *.
  destruct (split (_clean_text text)) as [|w ws] eqn:Hsplit.
  { apply Hempty; auto. right. right. right. exact Hsplit. }
  assert (split (_clean_text text) <> []) as Hwords by (rewrite Hsplit; discriminate).
  rewrite (two_ngrams default_detector russian_profile ukrainian_profile
             default_languages default_language_data) in Htri.
  injection Htri as Htri_ru Htri_uk.
  rewrite default_detect_tokens in Hdetect by assumption.
  rewrite langlib_get_confidence_tokens by assumption.
  eapply two_language_agree; [| | | |exact Hdetect|exact Hkeep];
    try apply default_score_nonneg.
  - unfold default_score, langlib_score, LangLib.score.
    rewrite russian_frequent_letters, Hyo, Htri_ru, Nat.add_0_r.
    change (Qnat 0) with 0%Q. ring.
  - unfold default_score, langlib_score, LangLib.score.
    rewrite Htri_uk. change (Qnat 0) with 0%Q. ring.
Qed.

End Agreement.

(** C9 fails as stated: on "это" the default detector takes its fast path
    and reports 0.95, while [LangLib.get_confidence], which has no fast
    path, reports the full share of the Russian score, 1. *)
Lemma langlib_differs_on_fast_path :
  detect default_detector (PyStr (u "это"))
  = Ok {| language := "russian"; confidence := (95 # 100)%Q |}
  /\ language (LangLib.answer (LangLib.get_confidence (PyStr (u "это")))) = "russian"
  /\ (confidence (LangLib.answer (LangLib.get_confidence (PyStr (u "это")))) == 1)%Q
  /\ ~ same_answer (LangLib.answer (LangLib.get_confidence (PyStr (u "это"))))
         {| language := "russian"; confidence := (95 # 100)%Q |}.
Proof.
  split; [reflexivity|]. split; [reflexivity|]. split; [reflexivity|].
  intros [_ H]. vm_compute in H. discriminate.
Qed.

Lemma langlib_agrees_with_default_witness :
  exists d,
    detect default_detector (PyStr (u "мама пошла домой")) = Ok d
    /\ language d = "russian"
    /\ same_answer
         (LangLib.answer (LangLib.get_confidence (PyStr (u "мама пошла домой")))) d.
Proof.
  eexists. split; [vm_compute; reflexivity|]. split; [reflexivity|].
  apply langlib_agrees_with_default.
  - vm_compute. reflexivity.
  - vm_compute. reflexivity.
  - vm_compute. reflexivity.
  - vm_compute. reflexivity.
  - left. simpl. discriminate.
Defined.

(** * Further properties of the code *)

(** ** The detector state: construction, [add_language], [remove_language] *)

Lemma dict_get_del_same {V} (d : dict V) k :
  NoDup (dict_keys d) -> dict_get (dict_del d k) k = None.
Proof.
  intros Hnd. apply dict_get_none_keys. intros Hin.
  now apply dict_del_keys in Hin.
Qed.

Lemma dict_get_del_other {V} (d : dict V) k k' :
  k <> k' -> dict_get (dict_del d k) k' = dict_get d k'.
Proof.
  intros Hne. induction d as [|[k0 v0] d IH]; simpl; auto.
  destruct (String.eqb k0 k) eqn:E; simpl.
  - apply String.eqb_eq in E. subst k0.
    destruct (String.eqb k k') eqn:E'; auto.
    apply String.eqb_eq in E'. contradiction.
  - now rewrite IH.
Qed.

Lemma dict_del_fresh {V} (d : dict V) k v :
  ~ In k (dict_keys d) -> dict_del (d ++ [(k, v)]) k = d.
Proof.
  induction d as [|[k0 v0] d IH]; simpl.
  - now rewrite String.eqb_refl.
  - intros Hnotin. destruct (String.eqb k0 k) eqn:E.
    + apply String.eqb_eq in E. tauto.
    + f_equal. apply IH. tauto.
Qed.

Lemma list_remove_fresh l k : ~ In k l -> list_remove (l ++ [k]) k = l.
Proof.
  induction l as [|y l IH]; simpl.
  - now rewrite String.eqb_refl.
  - intros Hnotin. destruct (String.eqb y k) eqn:E.
    + apply String.eqb_eq in E. tauto.
    + f_equal. apply IH. tauto.
Qed.

Lemma list_remove_NoDup l k : NoDup l -> ~ In k (list_remove l k).
Proof.
  induction 1 as [|y l Hnotin Hnd IH]; simpl; auto.
  destruct (String.eqb y k) eqn:E.
  - apply String.eqb_eq in E. now subst.
  - apply String.eqb_neq in E. intros [H|H]; auto.
Qed.

Lemma list_remove_length l k : In k l -> S (length (list_remove l k)) = length l.
Proof.
  induction l as [|y l IH]; intros Hin; [destruct Hin|].
  simpl. destruct (String.eqb y k) eqn:E; auto.
  apply String.eqb_neq in E. simpl. f_equal. apply IH.
  destruct Hin; congruence.
Qed.

Lemma lang_in_false lang l : lang_in lang l = false <-> ~ In lang l.
Proof.
  rewrite <- lang_in_In. destruct (lang_in lang l); split; congruence.
Qed.

Lemma load_language_data_get fs langs dir (acc : dict LanguageData) lang :
  dict_get (_load_language_data fs langs dir acc) lang
  = if lang_in lang langs then
      match fs (lang_file dir lang) with
      | JsonFile data => Some (LanguageData_init lang data)
      | NoFile | BrokenFile =>
          match dict_get BUILTIN_LANGUAGE_DATA lang with
          | Some data => Some (LanguageData_init lang data)
          | None => dict_get acc lang
          end
      end
    else dict_get acc lang.
Proof.
  unfold _load_language_data, load_builtin.
  remember (dict_get BUILTIN_LANGUAGE_DATA) as builtin eqn:Hb. clear Hb.
  revert acc.
  induction langs as [|l langs IH]; intros acc; cbn [fold_left]; auto.
  rewrite IH. unfold lang_in. cbn [existsb]. fold (lang_in lang langs).
  destruct (String.eqb lang l) eqn:E; cbn [orb].
  - apply String.eqb_eq in E. subst l.
    destruct (lang_in lang langs); destruct (fs (lang_file dir lang));
      destruct (builtin lang); rewrite ?dict_get_set_same; reflexivity.
  - apply String.eqb_neq in E.
    assert (forall v, dict_get (dict_set acc l v) lang = dict_get acc lang) as Hset
      by (intros v; apply dict_get_set_other; congruence).
    destruct (fs (lang_file dir l)); destruct (builtin l);
      rewrite ?Hset; reflexivity.
Qed.

(** The profile a new detector holds for a language: none for a language
    that was not requested; otherwise the profile of the file of that name
    in the data directory, or, when there is no such file or reading it
    fails, the built-in profile, or none when there is no built-in one. *)
Theorem loaded_profile fs langs dir min_conf lang :
  let self := LangDetector_init fs langs dir min_conf in
  dict_get (language_data self) lang
  = if lang_in lang (languages self) then
      match fs (lang_file (data_dir self) lang) with
      | JsonFile data => Some (LanguageData_init lang data)
      | NoFile | BrokenFile =>
          option_map (LanguageData_init lang) (dict_get BUILTIN_LANGUAGE_DATA lang)
      end
    else None.
Proof.
  intros self. unfold self, LangDetector_init.
  cbn [language_data languages data_dir]. rewrite load_language_data_get.
  destruct (lang_in lang _); [|reflexivity].
  destruct (fs _); reflexivity.
Qed.

(** [add_language] is an upsert: the language gets the new profile, the
    other profiles stay, and the language is active afterwards without
    being listed twice. *)
Theorem add_language_upsert self lang_code data :
  let self' := add_language self lang_code data in
  dict_get (language_data self') lang_code = Some (LanguageData_init lang_code data)
  /\ (forall l, l <> lang_code ->
        dict_get (language_data self') l = dict_get (language_data self) l)
  /\ (forall l, In l (languages self') <-> l = lang_code \/ In l (languages self))
  /\ (NoDup (languages self) -> NoDup (languages self'))
  /\ min_confidence self' = min_confidence self.
Proof.
  intros self'. unfold self', add_language. simpl.
  split; [apply dict_get_set_same|]. split.
  { intros l Hne. apply dict_get_set_other. congruence. }
  split.
  - intros l. destruct (lang_in lang_code (languages self)) eqn:E.
    + apply lang_in_In in E. split; auto. intros [->|H]; auto.
    + rewrite in_app_iff. simpl. intuition.
  - split; auto. intros Hnd.
    destruct (lang_in lang_code (languages self)) eqn:E; auto.
    apply lang_in_false in E.
    apply NoDup_app; auto.
    + constructor; [simpl; tauto | constructor].
    + intros x Hx [<-|[]]. contradiction.
Qed.

(** [remove_language] answers whether the language was active.  If not,
    nothing changes, even when a profile of that name exists; if so, the
    profile is gone and one occurrence of the name leaves the list of
    active languages, the other profiles staying as they are. *)
Theorem remove_language_effect self lang_code :
  NoDup (dict_keys (language_data self)) ->
  (~ In lang_code (languages self) ->
   remove_language self lang_code = (self, false))
  /\ (In lang_code (languages self) ->
      let self' := fst (remove_language self lang_code) in
      snd (remove_language self lang_code) = true
      /\ dict_get (language_data self') lang_code = None
      /\ (forall l, l <> lang_code ->
            dict_get (language_data self') l = dict_get (language_data self) l)
      /\ S (length (languages self')) = length (languages self)
      /\ (NoDup (languages self) -> ~ In lang_code (languages self'))).
Proof.
  intros Hnd. unfold remove_language. split.
  - intros Hnotin. apply lang_in_false in Hnotin. now rewrite Hnotin.
  - intros Hin. pose proof Hin as Hin'. apply lang_in_In in Hin'. rewrite Hin'.
    simpl. split; auto. unfold dict_mem.
    destruct (dict_get (language_data self) lang_code) eqn:E.
    + split; [now apply dict_get_del_same|]. split.
      { intros l' Hne. apply dict_get_del_other. congruence. }
      split; [now apply list_remove_length | apply list_remove_NoDup].
    + split; auto. split; auto.
      split; [now apply list_remove_length | apply list_remove_NoDup].
Qed.

(** Removing a language just added, which was neither active nor had a
    profile before, gives back the detector as it was. *)
Theorem add_then_remove self lang_code data :
  ~ In lang_code (languages self) ->
  ~ In lang_code (dict_keys (language_data self)) ->
  remove_language (add_language self lang_code data) lang_code = (self, true).
Proof.
  intros Hlang Hdata. unfold remove_language, add_language. simpl.
  apply lang_in_false in Hlang. rewrite Hlang.
  apply lang_in_false in Hlang.
  assert (lang_in lang_code (languages self ++ [lang_code]) = true) as ->.
  { apply lang_in_In. apply in_or_app. right. now left. }
  unfold dict_mem. rewrite dict_get_set_same.
  rewrite dict_set_fresh by assumption.
  rewrite dict_del_fresh by assumption.
  rewrite list_remove_fresh by assumption.
  now destruct self.
Qed.

(** ** The shape of the cleaned text *)

Section CleanText.

Context {U : Unicode}.

Lemma lstrip_decomp s :
  exists pre, s = pre ++ lstrip s /\ Forall (fun c => isspace c = true) pre.
Proof.
  induction s as [|c s [pre [Hs Hpre]]]; simpl.
  - exists []. split; auto.
  - destruct (isspace c) eqn:E.
    + exists (c :: pre). split; [simpl; now f_equal | now constructor].
    + exists []. split; auto.
Qed.

Lemma lstrip_first s : first_nonspace (lstrip s).
Proof.
  destruct (lstrip s) as [|c r] eqn:E; simpl; auto.
  eapply lstrip_head. exact E.
Qed.

(** [strip] cuts white space off both ends. *)
Lemma strip_decomp s :
  exists pre post,
    s = pre ++ strip s ++ post
    /\ Forall (fun c => isspace c = true) pre
    /\ Forall (fun c => isspace c = true) post
    /\ first_nonspace (strip s) /\ last_nonspace (strip s).
Proof.
  unfold strip, last_nonspace.
  destruct (lstrip_decomp s) as [pre [Hs Hpre]].
  destruct (lstrip_decomp (rev (lstrip s))) as [pre2 [Hr Hpre2]].
  pose proof (lstrip_first s) as Hfirst.
  pose proof (lstrip_first (rev (lstrip s))) as Hlast.
  set (t := lstrip (rev (lstrip s))) in *.
  assert (lstrip s = rev t ++ rev pre2) as Hl.
  { rewrite <- (rev_involutive (lstrip s)), Hr. apply rev_app_distr. }
  exists pre, (rev pre2). repeat split.
  - now rewrite <- Hl.
  - exact Hpre.
  - apply Forall_rev. exact Hpre2.
  - rewrite Hl in Hfirst. destruct (rev t); simpl in *; auto.
  - now rewrite rev_involutive.
Qed.

Lemma single_spaced_app_r a b : single_spaced (a ++ b) -> single_spaced b.
Proof. induction a as [|c a IH]; simpl; auto. intros [_ H]. auto. Qed.

Lemma single_spaced_app_l a b : single_spaced (a ++ b) -> single_spaced a.
Proof.
  induction a as [|c a IH]; simpl; auto.
  intros [H1 H2]. split; auto.
  intros Hc. specialize (H1 Hc). destruct a; simpl in *; auto.
Qed.

Lemma sub_whitespace_first text : first_nonspace (sub_whitespace text true).
Proof.
  induction text as [|c text IH]; simpl; auto.
  destruct (isspace c) eqn:E; simpl; auto.
Qed.

Lemma sub_whitespace_single text in_run :
  single_spaced (sub_whitespace text in_run).
Proof.
  revert in_run. induction text as [|c text IH]; intros in_run; simpl; auto.
  destruct (isspace c) eqn:E.
  - destruct in_run; auto. simpl. split; auto.
    intros _. apply sub_whitespace_first.
  - simpl. split; auto. congruence.
Qed.

Lemma sub_whitespace_chars (P : char -> Prop) text in_run :
  P space ->
  Forall (fun c => isspace c = false -> P c) text ->
  Forall P (sub_whitespace text in_run).
Proof.
  intros Hspace Hall. revert in_run.
  induction Hall as [|c text Hc Hall IH]; intros in_run; simpl; auto.
  destruct (isspace c) eqn:E.
  - destruct in_run; auto.
  - constructor; auto.
Qed.

Lemma clean_text_decomp text :
  exists pre post,
    sub_whitespace (sub_punctuation (str_lower text)) false
    = pre ++ _clean_text text ++ post.
Proof.
  unfold _clean_text.
  destruct (strip_decomp (sub_whitespace (sub_punctuation (str_lower text)) false))
    as [pre [post [H _]]].
  eauto.
Qed.

Lemma clean_text_normal text :
  Forall (fun c => is_word c = true \/ c = space) (_clean_text text)
  /\ Forall (fun c => isspace c = true -> c = space) (_clean_text text)
  /\ first_nonspace (_clean_text text)
  /\ last_nonspace (_clean_text text)
  /\ single_spaced (_clean_text text).
Proof.
  destruct (clean_text_decomp text) as [pre [post Hd]].
  set (raw := sub_whitespace (sub_punctuation (str_lower text)) false) in *.
  assert (Forall (fun c => is_word c = true \/ c = space) raw) as Hchars.
  { apply sub_whitespace_chars; auto.
    unfold sub_punctuation. apply Forall_forall. intros c Hc.
    apply in_map_iff in Hc. destruct Hc as [d [<- _]].
    destruct (is_word d) eqn:Ew; simpl; auto.
    destruct (isspace d) eqn:Es; simpl; auto.
    intros Hs. congruence. }
  assert (Forall (fun c => isspace c = true -> c = space) raw) as Hspaces.
  { apply sub_whitespace_chars; auto. apply Forall_forall. intros c _. congruence. }
  pose proof (sub_whitespace_single (sub_punctuation (str_lower text)) false) as Hsingle.
  fold raw in Hsingle. rewrite Hd in Hchars, Hspaces, Hsingle.
  apply Forall_app in Hchars, Hspaces.
  destruct Hchars as [_ Hchars]. destruct Hspaces as [_ Hspaces].
  apply Forall_app in Hchars, Hspaces.
  apply single_spaced_app_r, single_spaced_app_l in Hsingle.
  unfold _clean_text.
  destruct (strip_decomp raw) as [pre' [post' [_ [_ [_ [Hfirst Hlast]]]]]].
  repeat split; tauto.
Qed.

(** The cleaned text consists of word characters and of the space U+0020,
    its only white space; it neither begins nor ends with white space and
    has no two white-space characters in a row. *)
Theorem clean_text_shape text :
  Forall (fun c => is_word c = true \/ c = space) (_clean_text text)
  /\ Forall (fun c => isspace c = true -> c = space) (_clean_text text)
  /\ first_nonspace (_clean_text text)
  /\ last_nonspace (_clean_text text)
  /\ single_spaced (_clean_text text).
Proof. apply clean_text_normal. Qed.

Lemma last_nonspace_tail c s : last_nonspace (c :: s) -> last_nonspace s.
Proof.
  unfold last_nonspace. simpl. destruct (rev s); simpl; auto.
Qed.

Lemma join_cons sep w ws :
  ws <> [] -> join sep (w :: ws) = w ++ sep ++ join sep ws.
Proof. destruct ws; [contradiction | reflexivity]. Qed.

Lemma split_go_join s cur :
  single_spaced s ->
  Forall (fun c => isspace c = true -> c = space) s ->
  last_nonspace s ->
  cur <> [] \/ first_nonspace s ->
  join [space] (split_go s cur) = rev cur ++ s.
Proof.
  revert cur. induction s as [|c s IH]; intros cur Hsingle Hspaces Hlast Hstart.
  - simpl. destruct cur; simpl; auto. now rewrite app_nil_r.
  - inversion Hspaces as [|? ? Hc Hspaces']; subst.
    destruct Hsingle as [Hnext Hsingle].
    simpl. destruct (isspace c) eqn:E.
    + assert (cur <> []) as Hcur.
      { destruct Hstart as [H|H]; auto. simpl in H. congruence. }
      assert (s <> []) as Hs.
      { intros ->. unfold last_nonspace in Hlast. simpl in Hlast. congruence. }
      destruct cur as [|x cur]; [contradiction|]. cbn [is_empty].
      rewrite join_cons.
      * rewrite IH; auto.
        -- rewrite (Hc eq_refl). reflexivity.
        -- now apply (last_nonspace_tail c).
      * apply split_go_nonempty. right.
        specialize (Hnext eq_refl). destruct s as [|d s]; [contradiction|].
        exists d. split; [now left | exact Hnext].
    + rewrite IH; auto.
      * simpl. now rewrite <- app_assoc.
      * now apply (last_nonspace_tail c).
      * left. discriminate.
Qed.

Lemma clean_text_rejoin text :
  join [space] (split (_clean_text text)) = _clean_text text.
Proof.
  destruct (clean_text_normal text) as [_ [Hspaces [Hfirst [Hlast Hsingle]]]].
  unfold split. now rewrite split_go_join by auto.
Qed.

(** The cleaned text is its tokens joined by single spaces. *)
Theorem clean_text_join text :
  join [space] (split (_clean_text text)) = _clean_text text.
Proof. apply clean_text_rejoin. Qed.

Lemma split_go_tokens (P : char -> Prop) s cur :
  Forall P cur ->
  Forall (fun c => isspace c = false -> P c) s ->
  Forall (fun w => w <> [] /\ Forall P w) (split_go s cur).
Proof.
  intros Hcur Hs. revert cur Hcur.
  induction Hs as [|c s Hc Hs IH]; intros cur Hcur; simpl.
  - destruct cur as [|x cur]; simpl; constructor; auto. split.
    + intros H. apply (f_equal (@length char)) in H.
      rewrite length_app in H. simpl in H. lia.
    + apply Forall_rev in Hcur. exact Hcur.
  - destruct (isspace c) eqn:E.
    + destruct cur as [|x cur]; simpl; auto. constructor; auto. split.
      * intros H. apply (f_equal (@length char)) in H.
        rewrite length_app in H. simpl in H. lia.
      * apply Forall_rev in Hcur. exact Hcur.
    + apply IH. constructor; auto.
Qed.

(** When U+0020 counts as white space, every token of the cleaned text is a
    non-empty string of word characters. *)
Theorem clean_text_tokens text :
  isspace space = true ->
  Forall (fun w => w <> [] /\ Forall (fun c => is_word c = true) w)
    (split (_clean_text text)).
Proof.
  intros Hspace. destruct (clean_text_normal text) as [Hchars _].
  unfold split. apply split_go_tokens; auto.
  eapply Forall_impl; [|exact Hchars].
  intros c [H | ->] Hc; auto. congruence.
Qed.

End CleanText.

(** ** What the counting extractors return *)

Lemma list_sum_indicator {X} (f : X -> bool) (l : list X) :
  list_sum (map (fun x => if f x then 1 else 0) l) = length (filter f l).
Proof.
  induction l as [|x l IH]; simpl; auto.
  destruct (f x); simpl; now rewrite IH.
Qed.

Lemma for_each_app {S X} (l1 l2 : list X) (body : S -> X -> exc S) (s : S) :
  for_each (l1 ++ l2) body s = (s' <- for_each l1 body s ;; for_each l2 body s').
Proof.
  revert s. induction l1 as [|x l1 IH]; intros s; simpl; auto.
  destruct (body s x); simpl; auto.
Qed.

Section Counts.

Context {U : Unicode}.

Lemma word_endings_fold_get self words (scores : dict nat) k :
  NoDup (dict_keys (language_data self)) ->
  incl (dict_keys (language_data self)) (dict_keys scores) ->
  (forall ld, In (k, ld) (language_data self) ->
     dict_get (fold_left (word_endings_step self) words scores) k
     = Some (dict_get_default scores k 0 + list_sum (map (long_ending_hit ld) words)))
  /\ (~ In k (dict_keys (language_data self)) ->
      dict_get (fold_left (word_endings_step self) words scores) k
      = dict_get scores k).
Proof.
  intros Hnd. revert scores.
  induction words as [|w words IH]; intros scores Hincl; cbn [fold_left map].
  - split; [|reflexivity]. intros ld Hin.
    assert (In k (dict_keys scores)) as Hk.
    { apply Hincl. change k with (fst (k, ld)). now apply in_map. }
    unfold dict_get_default. simpl.
    destruct (dict_get scores k) eqn:E; [now rewrite Nat.add_0_r|].
    apply dict_get_none_keys in E. contradiction.
  - assert (incl (dict_keys (language_data self))
              (dict_keys (word_endings_step self scores w))) as Hincl'.
    { unfold word_endings_step. destruct (length w <? 3); auto.
      now rewrite tally_keys. }
    destruct (IH _ Hincl') as [IH1 IH2]. split.
    + intros ld Hin. rewrite (IH1 ld Hin). f_equal.
      unfold word_endings_step, long_ending_hit at 2.
      destruct (length w <? 3); simpl; [lia|].
      unfold dict_get_default at 1. rewrite (tally_get _ _ _ k ld) by assumption.
      lia.
    + intros Hnotin. rewrite (IH2 Hnotin).
      unfold word_endings_step. destruct (length w <? 3); auto.
      now apply tally_get_absent.
Qed.

Lemma tally_fold_get self (hit : str -> LanguageData -> nat) words
    (scores : dict nat) k :
  NoDup (dict_keys (language_data self)) ->
  incl (dict_keys (language_data self)) (dict_keys scores) ->
  (forall ld, In (k, ld) (language_data self) ->
     dict_get
       (fold_left (fun scores word => tally (language_data self) (hit word) scores)
          words scores) k
     = Some (dict_get_default scores k 0
             + list_sum (map (fun word => hit word ld) words)))
  /\ (~ In k (dict_keys (language_data self)) ->
      dict_get
        (fold_left (fun scores word => tally (language_data self) (hit word) scores)
           words scores) k
      = dict_get scores k).
Proof.
  intros Hnd. revert scores.
  induction words as [|w words IH]; intros scores Hincl; cbn [fold_left map].
  - split; [|reflexivity]. intros ld Hin.
    assert (In k (dict_keys scores)) as Hk.
    { apply Hincl. change k with (fst (k, ld)). now apply in_map. }
    unfold dict_get_default. simpl.
    destruct (dict_get scores k) eqn:E; [now rewrite Nat.add_0_r|].
    apply dict_get_none_keys in E. contradiction.
  - assert (incl (dict_keys (language_data self))
              (dict_keys (tally (language_data self) (hit w) scores))) as Hincl'
      by (now rewrite tally_keys).
    destruct (IH _ Hincl') as [IH1 IH2]. split.
    + intros ld Hin. rewrite (IH1 ld Hin). f_equal.
      unfold dict_get_default at 1. rewrite (tally_get _ _ _ k ld) by assumption.
      simpl. lia.
    + intros Hnotin. rewrite (IH2 Hnotin). now apply tally_get_absent.
Qed.

Lemma initial_scores_get self lang :
  In lang (languages self) -> dict_get (initial_scores self) lang = Some 0.
Proof. apply dict_from_keys_get. Qed.

Lemma profile_language_active self lang ld :
  wf_detector self -> In (lang, ld) (language_data self) -> In lang (languages self).
Proof.
  intros [_ Hincl] Hin. apply Hincl.
  change lang with (fst (lang, ld)). now apply in_map.
Qed.

(** [_check_word_endings] gives a language with a profile the number of
    words of at least three characters that end in one of its endings, each
    word counting once however many endings fit, and gives an active
    language without profile zero. *)
Theorem word_endings_count self words :
  wf_detector self ->
  exists scores,
    _check_word_endings self words = Ok scores
    /\ (forall lang ld,
          In (lang, ld) (language_data self) ->
          dict_get scores lang
          = Some (length
                    (filter (fun word =>
                               negb (length word <? 3)
                               && existsb (endswith word) (word_endings ld))
                       words)))
    /\ (forall lang,
          In lang (languages self) ->
          ~ In lang (dict_keys (language_data self)) ->
          dict_get scores lang = Some 0).
Proof.
  intros Hwf. pose proof Hwf as [Hnd Hincl].
  destruct (check_word_endings_tally self words Hincl) as [-> _].
  eexists. split; [reflexivity|]. split.
  - intros lang ld Hin.
    destruct (word_endings_fold_get self words (initial_scores self) lang Hnd
                (initial_scores_incl self Hincl)) as [H _].
    rewrite (H ld Hin). unfold dict_get_default.
    rewrite initial_scores_get by (eapply profile_language_active; eauto).
    simpl. f_equal. rewrite <- list_sum_indicator. f_equal.
    apply map_ext. intros w. unfold long_ending_hit, ending_hit.
    destruct (length w <? 3); reflexivity.
  - intros lang Hlang Hnotin.
    destruct (word_endings_fold_get self words (initial_scores self) lang Hnd
                (initial_scores_incl self Hincl)) as [_ H].
    rewrite (H Hnotin). now apply initial_scores_get.
Qed.

(** [_check_marker_words] gives a language with a profile the number of
    words whose lowercase form is one of its marker words, and gives an
    active language without profile zero. *)
Theorem marker_words_count self words :
  wf_detector self ->
  exists scores,
    _check_marker_words self words = Ok scores
    /\ (forall lang ld,
          In (lang, ld) (language_data self) ->
          dict_get scores lang
          = Some (length
                    (filter (fun word => str_in (str_lower word) (marker_words ld))
                       words)))
    /\ (forall lang,
          In lang (languages self) ->
          ~ In lang (dict_keys (language_data self)) ->
          dict_get scores lang = Some 0).
Proof.
  intros Hwf. pose proof Hwf as [Hnd Hincl].
  destruct (check_marker_words_tally self words Hincl) as [-> _].
  eexists. split; [reflexivity|]. split.
  - intros lang ld Hin.
    destruct (tally_fold_get self marker_hit (map str_lower words)
                (initial_scores self) lang Hnd (initial_scores_incl self Hincl))
      as [H _].
    rewrite (H ld Hin). unfold dict_get_default.
    rewrite initial_scores_get by (eapply profile_language_active; eauto).
    simpl. f_equal. rewrite map_map. unfold marker_hit.
    apply (list_sum_indicator (fun word => str_in (str_lower word) (marker_words ld))).
  - intros lang Hlang Hnotin.
    destruct (tally_fold_get self marker_hit (map str_lower words)
                (initial_scores self) lang Hnd (initial_scores_incl self Hincl))
      as [_ H].
    rewrite (H Hnotin). now apply initial_scores_get.
Qed.

End Counts.

(** ** Folds that fill a dictionary *)

Lemma fold_dict_set_lookup {A V} (f : string -> A -> V) (l : dict A) (acc : dict V) k :
  NoDup (dict_keys l) ->
  dict_get (fold_left (fun scores '(k, a) => dict_set scores k (f k a)) l acc) k
  = match dict_get l k with
    | Some a => Some (f k a)
    | None => dict_get acc k
    end.
Proof.
  intros Hnd. revert acc.
  induction l as [|[k0 a0] l IH]; intros acc; simpl; auto.
  inversion Hnd as [|? ? Hnotin Hnd']; subst.
  rewrite IH by assumption.
  destruct (String.eqb k0 k) eqn:E.
  - apply String.eqb_eq in E. subst k0.
    apply dict_get_none_keys in Hnotin. rewrite Hnotin.
    apply dict_get_set_same.
  - apply String.eqb_neq in E.
    destruct (dict_get l k); auto. now apply dict_get_set_other.
Qed.

Lemma fold_dict_set_keys {A V} (f : string -> A -> V) (l : dict A) (acc : dict V) k :
  In k (dict_keys (fold_left (fun scores '(k, a) => dict_set scores k (f k a)) l acc))
  -> In k (dict_keys l) \/ In k (dict_keys acc).
Proof.
  revert acc. induction l as [|[k0 a0] l IH]; intros acc; simpl; auto.
  intros H. apply IH in H. destruct H as [H|H]; auto.
  apply dict_keys_set in H. destruct H as [->|H]; auto.
Qed.

Lemma fold_dict_set_keys_NoDup {A V} (f : string -> A -> V) (l : dict A)
    (acc : dict V) :
  NoDup (dict_keys acc) ->
  NoDup (dict_keys (fold_left (fun scores '(k, a) => dict_set scores k (f k a)) l acc)).
Proof.
  revert acc. induction l as [|[k0 a0] l IH]; intros acc Hnd; simpl; auto.
  apply IH. now apply dict_set_NoDup.
Qed.

Lemma dict_del_In {V} (d : dict V) k x : In x (dict_del d k) -> In x d.
Proof.
  induction d as [|[k0 v0] d IH]; simpl; auto.
  destruct (String.eqb k0 k); simpl; intuition.
Qed.

Section Answers.

Context {U : Unicode}.

Lemma fast_path_key self cleaned_text lang :
  fast_path (_count_unique_letters self cleaned_text) = Some lang ->
  In lang (dict_keys (language_data self)).
Proof.
  intros H. apply fast_path_sole in H. destruct H as [[score [Hin _]] _].
  assert (In lang (dict_keys (_count_unique_letters self cleaned_text))) as Hk.
  { change lang with (fst (lang, score)). now apply in_map. }
  unfold _count_unique_letters in Hk.
  apply (fold_dict_set_keys
           (fun _ lang_data => count_letters (unique_letters lang_data) cleaned_text))
    in Hk.
  destruct Hk as [Hk|[]]. exact Hk.
Qed.

End Answers.

(** ** The statistics of a report *)

Lemma Qdiv_mult_cancel x t : ~ (t == 0)%Q -> (x / t * t == x)%Q.
Proof.
  intros Ht. unfold Qdiv.
  rewrite <- Qmult_assoc, (Qmult_comm (/ t)), Qmult_inv_r by assumption.
  apply Qmult_1_r.
Qed.

Lemma Qnat_plus a b : (Qnat (a + b) == Qnat a + Qnat b)%Q.
Proof. unfold Qnat. now rewrite Nat2Z.inj_add, inject_Z_plus. Qed.

Lemma join_length ws :
  ws <> [] ->
  length (join [space] ws) + 1 = list_sum (map (@length char) ws) + length ws.
Proof.
  induction ws as [|w ws IH]; [contradiction|]. intros _.
  destruct ws as [|w' ws].
  - simpl. lia.
  - rewrite join_cons by discriminate.
    rewrite !length_app. cbn [map list_sum fold_right length] in *.
    specialize (IH ltac:(discriminate)). lia.
Qed.

Section Reports.

Context {U : Unicode}.

Lemma analyze_report_fields self text report :
  analyze self text = Ok (AnalyzeReport report) ->
  exists s m,
    text = PyStr s /\ _clean_text s <> []
    /\ outcome (min_confidence self) (metric_scores self m) = Ok (result report)
    /\ scores report = metric_scores self m
    /\ top_languages report = top_of (metric_scores self m)
    /\ stats report = stats_of s (_clean_text s) (split (_clean_text s)).
Proof.
  intros Hreport.
  destruct (analyze_report_inv self text report Hreport) as [s [-> Hclean]].
  rewrite analyze_cleaned in Hreport by assumption.
  destruct (all_metrics self (_clean_text s) (split (_clean_text s)))
    as [m|e]; simpl in Hreport; [|discriminate].
  destruct (outcome (min_confidence self) (metric_scores self m))
    as [r|e] eqn:Hr; simpl in Hreport; [|discriminate].
  injection Hreport as <-. exists s, m. simpl. repeat split; auto.
Qed.

(** The statistics of a report of [analyze] fit together: there is at least
    one word, and the cleaned length is the number of characters in words
    (the mean word length times the word count) plus the separating
    spaces, one less than the word count. *)
Theorem analyze_stats_consistent self text report :
  analyze self text = Ok (AnalyzeReport report) ->
  1 <= word_count (stats report)
  /\ (average_word_length (stats report) * Qnat (word_count (stats report))
      + Qnat (word_count (stats report))
      == Qnat (cleaned_length (stats report)) + 1)%Q.
Proof.
  intros Hreport.
  destruct (analyze_report_fields self text report Hreport)
    as [s [m [_ [Hclean [_ [_ [_ Hstats]]]]]]].
  rewrite Hstats. unfold stats_of. simpl.
  pose proof (clean_text_split_nonempty s Hclean) as Hwords.
  pose proof (clean_text_rejoin s) as Hjoin.
  destruct (split (_clean_text s)) as [|w ws] eqn:Hsplit; [contradiction|].
  split; [simpl; lia|].
  cbn [is_empty].
  rewrite Qdiv_mult_cancel.
  - rewrite <- Hjoin, <- Qnat_plus.
    change 1%Q with (Qnat 1). rewrite <- Qnat_plus.
    rewrite join_length by discriminate. reflexivity.
  - unfold Qnat, Qeq. simpl. lia.
Qed.

End Reports.

(** ** A profile outside the active languages *)

Section MissingKey.

Context {U : Unicode}.

(** When a profile stands under a name that is not an active language (the
    profiles before it being in order) and lists at least one digram,
    [_check_ngrams] raises [KeyError] for that name, and so does [detect]
    raise on every text with a token that does not take the fast path. *)
Theorem orphan_profile_raises self text before lang_code lang_data after :
  language_data self = before ++ (lang_code, lang_data) :: after ->
  incl (dict_keys before) (languages self) ->
  ~ In lang_code (languages self) ->
  digrams lang_data <> [] ->
  _check_ngrams self text 2 = Raise (KeyError lang_code)
  /\ (split (_clean_text text) <> [] ->
      fast_path (_count_unique_letters self (_clean_text text)) = None ->
      exists e, detect self (PyStr text) = Raise e).
Proof.
  intros Hdata Hbefore Horphan Hdigrams.
  assert (forall t, _check_ngrams self t 2 = Raise (KeyError lang_code)) as Hraise.
  { intros t. unfold _check_ngrams. rewrite Hdata, for_each_app.
    rewrite (for_each_tally _ (ngram_hits t 2) before).
    - cbn [bind for_each]. cbn [Nat.eqb].
      destruct (digrams lang_data) as [|d ds]; [contradiction|].
      cbn [for_each]. unfold dict_incr.
      assert (dict_get
                (tally before (ngram_hits t 2) (dict_from_keys (languages self) 0))
                lang_code = None) as ->; [|reflexivity].
      apply dict_get_none_keys. rewrite tally_keys.
      + intros H. now apply dict_from_keys_keys in H.
      + intros k Hk. apply dict_from_keys_keys. now apply Hbefore.
    - intros scores k ld Hk. cbn [Nat.eqb]. now apply for_each_incr.
    - intros k Hk. apply dict_from_keys_keys. now apply Hbefore. }
  split; [apply Hraise|].
  intros Hwords Hfast. rewrite detect_tokens by assumption. rewrite Hfast.
  unfold all_metrics.
  destruct (_check_word_endings self _); simpl; eauto.
  destruct (_check_marker_words self _); simpl; eauto.
  rewrite Hraise. simpl. eauto.
Qed.

End MissingKey.

(** ** The two-language classifier by itself *)

Lemma Qshare_bounds a b :
  (0 <= b)%Q -> (b <= a)%Q -> ~ (a + b == 0)%Q ->
  ((1 # 2) <= a / (a + b) <= 1)%Q.
Proof.
  intros Hb Hba Hne.
  assert (0 < a + b)%Q as Hpos.
  { apply Qnot_le_lt. intros Hle. apply Hne. lra. }
  split.
  - apply Qle_shift_div_l; auto. lra.
  - apply Qle_shift_div_r; auto. lra.
Qed.

Lemma fast_path_two a b :
  fast_path [("russian", a); ("ukrainian", b)]
  = if (0 <? a) && (b =? 0) then Some "russian"
    else if (0 <? b) && (a =? 0) then Some "ukrainian"
    else None.
Proof. destruct a, b; reflexivity. Qed.

Section LangLibAlone.

Context {U : Unicode}.

Lemma langlib_score_nonneg p freq cleaned_text words :
  (0 <= langlib_score p freq cleaned_text words)%Q.
Proof.
  unfold langlib_score, LangLib.score.
  repeat apply Qplus_nonneg_compat; try apply Qnat_nonneg;
    apply Qmult_le_0_compat; try apply Qnat_nonneg; unfold Qle; simpl; lia.
Qed.

(** [LangLib.get_confidence] answers unknown with confidence 0, or one of
    its two languages with a confidence between one half and 1. *)
Theorem langlib_confidence_range text :
  let a := LangLib.answer (LangLib.get_confidence text) in
  a = unknown_result
  \/ ((language a = "russian" \/ language a = "ukrainian")
      /\ ((1 # 2) <= confidence a <= 1)%Q).
Proof.
  intros a. unfold a. clear a.
  assert (empty_input text \/
          exists s, text = PyStr s /\ split (_clean_text s) <> []) as [Hempty|Hfull].
  { destruct text as [s|b]; [|left; right; left; reflexivity].
    destruct (split (_clean_text s)) eqn:Hsplit.
    - left. right. right. right. exact Hsplit.
    - right. exists s. split; auto. rewrite Hsplit. discriminate. }
  - left. now rewrite langlib_get_confidence_empty.
  - destruct Hfull as [s [-> Hwords]].
    rewrite langlib_get_confidence_tokens by assumption.
    set (ru := langlib_score russian_profile _ _ _).
    set (uk := langlib_score ukrainian_profile _ _ _).
    assert (0 <= ru)%Q as Hru by apply langlib_score_nonneg.
    assert (0 <= uk)%Q as Huk by apply langlib_score_nonneg.
    unfold two_language_answer.
    destruct (Qeq_bool (ru + uk) 0) eqn:Hzero; [now left|].
    apply Qeq_bool_false_neq in Hzero. right.
    destruct (Qltb uk ru) eqn:Hlt; simpl.
    + apply Qltb_lt in Hlt. split; [now left|].
      apply Qshare_bounds; [exact Huk | exact (Qlt_le_weak _ _ Hlt) | exact Hzero].
    + apply Qltb_ge in Hlt. split; [now right|].
      assert (uk / (ru + uk) == uk / (uk + ru))%Q as ->
        by (apply Qdiv_comp; [reflexivity | ring]).
      apply Qshare_bounds; [exact Hru | exact Hlt |].
      intros H. apply Hzero. rewrite <- H. ring.
Qed.

Lemma langlib_detect_language_tokens text :
  split (_clean_text text) <> [] ->
  LangLib.detect_language (PyStr text)
  = let ru_unique := count_letters (unique_letters russian_profile) (_clean_text text) in
    let uk_unique := count_letters (unique_letters ukrainian_profile) (_clean_text text) in
    let russian :=
      langlib_score russian_profile
        (count_letters LangLib.ru_frequent (_clean_text text))
        (_clean_text text) (split (_clean_text text)) in
    let ukrainian :=
      langlib_score ukrainian_profile
        (count_letters (frequent_letters ukrainian_profile) (_clean_text text))
        (_clean_text text) (split (_clean_text text)) in
    if (0 <? ru_unique) && (uk_unique =? 0) then "russian"
    else if (0 <? uk_unique) && (ru_unique =? 0) then "ukrainian"
    else if Qltb ukrainian russian then "russian"
    else if Qltb russian ukrainian then "ukrainian"
    else "unknown".
Proof.
  intros Hwords. unfold LangLib.detect_language.
  destruct text as [|c text].
  { rewrite clean_text_nil in Hwords. now contradiction Hwords. }
  simpl truthy. simpl isinstance_str. simpl as_str. simpl negb. simpl orb. cbv iota.
  change (LangLib._clean_text (c :: text)) with (_clean_text (c :: text)).
  destruct (_clean_text (c :: text)) as [|c' cleaned] eqn:Hclean.
  { now contradiction Hwords. }
  simpl is_empty. cbv iota.
  destruct (split (c' :: cleaned)) as [|w ws] eqn:Hsplit; [congruence|].
  simpl is_empty. cbv iota.
  rewrite langlib_unique_letters, langlib_frequent_letters, langlib_word_endings,
    langlib_marker_words, langlib_digrams.
  reflexivity.
Qed.

(** Where the unique letters do not decide: [LangLib.detect_language]
    names the language of [LangLib.get_confidence], except on a tie of
    positive scores, where it answers unknown while [get_confidence]
    answers ukrainian with confidence one half. *)
Theorem langlib_detect_language_consistent text :
  split (_clean_text text) <> [] ->
  fast_path (_count_unique_letters default_detector (_clean_text text)) = None ->
  let a := LangLib.answer (LangLib.get_confidence (PyStr text)) in
  LangLib.detect_language (PyStr text) = language a
  \/ (LangLib.detect_language (PyStr text) = "unknown"
      /\ language a = "ukrainian" /\ (confidence a == 1 # 2)%Q).
Proof.
  intros Hwords Hfast a. unfold a. clear a.
  rewrite langlib_detect_language_tokens, langlib_get_confidence_tokens by assumption.
  rewrite (two_unique_letters default_detector russian_profile ukrainian_profile
             default_language_data), fast_path_two in Hfast.
  cbv zeta.
  set (ru_unique := count_letters (unique_letters russian_profile) _) in *.
  set (uk_unique := count_letters (unique_letters ukrainian_profile) _) in *.
  revert Hfast.
  destruct ((0 <? ru_unique) && (uk_unique =? 0)); [intros [=]|].
  destruct ((0 <? uk_unique) && (ru_unique =? 0)); [intros [=]|].
  intros _.
  set (ru := langlib_score russian_profile _ _ _).
  set (uk := langlib_score ukrainian_profile _ _ _).
  assert (0 <= ru)%Q as Hru by apply langlib_score_nonneg.
  assert (0 <= uk)%Q as Huk by apply langlib_score_nonneg.
  unfold two_language_answer.
  destruct (Qltb uk ru) eqn:Hlt.
  - apply Qltb_lt in Hlt.
    assert (Qeq_bool (ru + uk) 0 = false) as ->.
    { destruct (Qeq_bool (ru + uk) 0) eqn:E; auto.
      apply Qeq_bool_iff in E. lra. }
    now left.
  - apply Qltb_ge in Hlt. destruct (Qltb ru uk) eqn:Hlt'.
    + apply Qltb_lt in Hlt'.
      assert (Qeq_bool (ru + uk) 0 = false) as ->.
      { destruct (Qeq_bool (ru + uk) 0) eqn:E; auto.
        apply Qeq_bool_iff in E. lra. }
      now left.
    + apply Qltb_ge in Hlt'.
      destruct (Qeq_bool (ru + uk) 0) eqn:E; [now left|].
      apply Qeq_bool_false_neq in E. right. simpl. repeat split.
      assert (ru == uk)%Q as Heq by lra.
      assert (0 < uk)%Q as Hpos.
      { apply Qnot_le_lt. intros Hle. apply E. lra. }
      rewrite Heq.
      apply Qmult_inj_r with (uk + uk)%Q; [lra|].
      rewrite Qdiv_mult_cancel by lra. lra.
Qed.

(** Whenever the default detector takes its fast path,
    [LangLib.detect_language] names the same language. *)
Theorem langlib_shortcut_agrees text lang :
  split (_clean_text text) <> [] ->
  fast_path (_count_unique_letters default_detector (_clean_text text)) = Some lang ->
  LangLib.detect_language (PyStr text) = lang
  /\ detect default_detector (PyStr text)
     = Ok {| language := lang; confidence := (95 # 100)%Q |}.
Proof.
  intros Hwords Hfast. split.
  - rewrite langlib_detect_language_tokens by assumption.
    rewrite (two_unique_letters default_detector russian_profile ukrainian_profile
               default_language_data), fast_path_two in Hfast.
    cbv zeta.
    set (ru_unique := count_letters (unique_letters russian_profile) _) in *.
    set (uk_unique := count_letters (unique_letters ukrainian_profile) _) in *.
    revert Hfast.
    destruct ((0 <? ru_unique) && (uk_unique =? 0)); [now intros [= <-]|].
    destruct ((0 <? uk_unique) && (ru_unique =? 0)); [now intros [= <-]|intros [=]].
  - rewrite detect_tokens by assumption. now rewrite Hfast.
Qed.

(** [LangLib.analyze_text] rejects a value that is empty or not a string.
    A string that leaves nothing after cleaning gets a report all the same:
    the unknown answer of [get_confidence] and zero words with mean length
    0.  Otherwise the report holds the answer of [get_confidence] and
    statistics that fit together as those of [analyze]. *)
Theorem langlib_analyze_text_report text :
  (truthy text = false \/ isinstance_str text = false ->
   LangLib.analyze_text text = LangLib.TextError "Empty or invalid text")
  /\ (truthy text = true -> isinstance_str text = true ->
      exists stats,
        LangLib.analyze_text text = LangLib.TextReport (LangLib.get_confidence text) stats
        /\ text_length stats = length (as_str text)
        /\ (_clean_text (as_str text) = [] ->
            LangLib.get_confidence text = LangLib.unknown_confidence
            /\ cleaned_length stats = 0 /\ word_count stats = 0
            /\ average_word_length stats = 0%Q)
        /\ (_clean_text (as_str text) <> [] ->
            1 <= word_count stats
            /\ (average_word_length stats * Qnat (word_count stats)
                + Qnat (word_count stats)
                == Qnat (cleaned_length stats) + 1)%Q)).
Proof.
  unfold LangLib.analyze_text. split.
  - intros [H|H]; rewrite H; simpl; auto. now rewrite orb_true_r.
  - intros Ht Hs. rewrite Ht, Hs. simpl negb. simpl orb. cbv iota.
    change (LangLib._clean_text (as_str text)) with (_clean_text (as_str text)).
    eexists. split; [reflexivity|]. cbn [text_length cleaned_length word_count
                                          average_word_length].
    split; [reflexivity|]. split.
    + intros Hclean. rewrite Hclean. simpl. repeat split; auto.
      apply langlib_get_confidence_empty. right. right. left. exact Hclean.
    + intros Hclean.
      pose proof (clean_text_split_nonempty _ Hclean) as Hwords.
      pose proof (clean_text_rejoin (as_str text)) as Hjoin.
      destruct (_clean_text (as_str text)) as [|c cleaned] eqn:Hc; [contradiction|].
      cbn [is_empty].
      destruct (split (c :: cleaned)) as [|w ws] eqn:Hsplit; [contradiction|].
      split; [simpl; lia|]. cbn [is_empty].
      rewrite Qdiv_mult_cancel.
      * rewrite <- Hjoin, <- Qnat_plus.
        change 1%Q with (Qnat 1). rewrite <- Qnat_plus.
        rewrite join_length by discriminate. reflexivity.
      * unfold Qnat, Qeq. simpl. lia.
Qed.

End LangLibAlone.

(** ** Runs of the further properties *)

Lemma remove_language_effect_witness :
  snd (remove_language default_detector "ukrainian") = true
  /\ dict_get (language_data (fst (remove_language default_detector "ukrainian")))
       "ukrainian" = None
  /\ ~ In "ukrainian" (languages (fst (remove_language default_detector "ukrainian"))).
Proof.
  destruct (remove_language_effect default_detector "ukrainian"
              (proj1 default_detector_wf)) as [_ H].
  destruct H as [Hflag [Hgone [_ [_ Hlist]]]].
  - vm_compute. right. left. reflexivity.
  - split; [exact Hflag|]. split; [exact Hgone|].
    apply Hlist. vm_compute. repeat constructor; simpl; intuition discriminate.
Defined.

Lemma add_then_remove_witness :
  remove_language (add_language default_detector "german" ukrainian_data) "german"
  = (default_detector, true).
Proof.
  apply (add_then_remove default_detector "german" ukrainian_data).
  - vm_compute. intuition discriminate.
  - vm_compute. intuition discriminate.
Defined.

Lemma clean_text_tokens_witness :
  Forall (fun w => w <> [] /\ Forall (fun c => is_word c = true) w)
    (split (_clean_text (u "мама, пошла домой!"))).
Proof.
  apply (clean_text_tokens (u "мама, пошла домой!")). reflexivity.
Defined.

Lemma word_endings_count_witness :
  exists scores,
    _check_word_endings default_detector (split (u "мама пошла домой")) = Ok scores
    /\ dict_get scores "russian"
       = Some (length
                 (filter (fun word =>
                            negb (length word <? 3)
                            && existsb (endswith word) (word_endings russian_profile))
                    (split (u "мама пошла домой")))).
Proof.
  destruct (word_endings_count default_detector (split (u "мама пошла домой"))
              default_detector_wf) as [scores [Hscores [Hloaded _]]].
  exists scores. split; [exact Hscores|].
  apply Hloaded. vm_compute. left. reflexivity.
Defined.

Lemma marker_words_count_witness :
  exists scores,
    _check_marker_words default_detector (split (u "это не то")) = Ok scores
    /\ dict_get scores "russian"
       = Some (length
                 (filter (fun word =>
                            str_in (str_lower word) (marker_words russian_profile))
                    (split (u "это не то")))).
Proof.
  destruct (marker_words_count default_detector (split (u "это не то"))
              default_detector_wf) as [scores [Hscores [Hloaded _]]].
  exists scores. split; [exact Hscores|].
  apply Hloaded. vm_compute. left. reflexivity.
Defined.

Lemma analyze_stats_consistent_witness :
  exists report,
    analyze default_detector (PyStr (u "мама пошла домой"))
    = Ok (AnalyzeReport report)
    /\ 1 <= word_count (stats report).
Proof.
  eexists.
  assert (analyze default_detector (PyStr (u "мама пошла домой"))
          = Ok (AnalyzeReport _)) as Ha
    by (vm_compute; reflexivity).
  split; [exact Ha|].
  exact (proj1 (analyze_stats_consistent default_detector
                  (PyStr (u "мама пошла домой")) _ Ha)).
Defined.

Lemma orphan_profile_raises_witness :
  _check_ngrams orphan_detector (u "на") 2 = Raise (KeyError "ukrainian")
  /\ exists e, detect orphan_detector (PyStr (u "на")) = Raise e.
Proof.
  destruct (orphan_profile_raises orphan_detector (u "на")
              [("russian", russian_profile)] "ukrainian" ukrainian_profile [])
    as [Hngrams Hdetect].
  - reflexivity.
  - intros k [<-|[]]. left. reflexivity.
  - vm_compute. intuition discriminate.
  - vm_compute. discriminate.
  - split; [exact Hngrams|]. apply Hdetect.
    + vm_compute. discriminate.
    + vm_compute. reflexivity.
Defined.

Lemma langlib_detect_language_consistent_witness :
  LangLib.detect_language (PyStr (u "мама пошла домой"))
  = language (LangLib.answer (LangLib.get_confidence (PyStr (u "мама пошла домой"))))
  \/ (LangLib.detect_language (PyStr (u "мама пошла домой")) = "unknown"
      /\ language (LangLib.answer
                     (LangLib.get_confidence (PyStr (u "мама пошла домой"))))
         = "ukrainian"
      /\ (confidence (LangLib.answer
                        (LangLib.get_confidence (PyStr (u "мама пошла домой"))))
          == 1 # 2)%Q).
Proof.
  apply (langlib_detect_language_consistent (u "мама пошла домой")).
  - vm_compute. discriminate.
  - vm_compute. reflexivity.
Defined.

Lemma langlib_shortcut_agrees_witness :
  LangLib.detect_language (PyStr (u "это")) = "russian"
  /\ detect default_detector (PyStr (u "это"))
     = Ok {| language := "russian"; confidence := (95 # 100)%Q |}.
Proof.
  apply (langlib_shortcut_agrees (u "это") "russian").
  - vm_compute. discriminate.
  - vm_compute. reflexivity.
Defined.

(** * The scores in floating point *)

(** ** Float arithmetic *)

Lemma float_overflow_large : (1 < float_overflow)%Q.
Proof. unfold float_overflow, Qlt. simpl. reflexivity. Qed.

Lemma Qle_bool_false a b : Qle_bool a b = false <-> (b < a)%Q.
Proof.
  split.
  - intros H. apply Qnot_le_lt. intros Hle. apply Qle_bool_iff in Hle. congruence.
  - intros H. destruct (Qle_bool a b) eqn:E; auto.
    apply Qle_bool_iff in E. exfalso. now apply (Qlt_not_le b a).
Qed.

Lemma Qeq_bool_false a b : Qeq_bool a b = false <-> ~ (a == b)%Q.
Proof.
  split.
  - intros H E. apply Qeq_bool_iff in E. congruence.
  - intros H. destruct (Qeq_bool a b) eqn:E; auto.
    apply Qeq_bool_iff in E. contradiction.
Qed.

(** Boolean tests on rationals as propositions, for [lra]. *)
Ltac q_props :=
  repeat match goal with
  | H : Qltb _ _ = true |- _ => apply Qltb_lt in H
  | H : Qltb _ _ = false |- _ => apply Qltb_ge in H
  | H : Qle_bool _ _ = true |- _ => apply Qle_bool_iff in H
  | H : Qle_bool _ _ = false |- _ => apply Qle_bool_false in H
  | H : Qeq_bool _ _ = true |- _ => apply Qeq_bool_iff in H
  | H : Qeq_bool _ _ = false |- _ => apply Qeq_bool_false in H
  | |- Qltb _ _ = true => apply Qltb_lt
  | |- Qltb _ _ = false => apply Qltb_ge
  | |- Qle_bool _ _ = true => apply Qle_bool_iff
  | |- Qle_bool _ _ = false => apply Qle_bool_false
  | |- Qeq_bool _ _ = true => apply Qeq_bool_iff
  | |- Qeq_bool _ _ = false => apply Qeq_bool_false
  end.

Lemma float_of_Q_in_range q : in_float_range q -> float_of_Q q = Finite q.
Proof.
  intros [Hlo Hhi]. unfold float_of_Q.
  assert (Qle_bool float_overflow q = false) as -> by (q_props; exact Hhi).
  assert (Qle_bool q (- float_overflow) = false) as -> by (q_props; exact Hlo).
  reflexivity.
Qed.

Lemma float_of_Q_cases q :
  (float_of_Q q = Finite q /\ in_float_range q)
  \/ (float_of_Q q = Infinity false /\ (float_overflow <= q)%Q)
  \/ (float_of_Q q = Infinity true /\ (q <= - float_overflow)%Q).
Proof.
  unfold float_of_Q, in_float_range.
  destruct (Qle_bool float_overflow q) eqn:Ehi; q_props; auto.
  destruct (Qle_bool q (- float_overflow)) eqn:Elo; q_props; auto.
Qed.

Lemma fle_Finite a b : fle (Finite a) (Finite b) = true <-> (a <= b)%Q.
Proof.
  unfold fle. simpl. rewrite orb_true_iff, Qltb_lt, Qeq_bool_iff. split.
  - intros [H|H]; [now apply Qlt_le_weak | rewrite H; apply Qle_refl].
  - intros H. apply Qle_lt_or_eq in H. tauto.
Qed.

Lemma float_nonneg_cases x :
  float_nonneg x <->
  (exists q, x = Finite q /\ (0 <= q)%Q) \/ x = Infinity false.
Proof.
  unfold float_nonneg. destruct x as [q|[]|].
  - rewrite fle_Finite. split; eauto.
    intros [[q' [[= <-] H]]|H]; [exact H | discriminate].
  - split; [discriminate|]. intros [[q [H _]]|H]; discriminate.
  - split; auto.
  - split; [discriminate|]. intros [[q [H _]]|H]; discriminate.
Qed.

Lemma float_of_Q_nonneg q : (0 <= q)%Q -> float_nonneg (float_of_Q q).
Proof.
  intros Hq. pose proof float_overflow_large as Hbig.
  apply float_nonneg_cases.
  destruct (float_of_Q_cases q) as [[-> _]|[[-> _]|[_ H]]]; eauto.
  exfalso. lra.
Qed.

Lemma fle_refl x : is_nan x = false -> fle x x = true.
Proof.
  destruct x as [q|[]|]; try reflexivity; [|discriminate].
  intros _. apply fle_Finite. apply Qle_refl.
Qed.

Lemma fle_trans x y z : fle x y = true -> fle y z = true -> fle x z = true.
Proof.
  destruct x as [a|[]|], y as [b|[]|], z as [c|[]|]; try reflexivity;
    try discriminate.
  rewrite !fle_Finite. apply Qle_trans.
Qed.

Lemma flt_fle x y : flt x y = true -> fle x y = true.
Proof. unfold fle. now intros ->. Qed.

(** Without nan the order is total. *)
Lemma flt_false_fle x y :
  is_nan x = false -> is_nan y = false -> flt x y = false -> fle y x = true.
Proof.
  destruct x as [a|[]|], y as [b|[]|]; try reflexivity; try discriminate.
  intros _ _ H. simpl in H. apply fle_Finite. now apply Qltb_ge.
Qed.

Lemma fle_flt_trans x y z : fle x y = true -> flt y z = true -> flt x z = true.
Proof.
  destruct x as [a|[]|], y as [b|[]|], z as [c|[]|]; try reflexivity;
    try discriminate.
  rewrite fle_Finite. simpl. intros H1 H2. q_props. lra.
Qed.

Lemma flt_fle_trans x y z : flt x y = true -> fle y z = true -> flt x z = true.
Proof.
  destruct x as [a|[]|], y as [b|[]|], z as [c|[]|]; try reflexivity;
    try discriminate.
  rewrite fle_Finite. simpl. intros H1 H2. q_props. lra.
Qed.

Lemma fle_not_flt x y : fle x y = true -> flt y x = false.
Proof.
  destruct x as [a|[]|], y as [b|[]|]; try reflexivity; try discriminate.
  rewrite fle_Finite. simpl. intros H. q_props. exact H.
Qed.

Lemma float_nonneg_not_nan x : float_nonneg x -> is_nan x = false.
Proof. destruct x as [q|[]|]; auto; discriminate. Qed.

(** A product of a count and a finite weight that is not negative. *)
Lemma fmul_count_nonneg n w :
  in_float_range w -> (0 <= w)%Q ->
  float_nonneg (fmul (float_of_nat n) (float_of_Q w)).
Proof.
  intros Hrange Hw. rewrite float_of_Q_in_range by assumption.
  unfold float_of_nat, fmul. apply float_of_Q_nonneg.
  apply Qmult_le_0_compat; [apply Qnat_nonneg | exact Hw].
Qed.

(** The sum of two floats that are not negative is not negative and not
    below either of them. *)
Lemma fadd_nonneg x y :
  float_nonneg x -> float_nonneg y ->
  float_nonneg (fadd x y)
  /\ fle x (fadd x y) = true /\ fle y (fadd x y) = true.
Proof.
  intros Hx Hy. pose proof float_overflow_large as Hbig.
  apply float_nonneg_cases in Hx, Hy.
  destruct Hx as [[a [-> Ha]]| ->], Hy as [[b [-> Hb]]| ->]; simpl;
    try (repeat split; reflexivity).
  destruct (float_of_Q_cases (a + b)) as [[-> _]|[[-> _]|[_ H]]].
  - repeat split.
    + apply fle_Finite. lra.
    + apply fle_Finite. lra.
    + apply fle_Finite. lra.
  - repeat split; reflexivity.
  - exfalso. lra.
Qed.

Lemma fold_fadd_nonneg l acc :
  float_nonneg acc -> Forall float_nonneg l ->
  float_nonneg (fold_left fadd l acc)
  /\ fle acc (fold_left fadd l acc) = true
  /\ Forall (fun x => fle x (fold_left fadd l acc) = true) l.
Proof.
  intros Hacc Hl. revert acc Hacc.
  induction Hl as [|x l Hx Hl IH]; intros acc Hacc; simpl.
  - repeat split; auto. apply fle_refl. now apply float_nonneg_not_nan.
  - destruct (fadd_nonneg acc x Hacc Hx) as [Hsum [Hle1 Hle2]].
    destruct (IH _ Hsum) as [Hres [Hle Hall]].
    repeat split; auto.
    + eapply fle_trans; eauto.
    + constructor; auto. eapply fle_trans; eauto.
Qed.

Lemma float_nonneg_zero : float_nonneg (Finite 0).
Proof. reflexivity. Qed.

Lemma fsum_nonneg l :
  Forall float_nonneg l ->
  float_nonneg (fsum l) /\ Forall (fun x => fle x (fsum l) = true) l.
Proof.
  intros Hl. destruct (fold_fadd_nonneg l (Finite 0) float_nonneg_zero Hl)
    as [H1 [_ H2]].
  split; assumption.
Qed.

(** A sum of zeros is zero. *)
Lemma fold_fadd_zero l acc :
  feq acc (Finite 0) = true ->
  Forall (fun x => feq x (Finite 0) = true) l ->
  feq (fold_left fadd l acc) (Finite 0) = true.
Proof.
  intros Hacc Hl. revert acc Hacc.
  induction Hl as [|x l Hx Hl IH]; intros acc Hacc; simpl; auto.
  apply IH.
  destruct acc as [a|[]|], x as [b|[]|]; try discriminate.
  simpl in *. q_props. pose proof float_overflow_large as Hbig.
  rewrite float_of_Q_in_range by (unfold in_float_range; rewrite Hacc, Hx; lra).
  simpl. q_props. rewrite Hacc, Hx. ring.
Qed.

Lemma fsum_zero l :
  Forall (fun x => feq x (Finite 0) = true) l -> feq (fsum l) (Finite 0) = true.
Proof. apply fold_fadd_zero. reflexivity. Qed.

(** A float that is neither negative nor positive is zero. *)
Lemma float_nonneg_not_pos x :
  float_nonneg x -> flt (Finite 0) x = false -> feq x (Finite 0) = true.
Proof.
  intros Hx. apply float_nonneg_cases in Hx.
  destruct Hx as [[q [-> Hq]]| ->]; simpl; [|discriminate].
  intros H. q_props. lra.
Qed.

(** The share of a score in a total: between 0 and 1 while the score is
    finite, nan when the score has overflowed (and the total with it). *)
Lemma fdiv_share best total :
  float_nonneg best -> fle best total = true -> feq total (Finite 0) = false ->
  exists c,
    fdiv best total = Ok c
    /\ match best with
       | Finite _ => fle (Finite 0) c = true /\ fle c (Finite 1) = true
       | _ => c = NaN
       end.
Proof.
  intros Hbest Hle Hzero. pose proof float_overflow_large as Hbig.
  apply float_nonneg_cases in Hbest.
  destruct Hbest as [[b [-> Hb]]| ->].
  - destruct total as [t|[]|]; try discriminate.
    + apply fle_Finite in Hle. simpl in Hzero. simpl. rewrite Hzero.
      q_props.
      assert (0 < t)%Q as Ht.
      { apply Qle_lt_or_eq in Hb. destruct Hb as [Hb|Hb]; [lra|].
        apply Qle_lt_or_eq in Hle. destruct Hle as [Hle|Hle]; [lra|].
        exfalso. apply Hzero. rewrite <- Hle, <- Hb. reflexivity. }
      assert (0 <= b / t <= 1)%Q as [H0 H1].
      { split.
        - apply Qle_shift_div_l; auto. now rewrite Qmult_0_l.
        - apply Qle_shift_div_r; auto. now rewrite Qmult_1_l. }
      eexists. split; [reflexivity|].
      rewrite float_of_Q_in_range by (unfold in_float_range; lra).
      split; apply fle_Finite; assumption.
    + simpl. eexists. split; [reflexivity|]. split; reflexivity.
  - destruct total as [t|[]|]; try discriminate.
    simpl. eauto.
Qed.

Lemma fdiv_ok x y : feq y (Finite 0) = false -> exists c, fdiv x y = Ok c.
Proof.
  destruct x as [a|[]|], y as [b|[]|]; simpl; try (intros ->); eauto;
    discriminate.
Qed.

Lemma flt_pos_not_zero x : flt (Finite 0) x = true -> feq x (Finite 0) = false.
Proof.
  destruct x as [q|[]|]; simpl; auto.
  intros H. q_props. intros E. rewrite E in H. now apply Qlt_irrefl in H.
Qed.

Lemma small_in_float_range q : (0 <= q <= 3)%Q -> in_float_range q.
Proof.
  intros [H0 H3]. unfold in_float_range, float_overflow.
  split.
  - apply Qlt_le_trans with 0%Q; auto. unfold Qlt. simpl. reflexivity.
  - apply Qle_lt_trans with 3%Q; auto. unfold Qlt. simpl. reflexivity.
Qed.

(** ** Lists of fallible results *)

Lemma map_exc_ok {A B} (f : A -> exc B) l :
  (forall x, In x l -> exists y, f x = Ok y) ->
  exists ys, PyFloat.map_exc f l = Ok ys.
Proof.
  induction l as [|x l IH]; intros Hf; simpl; [eauto|].
  destruct (Hf x (or_introl eq_refl)) as [y ->]. simpl.
  destruct IH as [ys ->]; [intros z Hz; apply Hf; now right|].
  simpl. eauto.
Qed.

Lemma map_exc_inv {A B} (f : A -> exc B) l ys :
  PyFloat.map_exc f l = Ok ys -> Forall2 (fun x y => f x = Ok y) l ys.
Proof.
  revert ys. induction l as [|x l IH]; intros ys; simpl.
  - intros [= <-]. constructor.
  - destruct (f x) as [y|e] eqn:Hx; simpl; [|discriminate].
    destruct (PyFloat.map_exc f l) as [ys'|e] eqn:Hl; simpl; [|discriminate].
    intros [= <-]. constructor; auto.
Qed.

Lemma Forall2_sorted {A B} (R : A -> B -> Prop) (P : A -> A -> Prop)
    (P' : B -> B -> Prop) l l' :
  (forall x y x' y', R x x' -> R y y' -> P x y -> P' x' y') ->
  Forall2 R l l' -> StronglySorted P l -> StronglySorted P' l'.
Proof.
  intros HR H. induction H as [|x x' l l' Hx Hl IH]; intros Hs.
  - constructor.
  - inversion Hs as [|? ? Hs' Hall]; subst. constructor; auto.
    clear IH Hs Hs'. induction Hl as [|y y' l l' Hy Hl IH]; constructor.
    + inversion Hall; subst. eapply HR; eauto.
    + apply IH. now inversion Hall.
Qed.

(** ** The largest float score *)

Lemma float_max_from_In best items :
  In (PyFloat.max_from best items) (best :: items).
Proof.
  revert best. induction items as [|x items IH]; intros best; simpl.
  - now left.
  - destruct (flt (snd best) (snd x)).
    + right. apply IH.
    + destruct (IH best) as [H|H]; [left | right; right]; auto.
Qed.

Lemma float_max_from_ge best items :
  Forall (fun y => is_nan (snd y) = false) (best :: items) ->
  forall y, In y (best :: items) ->
    fle (snd y) (snd (PyFloat.max_from best items)) = true.
Proof.
  revert best. induction items as [|x items IH]; intros best Hnan y Hin; simpl.
  - destruct Hin as [->|[]]. apply fle_refl. now inversion Hnan.
  - inversion Hnan as [|? ? Hb Hrest]; subst.
    inversion Hrest as [|? ? Hx Hitems]; subst.
    destruct (flt (snd best) (snd x)) eqn:E.
    + destruct Hin as [->|Hin].
      * apply fle_trans with (snd x); [now apply flt_fle|].
        apply IH; [now constructor | now left].
      * apply IH; [now constructor | exact Hin].
    + apply flt_false_fle in E; auto.
      destruct Hin as [->|[->|Hin]].
      * apply IH; [now constructor | now left].
      * apply fle_trans with (snd best); auto.
        apply IH; [now constructor | now left].
      * apply IH; [now constructor | now right].
Qed.

Lemma float_py_max_inv items best :
  PyFloat.py_max items = Ok best ->
  In best items
  /\ (Forall (fun y => is_nan (snd y) = false) items ->
      forall y, In y items -> fle (snd y) (snd best) = true).
Proof.
  destruct items as [|x items]; simpl; [discriminate|].
  intros [= <-]. split.
  - apply float_max_from_In.
  - apply float_max_from_ge.
Qed.

(** ** The float pipeline *)

Section FloatScoring.

Context {U : Unicode}.

Lemma float_detect_empty self text :
  empty_input text -> PyFloat.detect self text = Ok PyFloat.unknown_result.
Proof.
  intros Hempty. unfold PyFloat.detect.
  destruct (negb (truthy text) || negb (isinstance_str text)) eqn:Hguard; auto.
  apply orb_false_iff in Hguard. destruct Hguard as [Ht Hs].
  apply negb_false_iff in Ht, Hs.
  destruct Hempty as [H|[H|[H|H]]]; try congruence.
  - now rewrite H.
  - destruct (is_empty (_clean_text (as_str text))); auto. now rewrite H.
Qed.

Lemma float_detect_tokens self text :
  split (_clean_text text) <> [] ->
  PyFloat.detect self (PyStr text)
  = match fast_path (_count_unique_letters self (_clean_text text)) with
    | Some lang =>
        Ok {| PyFloat.language := lang; PyFloat.confidence := Finite (95 # 100) |}
    | None =>
        m <- all_metrics self (_clean_text text) (split (_clean_text text)) ;;
        float_outcome (min_confidence self) (float_scores self m)
    end.
Proof.
  intros Hwords. unfold PyFloat.detect.
  destruct text as [|c text].
  { rewrite clean_text_nil in Hwords. now contradiction Hwords. }
  simpl truthy. simpl isinstance_str. simpl as_str. simpl negb. simpl orb. cbv iota.
  destruct (_clean_text (c :: text)) as [|c' cleaned] eqn:Hclean.
  { now contradiction Hwords. }
  simpl is_empty. cbv iota.
  destruct (split (c' :: cleaned)) as [|w ws] eqn:Hsplit; [congruence|].
  simpl is_empty. cbv iota.
  destruct (fast_path _); [reflexivity|].
  unfold all_metrics.
  destruct (_check_word_endings self (w :: ws)); [|reflexivity].
  destruct (_check_marker_words self (w :: ws)); [|reflexivity].
  destruct (_check_ngrams self (c' :: cleaned) 2); [|reflexivity].
  destruct (_check_ngrams self (c' :: cleaned) 3); reflexivity.
Qed.

Lemma float_analyze_cleaned self text :
  _clean_text text <> [] ->
  PyFloat.analyze self (PyStr text)
  = (m <- all_metrics self (_clean_text text) (split (_clean_text text)) ;;
     result <- float_outcome (min_confidence self) (float_scores self m) ;;
     top_languages <- float_top_of (float_scores self m) ;;
     Ok (PyFloat.AnalyzeReport
           {| PyFloat.result := result;
              PyFloat.stats :=
                stats_of text (_clean_text text) (split (_clean_text text));
              PyFloat.metrics := m;
              PyFloat.scores := float_scores self m;
              PyFloat.top_languages := top_languages |})).
Proof.
  intros Hclean. unfold PyFloat.analyze.
  destruct text as [|c text].
  { rewrite clean_text_nil in Hclean. now contradiction Hclean. }
  simpl truthy. simpl isinstance_str. simpl as_str. simpl negb. simpl orb. cbv iota.
  destruct (_clean_text (c :: text)) as [|c' cleaned] eqn:Hc.
  { now contradiction Hclean. }
  simpl is_empty. cbv iota.
  unfold all_metrics.
  destruct (_check_word_endings self _); [|reflexivity].
  destruct (_check_marker_words self _); [|reflexivity].
  destruct (_check_ngrams self (c' :: cleaned) 2); [|reflexivity].
  destruct (_check_ngrams self (c' :: cleaned) 3); reflexivity.
Qed.

(** The float scores always lead to an answer: [max] and the division are
    only reached when the total is not zero. *)
Lemma float_outcome_ok min_confidence scores :
  exists r, float_outcome min_confidence scores = Ok r.
Proof.
  unfold float_outcome.
  destruct (feq (fsum (dict_values scores)) (Finite 0)) eqn:Hzero; [eauto|].
  destruct scores as [|x scores]; [discriminate|].
  cbn [PyFloat.py_max bind].
  destruct (fdiv_ok (snd (PyFloat.max_from x scores)) _ Hzero) as [c ->].
  cbn [bind]. destruct (flt c _); eauto.
Qed.

Lemma float_top_of_ok scores : exists tops, float_top_of scores = Ok tops.
Proof.
  unfold float_top_of. apply map_exc_ok. intros [lang score] _.
  destruct (flt (Finite 0) (fsum (dict_values scores))) eqn:Hpos.
  - apply flt_pos_not_zero in Hpos.
    destruct (fdiv_ok score _ Hpos) as [c ->]. simpl. eauto.
  - simpl. eauto.
Qed.

Lemma float_detect_ok self text :
  incl (dict_keys (language_data self)) (languages self) ->
  exists r, PyFloat.detect self text = Ok r.
Proof.
  intros Hincl.
  assert (empty_input text \/
          exists s, text = PyStr s /\ split (_clean_text s) <> []) as [Hempty|Hfull].
  { destruct text as [s|b]; [|left; right; left; reflexivity].
    destruct (split (_clean_text s)) eqn:Hsplit.
    - left. right. right. right. exact Hsplit.
    - right. exists s. split; auto. rewrite Hsplit. discriminate. }
  - rewrite float_detect_empty by assumption. eauto.
  - destruct Hfull as [s [-> Hwords]].
    rewrite float_detect_tokens by assumption.
    destruct (fast_path _); [eauto|].
    destruct (all_metrics_ok self (_clean_text s) (split (_clean_text s)) Hincl)
      as [m ->]. simpl. apply float_outcome_ok.
Qed.

Lemma float_analyze_ok self text :
  incl (dict_keys (language_data self)) (languages self) ->
  _clean_text text <> [] ->
  exists report, PyFloat.analyze self (PyStr text) = Ok (PyFloat.AnalyzeReport report).
Proof.
  intros Hincl Hclean. rewrite float_analyze_cleaned by assumption.
  destruct (all_metrics_ok self (_clean_text text) (split (_clean_text text)) Hincl)
    as [m ->].
  destruct (float_outcome_ok (min_confidence self) (float_scores self m)) as [r Hr].
  destruct (float_top_of_ok (float_scores self m)) as [tops Htops].
  simpl. rewrite Hr. simpl. rewrite Htops. simpl. eauto.
Qed.

(** [detect] returns early, takes the fast path, or answers from the float
    scores. *)
Lemma float_detect_cases self text r :
  PyFloat.detect self text = Ok r ->
  (empty_input text /\ r = PyFloat.unknown_result)
  \/ (exists s lang,
        text = PyStr s
        /\ split (_clean_text s) <> []
        /\ fast_path (_count_unique_letters self (_clean_text s)) = Some lang
        /\ r = {| PyFloat.language := lang;
                  PyFloat.confidence := Finite (95 # 100) |})
  \/ (exists s m,
        text = PyStr s
        /\ split (_clean_text s) <> []
        /\ fast_path (_count_unique_letters self (_clean_text s)) = None
        /\ all_metrics self (_clean_text s) (split (_clean_text s)) = Ok m
        /\ float_outcome (min_confidence self) (float_scores self m) = Ok r).
Proof.
  intros Hdetect.
  assert (empty_input text \/
          exists s, text = PyStr s /\ split (_clean_text s) <> []) as [Hempty|Hfull].
  { destruct text as [s|b]; [|left; right; left; reflexivity].
    destruct (split (_clean_text s)) eqn:Hsplit.
    - left. right. right. right. exact Hsplit.
    - right. exists s. split; auto. rewrite Hsplit. discriminate. }
  - rewrite float_detect_empty in Hdetect by assumption. left. split; congruence.
  - destruct Hfull as [s [-> Hwords]].
    rewrite float_detect_tokens in Hdetect by assumption.
    destruct (fast_path _) as [lang|] eqn:Hfast.
    + right. left. exists s, lang. repeat split; congruence.
    + destruct (all_metrics self (_clean_text s) (split (_clean_text s)))
        as [m|e] eqn:Hm; simpl in Hdetect; [|discriminate].
      right. right. exists s, m. auto.
Qed.

End FloatScoring.

(** ** The float scores *)

Lemma float_scores_fold self m :
  float_scores self m
  = fold_left
      (fun scores '(lang_code, lang_data) =>
         dict_set scores lang_code (float_score m lang_code lang_data))
      (language_data self) (dict_from_keys (languages self) (Finite 0)).
Proof. reflexivity. Qed.

Lemma float_weighted_nonneg counts lang_code lang_data feature default :
  (0 <= default <= 3)%Q ->
  Forall (fun w => (0 <= w)%Q) (dict_values (weights lang_data)) ->
  Forall in_float_range (dict_values (weights lang_data)) ->
  float_nonneg (PyFloat.weighted counts lang_code lang_data feature default).
Proof.
  intros Hdef Hnonneg Hfinite. unfold PyFloat.weighted.
  apply fmul_count_nonneg.
  - apply dict_get_default_Forall; auto. now apply small_in_float_range.
  - apply dict_get_default_Forall; auto. tauto.
Qed.

Lemma float_score_nonneg m lang_code lang_data :
  Forall (fun w => (0 <= w)%Q) (dict_values (weights lang_data)) ->
  Forall in_float_range (dict_values (weights lang_data)) ->
  float_nonneg (float_score m lang_code lang_data).
Proof.
  intros Hnonneg Hfinite. unfold float_score.
  repeat (apply fadd_nonneg);
    apply float_weighted_nonneg; auto; split; unfold Qle; simpl; lia.
Qed.

Lemma float_scores_nonneg self m :
  weights_nonneg self -> weights_finite self ->
  Forall float_nonneg (dict_values (float_scores self m)).
Proof.
  intros Hnonneg Hfinite. rewrite float_scores_fold.
  apply (fold_dict_set_values float_nonneg (float_score m)).
  - intros k ld Hin. apply float_score_nonneg; [now apply (Hnonneg k) | now apply (Hfinite k)].
  - apply dict_from_keys_values. reflexivity.
Qed.

Lemma float_scores_not_nan self m :
  weights_nonneg self -> weights_finite self ->
  Forall (fun y => is_nan (snd y) = false) (float_scores self m).
Proof.
  intros Hnonneg Hfinite.
  pose proof (float_scores_nonneg self m Hnonneg Hfinite) as H.
  unfold dict_values in H. rewrite Forall_map in H.
  eapply Forall_impl; [|exact H]. intros y. apply float_nonneg_not_nan.
Qed.

(** The float score of a language without profile is the initial 0.0. *)
Lemma float_scores_no_profile self m lang score :
  NoDup (dict_keys (language_data self)) ->
  ~ In lang (dict_keys (language_data self)) ->
  In (lang, score) (float_scores self m) ->
  score = Finite 0.
Proof.
  intros Hnd Hnotin Hin.
  assert (dict_get (float_scores self m) lang = Some score) as Hget.
  { apply In_dict_get; auto. rewrite float_scores_fold.
    apply (fold_dict_set_keys_NoDup (float_score m)).
    apply dict_from_keys_NoDup. }
  rewrite float_scores_fold in Hget.
  rewrite (fold_dict_set_lookup (float_score m)) in Hget by assumption.
  apply dict_get_none_keys in Hnotin. rewrite Hnotin in Hget.
  apply dict_get_In in Hget.
  pose proof (dict_from_keys_values (fun x => x = Finite 0) (languages self)
                (Finite 0) eq_refl) as Hall.
  rewrite Forall_forall in Hall. apply Hall.
  change score with (snd (lang, score)). now apply in_map.
Qed.

(** The outcome of float scores that are not negative: unknown with
    confidence 0.0 when they sum to zero; otherwise the best pair, of
    positive score not above the total, with the quotient of the two as
    confidence, the language being replaced by unknown below the threshold.
    The quotient lies between 0 and 1 while the best score is finite and is
    nan when it is infinite. *)
Lemma float_outcome_inv min_conf (scores : dict float) r :
  Forall float_nonneg (dict_values scores) ->
  float_outcome min_conf scores = Ok r ->
  (feq (fsum (dict_values scores)) (Finite 0) = true /\ r = PyFloat.unknown_result)
  \/ exists best,
       PyFloat.py_max scores = Ok best
       /\ feq (fsum (dict_values scores)) (Finite 0) = false
       /\ flt (Finite 0) (snd best) = true
       /\ fle (snd best) (fsum (dict_values scores)) = true
       /\ fdiv (snd best) (fsum (dict_values scores)) = Ok (PyFloat.confidence r)
       /\ ((PyFloat.language r = "unknown"
            /\ flt (PyFloat.confidence r) (float_of_Q min_conf) = true)
           \/ (PyFloat.language r = fst best
               /\ flt (PyFloat.confidence r) (float_of_Q min_conf) = false))
       /\ match snd best with
          | Finite _ => in_unit_interval (PyFloat.confidence r)
          | _ => PyFloat.confidence r = NaN
          end.
Proof.
  intros Hnonneg. unfold float_outcome.
  destruct (feq (fsum (dict_values scores)) (Finite 0)) eqn:Hzero.
  - intros [= <-]. now left.
  - destruct (PyFloat.py_max scores) as [best|] eqn:Hmax; cbn [bind]; [|discriminate].
    destruct (float_py_max_inv _ _ Hmax) as [Hin Hge].
    assert (Forall (fun y => is_nan (snd y) = false) scores) as Hnan.
    { unfold dict_values in Hnonneg. rewrite Forall_map in Hnonneg.
      eapply Forall_impl; [|exact Hnonneg]. intros y. apply float_nonneg_not_nan. }
    specialize (Hge Hnan).
    destruct (fsum_nonneg _ Hnonneg) as [Htotal Hmembers].
    assert (In (snd best) (dict_values scores)) as Hin' by (now apply in_map).
    assert (float_nonneg (snd best)) as Hbest.
    { rewrite Forall_forall in Hnonneg. now apply Hnonneg. }
    assert (fle (snd best) (fsum (dict_values scores)) = true) as Hle.
    { rewrite Forall_forall in Hmembers. now apply Hmembers. }
    assert (flt (Finite 0) (snd best) = true) as Hpos.
    { destruct (flt (Finite 0) (snd best)) eqn:E; auto. exfalso.
      assert (Forall (fun x => feq x (Finite 0) = true) (dict_values scores)) as Hall.
      { apply Forall_forall. intros x Hx. unfold dict_values in Hx.
        apply in_map_iff in Hx. destruct Hx as [y [<- Hy]].
        apply float_nonneg_not_pos.
        - rewrite Forall_forall in Hnonneg. apply Hnonneg. now apply in_map.
        - destruct (flt (Finite 0) (snd y)) eqn:Ey; auto.
          pose proof (flt_fle_trans _ _ _ Ey (Hge y Hy)). congruence. }
      apply fsum_zero in Hall. congruence. }
    destruct (fdiv_share _ _ Hbest Hle Hzero) as [c [Hc Hrange]].
    rewrite Hc. cbn [bind].
    destruct (flt c (float_of_Q min_conf)) eqn:Hlow; intros [= <-];
      right; exists best; cbn [PyFloat.language PyFloat.confidence];
      repeat split; auto.
Qed.

Lemma default_weights_finite :
  Forall in_float_range (dict_values default_weights).
Proof.
  repeat constructor; apply small_in_float_range; split; unfold Qle; simpl; lia.
Qed.

Lemma default_detector_finite : weights_finite default_detector.
Proof.
  intros lang_code lang_data [[= <- <-]|[[= <- <-]|[]]]; apply default_weights_finite.
Qed.

(** ** The range of the confidence *)

Section FloatConfidence.

Context {U : Unicode}.

(** C4, as amended. On a detector whose weights are finite and not negative,
    the confidence of a result of [detect] is 0.0 on an empty input or a
    zero total, 0.95 on the fast path, and otherwise the quotient of the
    best score and the total, with 0 <= best <= total.  It lies between 0
    and 1, unless it is nan, which needs a score that has overflowed to
    infinity.  [detect] does return a result when every profile belongs to
    an active language. *)
Theorem confidence_in_unit_interval self text :
  weights_nonneg self -> weights_finite self ->
  (forall r,
      PyFloat.detect self text = Ok r ->
      ((r = PyFloat.unknown_result
        /\ (empty_input text
            \/ exists m,
                 all_metrics self (_clean_text (as_str text))
                   (split (_clean_text (as_str text))) = Ok m
                 /\ feq (fsum (dict_values (float_scores self m))) (Finite 0) = true))
       \/ (exists lang,
             fast_path (_count_unique_letters self (_clean_text (as_str text)))
             = Some lang
             /\ r = {| PyFloat.language := lang;
                       PyFloat.confidence := Finite (95 # 100) |})
       \/ (exists m best,
             all_metrics self (_clean_text (as_str text))
               (split (_clean_text (as_str text))) = Ok m
             /\ PyFloat.py_max (float_scores self m) = Ok best
             /\ fle (Finite 0) (snd best) = true
             /\ fle (snd best) (fsum (dict_values (float_scores self m))) = true
             /\ fdiv (snd best) (fsum (dict_values (float_scores self m)))
                = Ok (PyFloat.confidence r)))
      /\ (in_unit_interval (PyFloat.confidence r) \/ PyFloat.confidence r = NaN)
      /\ (PyFloat.confidence r = NaN ->
          exists m,
            all_metrics self (_clean_text (as_str text))
              (split (_clean_text (as_str text))) = Ok m
            /\ In (Infinity false) (dict_values (float_scores self m))))
  /\ (wf_detector self -> exists r, PyFloat.detect self text = Ok r).
Proof.
  intros Hnonneg Hfinite. split; [|intros [_ Hincl]; now apply float_detect_ok].
  intros r Hdetect.
  destruct (float_detect_cases self text r Hdetect)
    as [[Hempty ->]|[[s [lang [-> [Hwords [Hfast ->]]]]]|[s [m [-> [Hwords [Hfast [Hm Hout]]]]]]]].
  - split; [left; auto|]. split; [left; split; reflexivity | discriminate].
  - split; [right; left; eauto|]. cbn [PyFloat.confidence].
    split; [|discriminate]. left. split; apply fle_Finite; unfold Qle; simpl; lia.
  - cbn [as_str].
    apply float_outcome_inv in Hout; [|now apply float_scores_nonneg].
    destruct Hout as [[Hzero ->]|[best [Hmax [Hzero [Hpos [Hle [Hdiv [_ Hrange]]]]]]]].
    + split; [left; split; eauto|].
      split; [left; split; reflexivity | discriminate].
    + split; [|split].
      * right. right. exists m, best. repeat split; auto. now apply flt_fle.
      * destruct (snd best); auto.
      * intros Hnan. exists m. split; auto.
        apply float_py_max_inv in Hmax. destruct Hmax as [Hin _].
        apply (in_map snd) in Hin. fold (dict_values (float_scores self m)) in Hin.
        destruct (snd best) as [q|[]|]; auto.
        -- destruct Hrange as [H _]. rewrite Hnan in H. discriminate.
        -- discriminate.
        -- discriminate.
Qed.

End FloatConfidence.

(** ** The ranking of [analyze] in floats *)

Lemma float_insert_desc_Forall (P : string * float -> Prop) x l :
  P x -> Forall P l -> Forall P (PyFloat.insert_desc x l).
Proof.
  intros Hx. induction 1 as [|y l Hy Hl IH]; simpl.
  - constructor; auto.
  - destruct (flt (snd x) (snd y)); constructor; auto.
Qed.

Lemma float_insert_desc_sorted x l :
  is_nan (snd x) = false ->
  Forall (fun y => is_nan (snd y) = false) l ->
  StronglySorted float_item_ge l ->
  StronglySorted float_item_ge (PyFloat.insert_desc x l).
Proof.
  intros Hx Hnan. induction 1 as [|y l Hsorted IH Hall]; simpl.
  - constructor; constructor.
  - inversion Hnan as [|? ? Hy Hnan']; subst.
    destruct (flt (snd x) (snd y)) eqn:E.
    + constructor; auto.
      apply float_insert_desc_Forall; auto.
      unfold float_item_ge. now apply flt_fle.
    + apply flt_false_fle in E; auto. constructor.
      * constructor; auto.
      * constructor; auto.
        eapply Forall_impl; [|exact Hall].
        intros z Hz. unfold float_item_ge in *. now apply fle_trans with (snd y).
Qed.

Lemma float_sorted_desc_sorted items :
  Forall (fun y => is_nan (snd y) = false) items ->
  StronglySorted float_item_ge (PyFloat.sorted_desc items)
  /\ Forall (fun y => is_nan (snd y) = false) (PyFloat.sorted_desc items).
Proof.
  unfold PyFloat.sorted_desc. induction 1 as [|x items Hx Hitems [IH1 IH2]]; simpl.
  - split; constructor.
  - split.
    + now apply float_insert_desc_sorted.
    + now apply float_insert_desc_Forall.
Qed.

Lemma float_insert_desc_In x l y :
  In y (PyFloat.insert_desc x l) <-> y = x \/ In y l.
Proof.
  induction l as [|z l IH]; simpl.
  - intuition.
  - destruct (flt (snd x) (snd z)); simpl; rewrite ?IH; intuition.
Qed.

Lemma float_sorted_desc_In items y :
  In y (PyFloat.sorted_desc items) <-> In y items.
Proof.
  unfold PyFloat.sorted_desc. induction items as [|x items IH]; simpl.
  - tauto.
  - rewrite float_insert_desc_In, IH. intuition.
Qed.

(** The entries of [top_languages] are the positive items among the first
    three of the sorted scores, in their order. *)
Lemma float_top_of_items scores tops :
  float_top_of scores = Ok tops ->
  Forall2
    (fun item t => PyFloat.top_language t = fst item /\ PyFloat.top_score t = snd item)
    (filter (fun '(lang, score) => flt (Finite 0) score)
       (firstn 3 (PyFloat.sorted_desc scores)))
    tops.
Proof.
  unfold float_top_of. intros H. apply map_exc_inv in H.
  eapply Forall2_impl; [|exact H].
  intros [lang score] t. cbv beta iota.
  destruct (if flt (Finite 0) (fsum (dict_values scores))
            then fdiv score (fsum (dict_values scores)) else Ok (Finite 0));
    cbn [bind]; [|discriminate].
  intros [= <-]. auto.
Qed.

Lemma Forall2_length_eq {A B} (R : A -> B -> Prop) l l' :
  Forall2 R l l' -> length l = length l'.
Proof. induction 1; simpl; auto. Qed.

Lemma Forall2_In_r {A B} (R : A -> B -> Prop) l l' y :
  Forall2 R l l' -> In y l' -> exists x, In x l /\ R x y.
Proof.
  induction 1 as [|x x' l l' Hx Hl IH]; simpl; [tauto|].
  intros [<-|Hin]; [eauto|].
  destruct (IH Hin) as [z [Hz Hr]]. eauto.
Qed.

Section FloatRanking.

Context {U : Unicode}.

Lemma float_analyze_report_fields self text report :
  PyFloat.analyze self text = Ok (PyFloat.AnalyzeReport report) ->
  exists s m,
    text = PyStr s /\ _clean_text s <> []
    /\ all_metrics self (_clean_text s) (split (_clean_text s)) = Ok m
    /\ float_outcome (min_confidence self) (float_scores self m)
       = Ok (PyFloat.result report)
    /\ PyFloat.scores report = float_scores self m
    /\ float_top_of (float_scores self m) = Ok (PyFloat.top_languages report)
    /\ PyFloat.stats report = stats_of s (_clean_text s) (split (_clean_text s)).
Proof.
  intros Hreport.
  assert (exists s, text = PyStr s /\ _clean_text s <> []) as [s [-> Hclean]].
  { unfold PyFloat.analyze in Hreport.
    destruct (negb (truthy text) || negb (isinstance_str text)) eqn:Hguard;
      [discriminate|].
    destruct text as [s|b];
      [|simpl in Hguard; rewrite orb_true_r in Hguard; discriminate].
    simpl as_str in Hreport.
    destruct (_clean_text s) eqn:Hclean; [discriminate|].
    exists s. split; auto. rewrite Hclean. discriminate. }
  rewrite float_analyze_cleaned in Hreport by assumption.
  destruct (all_metrics self (_clean_text s) (split (_clean_text s)))
    as [m|e] eqn:Hm; cbn [bind] in Hreport; [|discriminate].
  destruct (float_outcome (min_confidence self) (float_scores self m))
    as [r|e] eqn:Hr; cbn [bind] in Hreport; [|discriminate].
  destruct (float_top_of (float_scores self m))
    as [tops|e] eqn:Htops; cbn [bind] in Hreport; [|discriminate].
  injection Hreport as <-. exists s, m. simpl. repeat split; auto.
Qed.

(** C7, as amended. In every report of [analyze], [top_languages] holds only
    languages with a positive weighted score and at most three of them; when
    no score is nan it is sorted by score, largest first, entries of equal
    score being allowed.  No score is nan when the weights are finite and
    not negative.  [analyze] does return a report when the cleaned text is
    not empty and every profile belongs to an active language. *)
Theorem top_languages_ranked self text :
  (forall report,
      PyFloat.analyze self text = Ok (PyFloat.AnalyzeReport report) ->
      (Forall (fun score => is_nan score = false)
         (dict_values (PyFloat.scores report)) ->
       StronglySorted float_score_ge (PyFloat.top_languages report))
      /\ Forall
           (fun t =>
              flt (Finite 0) (PyFloat.top_score t) = true
              /\ In (PyFloat.top_language t, PyFloat.top_score t)
                   (PyFloat.scores report))
           (PyFloat.top_languages report)
      /\ length (PyFloat.top_languages report) <= 3
      /\ (weights_nonneg self -> weights_finite self ->
          Forall (fun score => is_nan score = false)
            (dict_values (PyFloat.scores report))))
  /\ (wf_detector self -> _clean_text (as_str text) <> [] ->
      isinstance_str text = true ->
      exists report, PyFloat.analyze self text = Ok (PyFloat.AnalyzeReport report)).
Proof.
  split.
  - intros report Hreport.
    destruct (float_analyze_report_fields self text report Hreport)
      as [s [m [_ [_ [_ [_ [Hscores [Htop _]]]]]]]].
    rewrite Hscores. pose proof (float_top_of_items _ _ Htop) as Hitems.
    split; [|split; [|split]].
    + intros Hnan.
      assert (Forall (fun y => is_nan (snd y) = false) (float_scores self m)) as Hnan'.
      { unfold dict_values in Hnan. now rewrite Forall_map in Hnan. }
      eapply (Forall2_sorted _ float_item_ge); [|exact Hitems|].
      * intros x y x' y' [_ Hx] [_ Hy]. unfold float_item_ge, float_score_ge.
        now rewrite Hx, Hy.
      * apply filter_sorted, firstn_sorted.
        now apply float_sorted_desc_sorted.
    + apply Forall_forall. intros t Ht.
      destruct (Forall2_In_r _ _ _ _ Hitems Ht) as [[lang score] [Hin [Hl Hs]]].
      simpl in Hl, Hs. rewrite Hl, Hs.
      apply filter_In in Hin. destruct Hin as [Hin Hpos]. split; auto.
      apply float_sorted_desc_In. eapply In_firstn. exact Hin.
    + rewrite <- (Forall2_length_eq _ _ _ Hitems).
      eapply Nat.le_trans; [apply filter_length_le|].
      rewrite length_firstn. apply Nat.le_min_l.
    + intros Hnonneg Hfinite.
      pose proof (float_scores_not_nan self m Hnonneg Hfinite) as H.
      unfold dict_values. now rewrite Forall_map.
  - intros [_ Hincl] Hclean Hstr.
    destruct text as [s|b]; [|discriminate]. simpl in Hclean.
    now apply float_analyze_ok.
Qed.

End FloatRanking.

(** ** What [detect] can answer, in floats *)

Section FloatAnswers.

Context {U : Unicode}.

Lemma float_detect_has_profile self text r :
  NoDup (dict_keys (language_data self)) ->
  weights_nonneg self -> weights_finite self ->
  PyFloat.detect self text = Ok r ->
  PyFloat.language r = "unknown"
  \/ In (PyFloat.language r) (dict_keys (language_data self)).
Proof.
  intros Hnd Hnonneg Hfinite Hdetect.
  destruct (float_detect_cases self text r Hdetect)
    as [[_ ->]|[[s [lang [-> [_ [Hfast ->]]]]]|[s [m [-> [_ [_ [Hm Hout]]]]]]]].
  - now left.
  - right. simpl. eapply fast_path_key. exact Hfast.
  - apply float_outcome_inv in Hout; [|now apply float_scores_nonneg].
    destruct Hout as [[_ ->]|[best [Hmax [_ [Hpos [_ [_ [[[Hl _]|[Hl _]] _]]]]]]]];
      auto.
    right. rewrite Hl.
    destruct (in_dec string_dec (fst best) (dict_keys (language_data self)))
      as [Hin|Hnotin]; auto.
    exfalso. apply float_py_max_inv in Hmax. destruct Hmax as [Hbest _].
    destruct best as [lang score]. simpl in *.
    apply float_scores_no_profile in Hbest; auto.
    subst score. discriminate.
Qed.

(** When the weights are finite and not negative, [detect] answers unknown
    or a language that has a profile: an active language without profile is
    never the answer. *)
Theorem detect_answers_loaded_language self text r :
  NoDup (dict_keys (language_data self)) ->
  weights_nonneg self -> weights_finite self ->
  PyFloat.detect self text = Ok r ->
  PyFloat.language r = "unknown"
  \/ In (PyFloat.language r) (dict_keys (language_data self)).
Proof. apply float_detect_has_profile. Qed.

(** After [remove_language] has removed an active language from a detector
    whose weights are finite and not negative, [detect] never answers that
    language. *)
Theorem removed_language_not_detected self lang_code text r :
  NoDup (dict_keys (language_data self)) ->
  weights_nonneg self -> weights_finite self ->
  In lang_code (languages self) ->
  lang_code <> "unknown" ->
  PyFloat.detect (fst (remove_language self lang_code)) text = Ok r ->
  PyFloat.language r <> lang_code.
Proof.
  intros Hnd Hnonneg Hfinite Hin Hne Hdetect.
  set (self' := fst (remove_language self lang_code)) in *.
  assert (language_data self'
          = if dict_mem (language_data self) lang_code
            then dict_del (language_data self) lang_code
            else language_data self) as Hdata.
  { unfold self', remove_language. apply lang_in_In in Hin. now rewrite Hin. }
  assert (forall x, In x (language_data self') -> In x (language_data self)) as Hsub.
  { intros x. rewrite Hdata. destruct (dict_mem _ _); auto. apply dict_del_In. }
  assert (NoDup (dict_keys (language_data self'))) as Hnd'.
  { rewrite Hdata. destruct (dict_mem _ _); auto. now apply dict_del_NoDup. }
  assert (weights_nonneg self') as Hnonneg'.
  { intros l ld Hl. apply (Hnonneg l). now apply Hsub. }
  assert (weights_finite self') as Hfinite'.
  { intros l ld Hl. apply (Hfinite l). now apply Hsub. }
  assert (~ In lang_code (dict_keys (language_data self'))) as Hgone.
  { rewrite Hdata. unfold dict_mem.
    destruct (dict_get (language_data self) lang_code) eqn:E.
    - intros H. now apply dict_del_keys in H.
    - now apply dict_get_none_keys. }
  destruct (float_detect_has_profile self' text r Hnd' Hnonneg' Hfinite' Hdetect)
    as [H|H]; congruence.
Qed.

End FloatAnswers.

(** ** The best language heads the ranking, in floats *)

Lemma float_max_from_keep l x y :
  Forall (fun z => is_nan (snd z) = false) (x :: y :: l) ->
  fle (snd y) (snd x) = true ->
  PyFloat.max_from x l
  = if flt (snd x) (snd (PyFloat.max_from y l)) then PyFloat.max_from y l else x.
Proof.
  revert x y. induction l as [|z l IH]; intros x y Hnan Hyx; simpl.
  - now rewrite (fle_not_flt _ _ Hyx).
  - inversion Hnan as [|? ? Hx Hnan1]; subst.
    inversion Hnan1 as [|? ? Hy Hnan2]; subst.
    inversion Hnan2 as [|? ? Hz Hl]; subst.
    destruct (flt (snd x) (snd z)) eqn:Exz.
    + rewrite (fle_flt_trans _ _ _ Hyx Exz).
      assert (flt (snd x) (snd (PyFloat.max_from z l)) = true) as ->; auto.
      eapply flt_fle_trans; [exact Exz|].
      apply float_max_from_ge; [now constructor | now left].
    + apply flt_false_fle in Exz; auto.
      destruct (flt (snd y) (snd z)).
      * apply IH; auto.
      * apply IH; auto.
Qed.

Lemma float_max_from_cons x y l :
  Forall (fun z => is_nan (snd z) = false) (x :: y :: l) ->
  PyFloat.max_from x (y :: l)
  = if flt (snd x) (snd (PyFloat.max_from y l)) then PyFloat.max_from y l else x.
Proof.
  intros Hnan. simpl.
  inversion Hnan as [|? ? Hx Hnan1]; subst.
  inversion Hnan1 as [|? ? Hy Hl]; subst.
  destruct (flt (snd x) (snd y)) eqn:Exy.
  - assert (flt (snd x) (snd (PyFloat.max_from y l)) = true) as ->; auto.
    eapply flt_fle_trans; [exact Exy|].
    apply float_max_from_ge; [now constructor | now left].
  - apply flt_false_fle in Exy; auto. now apply float_max_from_keep.
Qed.

(** Without nan, the stable descending sort starts with the item that [max]
    returns. *)
Lemma float_sorted_desc_head x items :
  Forall (fun z => is_nan (snd z) = false) (x :: items) ->
  exists rest, PyFloat.sorted_desc (x :: items) = PyFloat.max_from x items :: rest.
Proof.
  revert x. induction items as [|y items IH]; intros x Hnan.
  - exists []. reflexivity.
  - inversion Hnan as [|? ? Hx Hnan']; subst.
    destruct (IH y Hnan') as [rest Hrest].
    change (PyFloat.sorted_desc (x :: y :: items))
      with (PyFloat.insert_desc x (PyFloat.sorted_desc (y :: items))).
    rewrite Hrest, float_max_from_cons by assumption. cbn [PyFloat.insert_desc].
    destruct (flt (snd x) (snd (PyFloat.max_from y items))); eauto.
Qed.

Section FloatReports.

Context {U : Unicode}.

(** When [analyze] names a language, on a detector whose weights are finite
    and not negative, that language is the first entry of [top_languages],
    with the same confidence. *)
Theorem named_language_tops_ranking self text report :
  weights_nonneg self -> weights_finite self ->
  PyFloat.analyze self text = Ok (PyFloat.AnalyzeReport report) ->
  PyFloat.language (PyFloat.result report) <> "unknown" ->
  exists score rest,
    PyFloat.top_languages report
    = {| PyFloat.top_language := PyFloat.language (PyFloat.result report);
         PyFloat.top_score := score;
         PyFloat.top_confidence := PyFloat.confidence (PyFloat.result report) |}
      :: rest
    /\ In (PyFloat.language (PyFloat.result report), score) (PyFloat.scores report).
Proof.
  intros Hnonneg Hfinite Hreport Hnamed.
  destruct (float_analyze_report_fields self text report Hreport)
    as [s [m [_ [_ [_ [Hout [Hscores [Htop _]]]]]]]].
  rewrite Hscores.
  pose proof (float_scores_not_nan self m Hnonneg Hfinite) as Hnan.
  apply float_outcome_inv in Hout; [|now apply float_scores_nonneg].
  destruct Hout as [[_ Hr]|[best [Hmax [Hzero [Hpos [Hle [Hdiv [[[Hl _]|[Hl _]] _]]]]]]]].
  - rewrite Hr in Hnamed. now contradiction Hnamed.
  - now contradiction Hnamed.
  - destruct best as [lang score]. cbn [fst snd] in *.
    exists score. unfold float_top_of in Htop.
    destruct (float_scores self m) as [|x items] eqn:Hm; [discriminate|].
    cbn [PyFloat.py_max] in Hmax. injection Hmax as Hmax.
    destruct (float_sorted_desc_head x items Hnan) as [rest Hrest].
    rewrite Hrest, Hmax in Htop. cbn [firstn filter] in Htop.
    rewrite Hpos in Htop. cbn [PyFloat.map_exc] in Htop.
    rewrite (flt_fle_trans _ _ _ Hpos Hle), Hdiv in Htop. cbn [bind] in Htop.
    destruct (PyFloat.map_exc _ _) as [tops|e]; cbn [bind] in Htop; [|discriminate].
    injection Htop as <-. exists tops. split.
    + now rewrite Hl.
    + rewrite Hl, <- Hmax. apply float_max_from_In.
Qed.

(** [detect_from_file] returns in every case.  An error is always reported
    with the unknown language and confidence 0.0: the error of reading when
    the file cannot be read, the exception of [detect] when [detect] raises.
    On a readable file, when every profile belongs to an active language,
    it reports no error and returns what [detect] returns on the text. *)
Theorem detect_from_file_answer files self file_path :
  let r := PyFloat.detect_from_file files self file_path in
  (PyFloat.file_error r <> None -> PyFloat.file_answer r = PyFloat.unknown_result)
  /\ (forall message,
        files file_path = ReadFailure message ->
        PyFloat.file_error r = Some (ReadError message))
  /\ (forall text e,
        files file_path = ReadText text ->
        PyFloat.detect self (PyStr text) = Raise e ->
        PyFloat.file_error r = Some (DetectError e))
  /\ (forall text,
        files file_path = ReadText text ->
        wf_detector self ->
        PyFloat.file_error r = None
        /\ PyFloat.detect self (PyStr text) = Ok (PyFloat.file_answer r)).
Proof.
  intros r. unfold r, PyFloat.detect_from_file.
  destruct (files file_path) as [text|message].
  - destruct (PyFloat.detect self (PyStr text)) as [res|e] eqn:Hdetect;
      cbn [PyFloat.file_answer PyFloat.file_error].
    + split; [|split; [|split]].
      * intros H. now contradiction H.
      * intros message. discriminate.
      * intros text' e [= <-]. rewrite Hdetect. discriminate.
      * intros text' [= <-] _. split; [reflexivity | exact Hdetect].
    + split; [|split; [|split]]; auto.
      * intros message. discriminate.
      * intros text' e' [= <-]. rewrite Hdetect. now intros [= <-].
      * intros text' [= <-] [_ Hincl]. exfalso.
        destruct (float_detect_ok self (PyStr text) Hincl) as [res Hres]. congruence.
  - cbn [PyFloat.file_answer PyFloat.file_error]. split; [|split; [|split]]; auto.
    + now intros m [= <-].
    + intros text e. discriminate.
    + intros text. discriminate.
Qed.

End FloatReports.

(** ** Exact arithmetic as floats without overflow

    As long as no score overflows, the float scores are the exact scores
    and [detect] in floats returns what [detect] in exact arithmetic
    returns. *)

Lemma metric_scores_fold {U : Unicode} self m :
  metric_scores self m
  = fold_left
      (fun scores '(lang_code, lang_data) =>
         dict_set scores lang_code (exact_score m lang_code lang_data))
      (language_data self) (dict_from_keys (languages self) 0%Q).
Proof. reflexivity. Qed.

Lemma dict_set_float_item (d : dict Q) k q :
  dict_set (map float_item d) k (Finite q) = map float_item (dict_set d k q).
Proof.
  induction d as [|[k' q'] d IH]; simpl; auto.
  destruct (String.eqb k' k); simpl; auto. now rewrite IH.
Qed.

Lemma dict_from_keys_float_item ks :
  dict_from_keys ks (Finite 0) = map float_item (dict_from_keys ks 0%Q).
Proof.
  unfold dict_from_keys.
  change (@nil (string * float)) with (map float_item []).
  generalize (@nil (string * Q)).
  induction ks as [|k ks IH]; intros acc; simpl; auto.
  rewrite dict_set_float_item. apply IH.
Qed.

Lemma fold_dict_set_float_item {A} (f : string -> A -> Q) (g : string -> A -> float)
    (l : dict A) (acc : dict Q) :
  (forall k a, In (k, a) l -> g k a = Finite (f k a)) ->
  fold_left (fun scores '(k, a) => dict_set scores k (g k a)) l (map float_item acc)
  = map float_item (fold_left (fun scores '(k, a) => dict_set scores k (f k a)) l acc).
Proof.
  revert acc. induction l as [|[k a] l IH]; intros acc Hfg; simpl; auto.
  rewrite (Hfg k a) by (now left). rewrite dict_set_float_item.
  apply IH. intros k' a' Hin. apply Hfg. now right.
Qed.

Lemma nonneg_below_in_range q bound :
  (0 <= q)%Q -> (q <= bound)%Q -> (bound < float_overflow)%Q -> in_float_range q.
Proof.
  intros H0 Hle Hbound. pose proof float_overflow_large. unfold in_float_range. lra.
Qed.

Lemma float_weighted_exact counts lang_code lang_data feature default bound :
  (0 <= default <= 3)%Q ->
  Forall (fun w => (0 <= w)%Q) (dict_values (weights lang_data)) ->
  Forall in_float_range (dict_values (weights lang_data)) ->
  (weighted counts lang_code lang_data feature default <= bound)%Q ->
  (bound < float_overflow)%Q ->
  PyFloat.weighted counts lang_code lang_data feature default
  = Finite (weighted counts lang_code lang_data feature default).
Proof.
  intros Hdef Hnonneg Hfinite Hle Hbound. unfold PyFloat.weighted.
  rewrite float_of_Q_in_range
    by (apply dict_get_default_Forall; auto; now apply small_in_float_range).
  unfold float_of_nat, fmul. apply float_of_Q_in_range.
  apply nonneg_below_in_range with bound; auto.
  apply weighted_nonneg; tauto.
Qed.

Lemma fadd_exact a b bound :
  (0 <= a)%Q -> (0 <= b)%Q -> (a + b <= bound)%Q -> (bound < float_overflow)%Q ->
  fadd (Finite a) (Finite b) = Finite (a + b).
Proof.
  intros Ha Hb Hle Hbound. simpl. apply float_of_Q_in_range.
  apply nonneg_below_in_range with bound; auto. lra.
Qed.

Lemma float_score_exact m lang_code lang_data :
  Forall (fun w => (0 <= w)%Q) (dict_values (weights lang_data)) ->
  Forall in_float_range (dict_values (weights lang_data)) ->
  (exact_score m lang_code lang_data < float_overflow)%Q ->
  float_score m lang_code lang_data = Finite (exact_score m lang_code lang_data).
Proof.
  intros Hnonneg Hfinite Hbound. unfold float_score, exact_score in *.
  set (w1 := weighted (metric_unique_letters m) lang_code lang_data "unique_letters" 2) in *.
  set (w2 := weighted (metric_frequent_letters m) lang_code lang_data
               "frequent_letters" 1) in *.
  set (w3 := weighted (metric_word_endings m) lang_code lang_data
               "word_endings" (3 # 2)) in *.
  set (w4 := weighted (metric_marker_words m) lang_code lang_data "marker_words" 3) in *.
  set (w5 := weighted (metric_digrams m) lang_code lang_data "digrams" 1) in *.
  set (w6 := weighted (metric_trigrams m) lang_code lang_data "trigrams" (6 # 5)) in *.
  assert (0 <= w1)%Q as H1 by (apply weighted_nonneg; auto; unfold Qle; simpl; lia).
  assert (0 <= w2)%Q as H2 by (apply weighted_nonneg; auto; unfold Qle; simpl; lia).
  assert (0 <= w3)%Q as H3 by (apply weighted_nonneg; auto; unfold Qle; simpl; lia).
  assert (0 <= w4)%Q as H4 by (apply weighted_nonneg; auto; unfold Qle; simpl; lia).
  assert (0 <= w5)%Q as H5 by (apply weighted_nonneg; auto; unfold Qle; simpl; lia).
  assert (0 <= w6)%Q as H6 by (apply weighted_nonneg; auto; unfold Qle; simpl; lia).
  set (bound := (w1 + w2 + w3 + w4 + w5 + w6)%Q) in *.
  assert (forall counts feature default w,
             w = weighted counts lang_code lang_data feature default ->
             (0 <= default <= 3)%Q -> (w <= bound)%Q ->
             PyFloat.weighted counts lang_code lang_data feature default = Finite w)
    as Hw.
  { intros counts feature default w -> Hdef Hle.
    now apply float_weighted_exact with bound. }
  rewrite (Hw _ _ _ w1), (Hw _ _ _ w2), (Hw _ _ _ w3), (Hw _ _ _ w4),
    (Hw _ _ _ w5), (Hw _ _ _ w6);
    try reflexivity; try (split; unfold Qle; simpl; lia);
    try (unfold bound; lra).
  rewrite (fadd_exact w1 w2 bound) by (auto; unfold bound; lra).
  rewrite (fadd_exact _ w3 bound) by (auto; unfold bound; lra).
  rewrite (fadd_exact _ w4 bound) by (auto; unfold bound; lra).
  rewrite (fadd_exact _ w5 bound) by (auto; unfold bound; lra).
  rewrite (fadd_exact _ w6 bound) by (auto; unfold bound; lra).
  reflexivity.
Qed.

Lemma fold_fadd_exact qs acc :
  (0 <= acc)%Q -> Forall (fun q => (0 <= q)%Q) qs ->
  (fold_left Qplus qs acc < float_overflow)%Q ->
  fold_left fadd (map Finite qs) (Finite acc) = Finite (fold_left Qplus qs acc).
Proof.
  intros Hacc Hqs. revert acc Hacc.
  induction Hqs as [|q qs Hq Hqs IH]; intros acc Hacc Hbound; simpl; auto.
  simpl in Hbound.
  assert (0 <= fold_right Qplus 0 qs)%Q as Hrest.
  { clear -Hqs. induction Hqs; simpl; [apply Qle_refl | lra]. }
  pose proof (fold_Qplus_acc qs (acc + q)) as Hsum.
  change (fadd (Finite acc) (Finite q)) with (float_of_Q (acc + q)%Q).
  rewrite float_of_Q_in_range.
  - apply IH; auto. lra.
  - apply nonneg_below_in_range with (fold_left Qplus qs (acc + q)%Q); auto; lra.
Qed.

Lemma float_max_from_exact best items :
  PyFloat.max_from (float_item best) (map float_item items)
  = float_item (max_from best items).
Proof.
  revert best. induction items as [|x items IH]; intros best; simpl; auto.
  destruct (Qltb (snd best) (snd x)); apply IH.
Qed.

Section Exact.

Context {U : Unicode}.

Lemma float_scores_exact self m :
  NoDup (dict_keys (language_data self)) ->
  weights_nonneg self -> weights_finite self ->
  (Qsum (dict_values (metric_scores self m)) < float_overflow)%Q ->
  float_scores self m = map float_item (metric_scores self m).
Proof.
  intros Hnd Hnonneg Hfinite Hbound.
  rewrite float_scores_fold, metric_scores_fold, dict_from_keys_float_item.
  apply fold_dict_set_float_item.
  intros k ld Hin. apply float_score_exact.
  - now apply (Hnonneg k).
  - now apply (Hfinite k).
  - eapply Qle_lt_trans; [|exact Hbound].
    apply Qsum_ge_member.
    + unfold metric_scores. now apply weighted_scores_nonneg.
    + assert (dict_get (metric_scores self m) k = Some (exact_score m k ld)) as Hget.
      { rewrite metric_scores_fold.
        rewrite (fold_dict_set_lookup (exact_score m)) by assumption.
        now rewrite (In_dict_get _ _ _ Hnd Hin). }
      apply dict_get_In in Hget.
      change (exact_score m k ld) with (snd (k, exact_score m k ld)).
      now apply in_map.
Qed.

Lemma float_outcome_exact min_conf (scores : dict Q) :
  Forall (fun x => (0 <= x)%Q) (dict_values scores) ->
  (Qsum (dict_values scores) < float_overflow)%Q ->
  in_float_range min_conf ->
  float_outcome min_conf (map float_item scores)
  = (r <- outcome min_conf scores ;; Ok (float_detection r)).
Proof.
  intros Hnonneg Hbound Hmin. unfold float_outcome, outcome.
  assert (dict_values (map float_item scores) = map Finite (dict_values scores)) as ->.
  { unfold dict_values. rewrite !map_map. reflexivity. }
  unfold fsum. rewrite fold_fadd_exact; auto; [|apply Qle_refl].
  fold (Qsum (dict_values scores)).
  cbn [feq]. destruct (Qeq_bool (Qsum (dict_values scores)) 0) eqn:Hzero;
    [reflexivity|].
  destruct scores as [|x scores]; [discriminate|].
  cbn [map PyFloat.py_max py_max bind].
  rewrite float_max_from_exact. cbn [float_item snd fst].
  assert (0 < Qsum (dict_values (x :: scores)))%Q as Htotal.
  { pose proof (Qsum_nonneg _ Hnonneg) as H0.
    apply Qle_lt_or_eq in H0. destruct H0 as [H0|H0]; auto.
    symmetry in H0. apply Qeq_bool_iff in H0. congruence. }
  assert (In (snd (max_from x scores)) (dict_values (x :: scores))) as Hin.
  { apply in_map. apply max_from_In. }
  assert (0 <= snd (max_from x scores))%Q as Hbest.
  { rewrite Forall_forall in Hnonneg. now apply Hnonneg. }
  pose proof (Qsum_ge_member _ _ Hnonneg Hin) as Hle.
  unfold fdiv. rewrite Hzero.
  rewrite float_of_Q_in_range.
  - cbn [bind]. rewrite (float_of_Q_in_range min_conf) by assumption.
    cbn [flt]. destruct (Qltb _ _); reflexivity.
  - pose proof float_overflow_large.
    assert (0 <= snd (max_from x scores) / Qsum (dict_values (x :: scores)) <= 1)%Q.
    { split.
      - apply Qle_shift_div_l; auto. now rewrite Qmult_0_l.
      - apply Qle_shift_div_r; auto. now rewrite Qmult_1_l. }
    unfold in_float_range. lra.
Qed.

(** On a detector whose weights are finite and not negative and whose
    threshold is finite, as long as the exact total of the scores of the
    text stays below the overflow bound, [detect] in floats does what
    [detect] in exact arithmetic does: the same exception, or the same
    language with the same confidence. *)
Lemma float_detect_exact self text :
  NoDup (dict_keys (language_data self)) ->
  weights_nonneg self -> weights_finite self ->
  in_float_range (min_confidence self) ->
  (forall m,
      all_metrics self (_clean_text (as_str text))
        (split (_clean_text (as_str text))) = Ok m ->
      (Qsum (dict_values (metric_scores self m)) < float_overflow)%Q) ->
  PyFloat.detect self text = (r <- detect self text ;; Ok (float_detection r)).
Proof.
  intros Hnd Hnonneg Hfinite Hmin Hbound.
  assert (empty_input text \/
          exists s, text = PyStr s /\ split (_clean_text s) <> []) as [Hempty|Hfull].
  { destruct text as [s|b]; [|left; right; left; reflexivity].
    destruct (split (_clean_text s)) eqn:Hsplit.
    - left. right. right. right. exact Hsplit.
    - right. exists s. split; auto. rewrite Hsplit. discriminate. }
  - rewrite float_detect_empty, detect_empty by assumption. reflexivity.
  - destruct Hfull as [s [-> Hwords]]. cbn [as_str] in Hbound.
    rewrite float_detect_tokens, detect_tokens by assumption.
    destruct (fast_path _); [reflexivity|].
    destruct (all_metrics self (_clean_text s) (split (_clean_text s)))
      as [m|e] eqn:Hm; cbn [bind]; [|reflexivity].
    specialize (Hbound m eq_refl).
    rewrite float_scores_exact by assumption.
    apply float_outcome_exact; auto.
    unfold metric_scores. now apply weighted_scores_nonneg.
Qed.

End Exact.

(** ** Detectors that share their list of languages *)

Lemma state_of_init fs heap langs dir min_conf :
  heap Shared.DEFAULT_LANGUAGES = DEFAULT_LANGUAGES ->
  state_of heap (Shared.LangDetector_init fs heap langs dir min_conf)
  = LangDetector_init fs (option_map heap langs) dir min_conf.
Proof.
  intros Hdefault. unfold state_of, Shared.LangDetector_init, LangDetector_init.
  cbn [Shared.languages Shared.data_dir Shared.min_confidence Shared.language_data].
  destruct langs as [r|]; cbn [option_map].
  - destruct (heap r) as [|l ls] eqn:Hr; cbn [is_empty].
    + now rewrite Hdefault.
    + now rewrite Hr.
  - now rewrite Hdefault.
Qed.

Lemma heap_set_same heap r l : heap_set heap r l r = l.
Proof. unfold heap_set. now rewrite Nat.eqb_refl. Qed.

Lemma state_of_add_language heap self lang_code data :
  state_of (fst (Shared.add_language heap self lang_code data))
    (snd (Shared.add_language heap self lang_code data))
  = add_language (state_of heap self) lang_code data.
Proof.
  unfold Shared.add_language, add_language, state_of.
  cbn [fst snd Shared.languages Shared.data_dir Shared.min_confidence
       Shared.language_data languages data_dir min_confidence language_data].
  destruct (lang_in lang_code (heap (Shared.languages self))); [reflexivity|].
  now rewrite heap_set_same.
Qed.

Lemma state_of_remove_language heap self lang_code :
  (state_of (fst (fst (Shared.remove_language heap self lang_code)))
     (snd (fst (Shared.remove_language heap self lang_code))),
   snd (Shared.remove_language heap self lang_code))
  = remove_language (state_of heap self) lang_code.
Proof.
  unfold Shared.remove_language, remove_language, state_of.
  cbn [Shared.languages Shared.data_dir Shared.min_confidence
       Shared.language_data languages data_dir min_confidence language_data].
  destruct (lang_in lang_code (heap (Shared.languages self))); cbn [fst snd].
  - now rewrite heap_set_same.
  - reflexivity.
Qed.

(** The invariant of a detector once list objects are shared.  A new
    detector satisfies it, and is in the state [LangDetector_init] gives as
    long as the class attribute has not been changed.  [add_language] and [remove_language] leave the
    receiver in the state that the functions on one detector give, so they
    keep the invariant of the receiver; [add_language] keeps that of every
    other detector as well; [remove_language] keeps that of another detector
    which holds another list or no profile of the language, and breaks that
    of a detector which shares the list and holds a profile of the
    language. *)
Theorem shared_languages_invariant fs heap langs dir min_conf self other
    lang_code data :
  (wf_detector (state_of heap (Shared.LangDetector_init fs heap langs dir min_conf))
   /\ (heap Shared.DEFAULT_LANGUAGES = DEFAULT_LANGUAGES ->
       state_of heap (Shared.LangDetector_init fs heap langs dir min_conf)
       = LangDetector_init fs (option_map heap langs) dir min_conf))
  /\ (let heap' := fst (Shared.add_language heap self lang_code data) in
      let self' := snd (Shared.add_language heap self lang_code data) in
      state_of heap' self' = add_language (state_of heap self) lang_code data
      /\ (wf_detector (state_of heap self) -> wf_detector (state_of heap' self'))
      /\ (wf_detector (state_of heap other) -> wf_detector (state_of heap' other)))
  /\ (let heap' := fst (fst (Shared.remove_language heap self lang_code)) in
      let self' := snd (fst (Shared.remove_language heap self lang_code)) in
      let removed := snd (Shared.remove_language heap self lang_code) in
      (state_of heap' self', removed) = remove_language (state_of heap self) lang_code
      /\ (wf_detector (state_of heap self) -> wf_detector (state_of heap' self'))
      /\ (wf_detector (state_of heap other) ->
          Shared.languages other <> Shared.languages self
          \/ ~ In lang_code (dict_keys (Shared.language_data other)) ->
          wf_detector (state_of heap' other))
      /\ (Shared.languages other = Shared.languages self ->
          In lang_code (dict_keys (Shared.language_data other)) ->
          In lang_code (heap (Shared.languages self)) ->
          NoDup (heap (Shared.languages self)) ->
          ~ wf_detector (state_of heap' other))).
Proof.
  split; [|split].
  - split; [|apply state_of_init].
    unfold wf_detector, state_of, Shared.LangDetector_init.
    cbn [languages language_data Shared.languages Shared.language_data].
    apply load_language_data_wf.
    + constructor.
    + intros x [].
    + apply incl_refl.
  - cbv zeta. split; [apply state_of_add_language|]. split.
    + intros Hwf. rewrite state_of_add_language. now apply add_language_wf.
    + intros [Hnd Hincl]. split; [exact Hnd|].
      unfold state_of, Shared.add_language in *.
      cbn [fst languages language_data] in *.
      destruct (lang_in lang_code (heap (Shared.languages self))); auto.
      intros x Hx. specialize (Hincl x Hx). unfold heap_set.
      destruct (Nat.eqb (Shared.languages other) (Shared.languages self)) eqn:E; auto.
      apply Nat.eqb_eq in E. rewrite <- E. apply in_or_app. now left.
  - cbv zeta. pose proof (state_of_remove_language heap self lang_code) as Hstate.
    split; [exact Hstate|]. split; [|split].
    + intros Hwf. apply (f_equal fst) in Hstate. cbn [fst] in Hstate.
      rewrite Hstate. now apply remove_language_wf.
    + intros [Hnd Hincl] Hother. split; [exact Hnd|].
      unfold state_of, Shared.remove_language in *.
      cbn [languages language_data] in *.
      destruct (lang_in lang_code (heap (Shared.languages self))); cbn [fst]; auto.
      intros x Hx. specialize (Hincl x Hx). unfold heap_set.
      destruct (Nat.eqb (Shared.languages other) (Shared.languages self)) eqn:E; auto.
      apply Nat.eqb_eq in E. rewrite E in Hincl.
      apply list_remove_In; auto.
      intros ->. destruct Hother as [Hother|Hother]; [now apply Hother | now apply Hother].
    + intros Hshared Hprofile Hactive Hnodup [_ Hincl].
      unfold state_of, Shared.remove_language in Hincl.
      apply lang_in_In in Hactive. rewrite Hactive in Hincl.
      cbn [fst languages language_data] in Hincl.
      specialize (Hincl lang_code Hprofile).
      rewrite Hshared, heap_set_same in Hincl.
      now apply list_remove_NoDup in Hincl.
Qed.

(** ** Runs of the float pipeline *)

Lemma overflow_detector_weights :
  weights_nonneg overflow_detector /\ weights_finite overflow_detector.
Proof.
  split; intros lang_code lang_data [[= <- <-]|[]];
    (constructor; [|constructor]).
  - unfold Qle. vm_compute. discriminate.
  - unfold in_float_range, Qlt. vm_compute. split; reflexivity.
Qed.

Lemma confidence_in_unit_interval_witness :
  exists r,
    PyFloat.detect default_detector (PyStr (u "на")) = Ok r
    /\ (in_unit_interval (PyFloat.confidence r) \/ PyFloat.confidence r = NaN).
Proof.
  destruct (confidence_in_unit_interval default_detector (PyStr (u "на"))
              default_detector_weights default_detector_finite)
    as [Hrange Hreturns].
  destruct (Hreturns default_detector_wf) as [r Hr].
  exists r. split; [exact Hr|]. exact (proj1 (proj2 (Hrange r Hr))).
Defined.

(** C4 fails as stated: with the single language x, its digram "ab" and the
    weight 1e308 for digrams, the text "ab ab" scores 2 * 1e308, which
    overflows to infinity; the total is infinite as well and the confidence
    of the answer x is nan, outside every interval. *)
Lemma confidence_nan_on_overflow :
  weights_nonneg overflow_detector
  /\ PyFloat.detect overflow_detector (PyStr (u "ab ab"))
     = Ok {| PyFloat.language := "x"; PyFloat.confidence := NaN |}
  /\ ~ in_unit_interval NaN.
Proof.
  split; [exact (proj1 overflow_detector_weights)|].
  split; [vm_compute; reflexivity|].
  intros [H _]. discriminate.
Qed.

Lemma top_languages_ranked_witness :
  exists report,
    PyFloat.analyze default_detector (PyStr (u "на"))
    = Ok (PyFloat.AnalyzeReport report)
    /\ StronglySorted float_score_ge (PyFloat.top_languages report)
    /\ length (PyFloat.top_languages report) <= 3.
Proof.
  destruct (top_languages_ranked default_detector (PyStr (u "на")))
    as [Hranked Hreturns].
  destruct (Hreturns default_detector_wf) as [report Ha].
  - vm_compute. discriminate.
  - reflexivity.
  - exists report. destruct (Hranked report Ha) as [Hs [_ [Hl Hnan]]].
    split; [exact Ha|]. split; [|exact Hl].
    apply Hs. apply Hnan; [exact default_detector_weights | exact default_detector_finite].
Defined.

(** C7 fails as stated: the two default languages tie on the text "на" (one
    shared digram each), and both appear in [top_languages] with the same
    score. *)
Lemma top_languages_tie :
  exists report,
    PyFloat.analyze default_detector (PyStr (u "на"))
    = Ok (PyFloat.AnalyzeReport report)
    /\ map PyFloat.top_language (PyFloat.top_languages report)
       = ["russian"; "ukrainian"]
    /\ ~ Sorted float_score_gt (PyFloat.top_languages report).
Proof.
  eexists. split; [vm_compute; reflexivity|]. split; [reflexivity|].
  intros Hsorted.
  inversion Hsorted as [|a l _ Hhd]; subst.
  inversion Hhd as [|b l' Hgt]; subst.
  vm_compute in Hgt. discriminate.
Qed.

Lemma detect_answers_loaded_language_witness :
  exists r,
    PyFloat.detect german_detector (PyStr (u "на")) = Ok r
    /\ (PyFloat.language r = "unknown"
        \/ In (PyFloat.language r) (dict_keys (language_data german_detector))).
Proof.
  eexists. split; [vm_compute; reflexivity|].
  apply (detect_answers_loaded_language german_detector (PyStr (u "на"))).
  - vm_compute. repeat constructor. intros [].
  - intros lang_code lang_data [[= <- <-]|[]]. apply default_weights_nonneg.
  - intros lang_code lang_data [[= <- <-]|[]]. apply default_weights_finite.
  - vm_compute. reflexivity.
Defined.

Lemma removed_language_not_detected_witness :
  exists r,
    PyFloat.detect (fst (remove_language default_detector "ukrainian"))
      (PyStr (u "це її"))
    = Ok r
    /\ PyFloat.language r <> "ukrainian".
Proof.
  eexists. split; [vm_compute; reflexivity|].
  apply (removed_language_not_detected default_detector "ukrainian"
           (PyStr (u "це її"))).
  - exact (proj1 default_detector_wf).
  - exact default_detector_weights.
  - exact default_detector_finite.
  - vm_compute. right. left. reflexivity.
  - discriminate.
  - vm_compute. reflexivity.
Defined.

Lemma named_language_tops_ranking_witness :
  exists report score rest,
    PyFloat.analyze default_detector (PyStr (u "это"))
    = Ok (PyFloat.AnalyzeReport report)
    /\ PyFloat.top_languages report
       = {| PyFloat.top_language := PyFloat.language (PyFloat.result report);
            PyFloat.top_score := score;
            PyFloat.top_confidence := PyFloat.confidence (PyFloat.result report) |}
         :: rest.
Proof.
  eexists.
  assert (PyFloat.analyze default_detector (PyStr (u "это"))
          = Ok (PyFloat.AnalyzeReport _)) as Ha
    by (vm_compute; reflexivity).
  destruct (named_language_tops_ranking default_detector (PyStr (u "это")) _
              default_detector_weights default_detector_finite Ha)
    as [score [rest [Htop _]]].
  - vm_compute. discriminate.
  - exists score, rest. split; [exact Ha | exact Htop].
Defined.

Lemma detect_from_file_answer_witness :
  PyFloat.file_error (PyFloat.detect_from_file one_file default_detector "note.txt")
  = None
  /\ PyFloat.detect default_detector (PyStr (u "это"))
     = Ok (PyFloat.file_answer
             (PyFloat.detect_from_file one_file default_detector "note.txt")).
Proof.
  destruct (detect_from_file_answer one_file default_detector "note.txt")
    as [_ [_ [_ Hread]]].
  apply Hread.
  - reflexivity.
  - exact default_detector_wf.
Defined.

(** Two detectors built by [LangDetector()] share the class attribute: when
    the first removes a language, the second keeps the profile of a
    language that is no longer in its list, and its [detect] raises. *)
Lemma shared_languages_invariant_witness :
  ~ wf_detector
      (state_of
         (fst (fst (Shared.remove_language initial_heap first_default "ukrainian")))
         second_default)
  /\ PyFloat.detect
       (state_of
          (fst (fst (Shared.remove_language initial_heap first_default "ukrainian")))
          second_default)
       (PyStr (u "на"))
     = Raise (KeyError "ukrainian").
Proof.
  split.
  - apply (proj2 (proj2 (proj2 (proj2 (proj2
             (shared_languages_invariant no_files initial_heap None None (6 # 10)%Q
                first_default second_default "ukrainian" russian_data)))))).
    + reflexivity.
    + vm_compute. right. left. reflexivity.
    + vm_compute. right. left. reflexivity.
    + vm_compute. repeat constructor; simpl; intuition discriminate.
  - vm_compute. reflexivity.
Defined.
